(** * Keploy record/replay core: a shallow embedding and its properties

    The development follows the Go sources module by module:

    - [Ctx]     : utils/ctx.go                (the process-wide stop function)
    - [Mongo]   : the mongo integration       (MatchType, recordMessage)
    - [Filter]  : package test                (FilterTcsMocks)
    - [Conn]    : pkg/core/hooks/conn         (Factory.ProcessActiveTrackers, capture)
    - [Replay]  : package replay              (Start, RunTestSet, printSummary)
    - [Compare] : package test                (Contains, MatchesAnyRegex, CompareHeaders)
    - [Flat]    : package test                (Flatten, AddHttpBodyToMap, FlattenHttpResponse)

    Go values are modelled as the code has them: byte slices as lists of
    bytes, Go maps as finite maps, package-level variables as fields of an
    explicit state, channel sends and log lines as output lists, and calls
    into collaborators that are not part of these sources (the stores, the
    instrumentation, the HTTP parser) as parameters or as the recorded
    outcome of the call. *)

From Stdlib Require Import ZArith List Bool Ascii String Lia.
From Stdlib.Strings Require Import Byte.
From stdpp Require Import base option list sorting gmap strings.
Import ListNotations.

Local Open Scope Z_scope.

(* ===================================================================== *)
(** ** utils/ctx.go *)
(* ===================================================================== *)

Module Ctx.

(** The package-level [cancel] variable holds a [context.CancelFunc] or
    nil.  What matters about a cancel function here is that it was called;
    the state counts the calls and keeps the lines written to the logger. *)
Record State := mkState {
  cancel      : option nat;   (* nil, or the identity of the function set *)
  cancelCalls : list nat;     (* invocations of cancel functions, latest first *)
  logOut      : list string   (* messages handed to the logger *)
}.

(** [*zap.Logger]: a possibly nil pointer. *)
Inductive Logger := NilLogger | SomeLogger.

Definition SetCancel (c : option nat) (s : State) : State :=
  mkState c (cancelCalls s) (logOut s).

Definition LogError (msg : string) (s : State) : State :=
  mkState (cancel s) (cancelCalls s) (msg :: logOut s).

Definition LogInfo (msg : string) (s : State) : State :=
  mkState (cancel s) (cancelCalls s) (msg :: logOut s).

Definition callCancel (c : nat) (s : State) : State :=
  mkState (cancel s) (c :: cancelCalls s) (logOut s).

(** [Stop] returns the error (None is Go's nil) and the new state. *)
Definition Stop (logger : Logger) (reason : string) (s : State)
  : option string * State :=
  match logger with
  | NilLogger => (Some "logger is not set"%string, s)
  | SomeLogger =>
      match cancel s with
      | None =>
          (Some "cancel function is not set"%string,
           LogError "failed stopping keploy" s)
      | Some c =>
          if String.eqb reason "" then
            (Some "cannot stop keploy without a reason"%string,
             LogError "failed stopping keploy" s)
          else
            (None, callCancel c (LogInfo "stopping Keploy" s))
      end
  end.

End Ctx.

(* ===================================================================== *)
(** ** The mongo integration: MatchType *)
(* ===================================================================== *)

Module Mongo.

Definition byteZ (b : byte) : Z := Z.of_N (Byte.to_N b).

(** Truncation to an unsigned 32-bit integer. *)
Definition u32 (z : Z) : Z := z mod 2 ^ 32.

(** [binary.LittleEndian.Uint32]: the caller passes a slice of four bytes
    (shorter slices panic, rendered as [None]). *)
Definition Uint32 (b : list byte) : option Z :=
  match b with
  | b0 :: b1 :: b2 :: b3 :: _ =>
      Some (Z.lor (Z.lor (Z.lor (u32 (byteZ b0))
                                (u32 (Z.shiftl (byteZ b1) 8)))
                         (u32 (Z.shiftl (byteZ b2) 16)))
                  (u32 (Z.shiftl (byteZ b3) 24)))
  | _ => None
  end.

Definition len {A} (l : list A) : Z := Z.of_nat (length l).

(** [buffer[0:4]] *)
Definition slice04 (buffer : list byte) : list byte := firstn 4 buffer.

Definition MatchType (buffer : list byte) : bool :=
  if len buffer <? 4 then false
  else
    match Uint32 (slice04 buffer) with
    | Some messageLength => messageLength =? len buffer
    | None => false
    end.

(** The number a little-endian byte string denotes: the first byte is the
    least significant digit in base 256. *)
Fixpoint le_value (b : list byte) : Z :=
  match b with
  | [] => 0
  | x :: r => byteZ x + 256 * le_value r
  end.

(** *** recordMessage *)

(** [wiremessage.OpCode]: the two opcodes the switch names, and the rest. *)
Inductive OpCode := OpQuery | OpMsg | OpOther (code : Z).

Record MongoHeader := { Opcode : OpCode }.

(** The dynamic type behind the [Message] interface value of a request. *)
Inductive Message :=
| MongoOpQuery (Query : string)
| MongoOpMessage (Sections : list string)
| MongoOpOther.

Record MongoRequest := {
  Header     : MongoHeader;
  ReqMessage : Message
}.

(** What the function uses and these sources do not contain: the
    heartbeat classifier, the printed form of the operation, and
    [models.GetVersion]. *)
Class Deps (Operation : Type) := {
  isHeartBeat : Operation -> MongoHeader -> Message -> bool;
  OpString    : Operation -> string;
  GetVersion  : string
}.

Section RecordMessage.
Context {Time Operation MongoResponse : Type} `{Deps Operation}.

Record MockSpec := {
  Metadata         : gmap string string;
  MongoRequests    : list MongoRequest;
  MongoResponses   : list MongoResponse;
  Created          : Z;
  ReqTimestampMock : Time;
  ResTimestampMock : Time
}.

Record Mock := {
  Version : string;
  Kind    : string;
  Name    : string;
  Spec    : MockSpec
}.

(** One pass through the [switch] for a value [v] of [configRequests]
    and a request [req].  The state is [shouldRecordCalls] and the
    package-level slice [configRequests]; [break] leaves the switch
    only, so both loops go on.  A failed type assertion and
    [Sections[0]] on an empty slice panic: [None]. *)
Definition visit (opReq : Operation) (v : string) (req : MongoRequest)
           (st : bool * list string) : option (bool * list string) :=
  let '(shouldRecordCalls, configRequests) := st in
  match Opcode (Header req) with
  | OpQuery =>
      match ReqMessage req with
      | MongoOpQuery q =>
          if String.eqb q v then Some (false, configRequests)
          else Some (shouldRecordCalls, configRequests ++ [q])
      | _ => None
      end
  | OpMsg =>
      match ReqMessage req with
      | MongoOpMessage sections =>
          match sections with
          | s0 :: _ =>
              if String.eqb s0 v then Some (false, configRequests)
              else Some (shouldRecordCalls, configRequests ++ [s0])
          | [] => None
          end
      | _ => None
      end
  | OpOther _ =>
      if String.eqb (OpString opReq) v then Some (false, configRequests)
      else Some (shouldRecordCalls, configRequests ++ [OpString opReq])
  end.

(** [for _, x := range xs { body }] over a state that may panic. *)
Fixpoint forRange {A S : Type} (body : A -> S -> option S)
         (xs : list A) (st : S) : option S :=
  match xs with
  | [] => Some st
  | x :: r =>
      match body x st with
      | Some st' => forRange body r st'
      | None => None
      end
  end.

(** The two nested loops.  [range configRequests] evaluates the slice
    once: the values visited are those present on entry. *)
Definition scanConfig (opReq : Operation) (mongoRequests : list MongoRequest)
           (configRequests : list string) : option (bool * list string) :=
  forRange (fun v => forRange (visit opReq v) mongoRequests)
           configRequests (true, configRequests).

(** [recordMessage]: from the package-level [configRequests] to its new
    value and the mocks sent on the [mocks] channel.  [nowUnix] and [now]
    are the two readings of the clock. *)
Definition recordMessage (mongoRequests : list MongoRequest)
           (mongoResponses : list MongoResponse) (opReq : Operation)
           (reqTimestampMock : Time) (nowUnix : Z) (now : Time)
           (configRequests : list string)
  : option (list string * list Mock) :=
  let name := "mocks"%string in
  let meta1 : gmap string string := {[ "operation"%string := OpString opReq ]} in
  match mongoRequests with
  | [] => None                                  (* mongoRequests[0] *)
  | r0 :: _ =>
      '(meta1, shouldRecordCalls, configRequests) ←
        (if isHeartBeat opReq (Header r0) (ReqMessage r0) then
           '(b, cfg) ← scanConfig opReq mongoRequests configRequests;
           Some (<["type"%string := "config"%string]> meta1, b, cfg)
         else Some (meta1, true, configRequests));
      if (shouldRecordCalls : bool) then
        let mongoMock :=
          {| Version := GetVersion;
             Kind := "Mongo";
             Name := name;
             Spec := {| Metadata := meta1;
                        MongoRequests := mongoRequests;
                        MongoResponses := mongoResponses;
                        Created := nowUnix;
                        ReqTimestampMock := reqTimestampMock;
                        ResTimestampMock := now |} |} in
        Some (configRequests, [mongoMock])
      else Some (configRequests, [])
  end.

(** The string a request is compared by in [visit]. *)
Definition payload (opReq : Operation) (req : MongoRequest) : option string :=
  match Opcode (Header req), ReqMessage req with
  | OpQuery, MongoOpQuery q => Some q
  | OpMsg, MongoOpMessage (s0 :: _) => Some s0
  | OpOther _, _ => Some (OpString opReq)
  | _, _ => None
  end.

(** A request the switch can handle: its message has the type its
    opcode announces, and an OP_MSG has a first section. *)
Definition wellTyped (opReq : Operation) (req : MongoRequest) : Prop :=
  is_Some (payload opReq req).

End RecordMessage.

Arguments MockSpec : clear implicits.
Arguments Mock : clear implicits.

End Mongo.

(* ===================================================================== *)
(** ** package test: FilterTcsMocks *)
(* ===================================================================== *)

Module Filter.

(** [time.Time] as the function uses it: comparison with the zero value
    [time.Time{}] by [==], and the methods [After] and [Before]. *)
Class GoTime (Time : Type) := {
  zeroTime    : Time;
  Time_eq_dec :: EqDecision Time;
  After       : Time -> Time -> bool;
  Before      : Time -> Time -> bool
}.

(** A line handed to the logger: the message and the [zap.Strings] field. *)
Definition LogLine : Type := string * list string.

Section FilterTcsMocks.
Context {Time : Type} `{GoTime Time}.

Record HttpReq  := { Req_Timestamp  : Time }.
Record HttpResp := { Resp_Timestamp : Time }.

Record TestCase := {
  Name     : string;
  HttpReq_ : HttpReq;
  HttpResp_ : HttpResp
}.

Record MockSpec := {
  ReqTimestampMock : Time;
  ResTimestampMock : Time
}.

Record Mock := {
  Version   : string;
  MockName  : string;
  Spec      : MockSpec
}.

(** [t == (time.Time{})] *)
Definition isZeroValue (t : Time) : bool := bool_decide (t = zeroTime).

(** Local variables of the loop. *)
Record Locals := {
  filteredMocks  : list Mock;
  entMocks       : list string;
  nonKeployMocks : list string;
  warnings       : list LogLine
}.

(** The body of [for _, mock := range m]. *)
Definition body (tc : TestCase) (l : Locals) (mock : Mock) : Locals :=
  let ent :=
    if String.eqb (Version mock) "api.keploy-enterprise.io/v1beta1"
    then entMocks l ++ [MockName mock] else entMocks l in
  let non :=
    if String.eqb (Version mock) "api.keploy-enterprise.io/v1beta1"
    then nonKeployMocks l
    else if negb (String.eqb (Version mock) "api.keploy.io/v1beta1")
         then nonKeployMocks l ++ [MockName mock] else nonKeployMocks l in
  if isZeroValue (ReqTimestampMock (Spec mock))
     || isZeroValue (ResTimestampMock (Spec mock)) then
    {| filteredMocks := filteredMocks l ++ [mock];
       entMocks := ent; nonKeployMocks := non;
       warnings := warnings l ++
         [("request or response timestamp of mock is missing for " +:+ Name tc, [])] |}
  else if After (ReqTimestampMock (Spec mock)) (Req_Timestamp (HttpReq_ tc))
          && Before (ResTimestampMock (Spec mock)) (Resp_Timestamp (HttpResp_ tc)) then
    {| filteredMocks := filteredMocks l ++ [mock];
       entMocks := ent; nonKeployMocks := non; warnings := warnings l |}
  else
    {| filteredMocks := filteredMocks l;
       entMocks := ent; nonKeployMocks := non; warnings := warnings l |}.

(** The two warnings after the loop. *)
Definition versionWarnings (l : Locals) : list LogLine :=
  (if 0 <? Z.of_nat (length (entMocks l)) then
     [("These mocks have been recorded with Keploy Enterprise, may not work properly with the open-source version"%string,
       entMocks l)]
   else []) ++
  (if 0 <? Z.of_nat (length (nonKeployMocks l)) then
     [("These mocks have not been recorded by Keploy, may not work properly with Keploy."%string,
       nonKeployMocks l)]
   else []).

(** [FilterTcsMocks]: the returned slice and the lines logged. *)
Definition FilterTcsMocks (tc : TestCase) (m : list Mock)
  : list Mock * list LogLine :=
  if isZeroValue (Req_Timestamp (HttpReq_ tc)) then
    (m, [("request timestamp is missing for " +:+ Name tc, [])])
  else if isZeroValue (Resp_Timestamp (HttpResp_ tc)) then
    (m, [("response timestamp is missing for " +:+ Name tc, [])])
  else
    let l := fold_left (body tc) m
               {| filteredMocks := []; entMocks := [];
                  nonKeployMocks := []; warnings := [] |} in
    (filteredMocks l, warnings l ++ versionWarnings l).

(** The window test of the specification, as a predicate on a mock. *)
Definition inWindow (tc : TestCase) (mock : Mock) : bool :=
  isZeroValue (ReqTimestampMock (Spec mock))
  || isZeroValue (ResTimestampMock (Spec mock))
  || (After (ReqTimestampMock (Spec mock)) (Req_Timestamp (HttpReq_ tc))
      && Before (ResTimestampMock (Spec mock)) (Resp_Timestamp (HttpResp_ tc))).

End FilterTcsMocks.

Arguments HttpReq : clear implicits.
Arguments HttpResp : clear implicits.
Arguments TestCase : clear implicits.
Arguments MockSpec : clear implicits.
Arguments Mock : clear implicits.
Arguments Locals : clear implicits.

(** Instants on the integer time line, 0 standing for the zero value; used
    to run the function on the examples of the specification. *)
#[global] Instance ZTime : GoTime Z := {|
  zeroTime := 0;
  After t u := u <? t;
  Before t u := t <? u
|}.

Definition mkTc (name : string) (req resp : Z) : TestCase Z :=
  {| Name := name; HttpReq_ := {| Req_Timestamp := req |};
     HttpResp_ := {| Resp_Timestamp := resp |} |}.

Definition mkMock (name : string) (req res : Z) : Mock Z :=
  {| Version := "api.keploy.io/v1beta1"; MockName := name;
     Spec := {| ReqTimestampMock := req; ResTimestampMock := res |} |}.

End Filter.

(* ===================================================================== *)
(** ** pkg/core/hooks/conn: the Factory *)
(* ===================================================================== *)

Module Conn.

(** [net/http]'s request and response, as far as [capture] reads them.
    [Body] is the outcome of [io.ReadAll] on the body: [None] is an error. *)
Record Request := {
  Method      : string;
  ProtoMajor  : Z;
  ProtoMinor  : Z;
  Host        : string;
  RequestURI  : string;                        (* req.URL.RequestURI() *)
  ReqHeader   : gmap string (list string);
  ReqBody     : option string
}.

Record Response := {
  StatusCode  : Z;
  RespHeader  : gmap string (list string);
  RespBody    : option string
}.

(** The tracker's methods and the helpers of package [pkg] and [models]
    that are not part of these sources.  [IsComplete] is a method on a
    pointer: it returns the tracker's new state next to its results. *)
Class Deps (Tracker Time : Type) := {
  IsComplete        : Tracker -> Tracker * (bool * list byte * list byte * Time * Time);
  IsInactive        : Tracker -> Z -> bool;
  ParseHTTPRequest  : list byte -> option Request;
  ParseHTTPResponse : list byte -> Request -> option Response;
  ToYamlHttpHeader  : gmap string (list string) -> gmap string string;
  UrlParams         : Request -> gmap string string;
  GetVersion        : string
}.

Section Factory.
Context {ConnID : Type} `{Countable ConnID}.
Context {Tracker Time : Type} `{Deps Tracker Time}.

Record HttpReq := {
  Req_Method     : string;
  Req_ProtoMajor : Z;
  Req_ProtoMinor : Z;
  Req_URL        : string;
  Req_Header     : gmap string string;
  Req_Body       : string;
  Req_URLParams  : gmap string string;
  Req_Timestamp  : Time
}.

Record HttpResp := {
  Resp_StatusCode : Z;
  Resp_Header     : gmap string string;
  Resp_Body       : string;
  Resp_Timestamp  : Time
}.

Record TestCase := {
  Version   : string;
  Name      : string;
  Kind      : string;
  Created   : Z;
  HttpReq_  : HttpReq;
  HttpResp_ : HttpResp;
  Noise     : gmap string (list string)
}.

Record Factory := {
  connections         : gmap ConnID Tracker;
  inactivityThreshold : Z
}.

(** Local state of [ProcessActiveTrackers]: the registry, the slice
    [trackersToDelete], the test cases sent on [t] and the log. *)
Record Sweep := {
  conns            : gmap ConnID Tracker;
  trackersToDelete : list ConnID;
  sent             : list TestCase;
  logs             : list string
}.

(** [m[k]] on a Go map of strings: the empty string when absent. *)
Definition index (m : gmap string string) (k : string) : string :=
  default ""%string (m !! k).

(** [capture]: the test cases sent on [t] and the errors logged.
    [created] is [time.Now().Unix()]. *)
Definition capture (created : Z) (req : Request) (resp : Response)
           (reqTimeTest resTimeTest : Time) : list TestCase * list string :=
  match ReqBody req with
  | None => ([], ["failed to read the http request body"%string])
  | Some reqBody =>
      match RespBody resp with
      | None => ([], ["failed to read the http response body"%string])
      | Some respBody =>
          ([ {| Version := GetVersion;
                Name := index (ToYamlHttpHeader (ReqHeader req)) "Keploy-Test-Name";
                Kind := "Http";
                Created := created;
                HttpReq_ :=
                  {| Req_Method := Method req;
                     Req_ProtoMajor := ProtoMajor req;
                     Req_ProtoMinor := ProtoMinor req;
                     Req_URL := "http://" +:+ Host req +:+ RequestURI req;
                     Req_Header := ToYamlHttpHeader (ReqHeader req);
                     Req_Body := reqBody;
                     Req_URLParams := UrlParams req;
                     Req_Timestamp := reqTimeTest |};
                HttpResp_ :=
                  {| Resp_StatusCode := StatusCode resp;
                     Resp_Header := ToYamlHttpHeader (RespHeader resp);
                     Resp_Body := respBody;
                     Resp_Timestamp := resTimeTest |};
                Noise := ∅ |} ], [])
      end
  end.

(** What the [default] branch of the [select] does for one tracker once
    [IsComplete] has returned: the test cases sent, the lines logged and
    whether the connection is put on [trackersToDelete]. *)
Definition process (created : Z) (threshold : Z) (tracker' : Tracker)
           (ok : bool) (requestBuf responseBuf : list byte)
           (reqTimestampTest resTimestampTest : Time)
  : list TestCase * list string * bool :=
  if ok then
    if (Z.of_nat (length requestBuf) =? 0) || (Z.of_nat (length responseBuf) =? 0) then
      ([], ["failed processing a request due to invalid request or response"%string], false)
    else
      match ParseHTTPRequest requestBuf with
      | None => ([], ["failed to parse the http request from byte array"%string], false)
      | Some parsedHttpReq =>
          match ParseHTTPResponse responseBuf parsedHttpReq with
          | None => ([], ["failed to parse the http response from byte array"%string], false)
          | Some parsedHttpRes =>
              let '(tcs, errs) :=
                capture created parsedHttpReq parsedHttpRes
                        reqTimestampTest resTimestampTest in
              (tcs, errs, false)
          end
      end
  else if IsInactive tracker' threshold then ([], [], true)
  else ([], [], false).

(** One iteration of the loop for the pair [(connID, tracker)] with the
    context not done. *)
Definition visit (created : Z) (threshold : Z) (connID : ConnID)
           (tracker : Tracker) (s : Sweep) : Sweep :=
  let '(tracker', (ok, requestBuf, responseBuf, reqTs, resTs)) := IsComplete tracker in
  let '(tcs, lines, del) :=
    process created threshold tracker' ok requestBuf responseBuf reqTs resTs in
  {| conns := <[connID := tracker']> (conns s);
     trackersToDelete := if del then trackersToDelete s ++ [connID]
                         else trackersToDelete s;
     sent := sent s ++ tcs;
     logs := logs s ++ lines |}.

(** [for connID, tracker := range factory.connections].  [order] is the
    order in which the runtime yields the keys, [ctxDone i] tells whether
    [ctx.Done()] is closed when iteration [i] starts, [clock] is the time
    read while a connection is handled.  The boolean result tells that
    the function returned from inside the loop. *)
Fixpoint rangeConnections (ctxDone : nat -> bool) (clock : ConnID -> Z)
         (threshold : Z) (i : nat) (order : list ConnID) (s : Sweep)
  : bool * Sweep :=
  match order with
  | [] => (false, s)
  | connID :: rest =>
      match conns s !! connID with
      | None => rangeConnections ctxDone clock threshold i rest s
      | Some tracker =>
          if ctxDone i then (true, s)
          else rangeConnections ctxDone clock threshold (S i) rest
                 (visit (clock connID) threshold connID tracker s)
      end
  end.

(** [for _, key := range trackersToDelete { delete(factory.connections, key) }] *)
Definition deleteAll (keys : list ConnID) (m : gmap ConnID Tracker)
  : gmap ConnID Tracker :=
  fold_left (fun m key => delete key m) keys m.

(** [ProcessActiveTrackers]: the factory afterwards, the test cases sent
    on [t] in order, and the log. *)
Definition ProcessActiveTrackers (ctxDone : nat -> bool) (clock : ConnID -> Z)
           (order : list ConnID) (factory : Factory)
  : Factory * list TestCase * list string :=
  let '(returned, s) :=
    rangeConnections ctxDone clock (inactivityThreshold factory) 0 order
      {| conns := connections factory; trackersToDelete := [];
         sent := []; logs := [] |} in
  if returned then
    ({| connections := conns s;
        inactivityThreshold := inactivityThreshold factory |}, sent s, logs s)
  else
    ({| connections := deleteAll (trackersToDelete s) (conns s);
        inactivityThreshold := inactivityThreshold factory |}, sent s, logs s).

(** What handling one tracker yields: its new state, the test cases
    sent, the lines logged, and whether it is marked for deletion. *)
Definition outcome (created : Z) (threshold : Z) (tracker : Tracker)
  : Tracker * (list TestCase * list string * bool) :=
  let '(tracker', (ok, requestBuf, responseBuf, reqTs, resTs)) := IsComplete tracker in
  (tracker', process created threshold tracker' ok requestBuf responseBuf reqTs resTs).

(** The test case [tc] comes from a tracker of the registry [m] that
    reported itself complete with two non-empty buffers, and carries the
    two timestamps the tracker reported. *)
Definition originates (m : gmap ConnID Tracker) (tc : TestCase) : Prop :=
  exists connID tracker tracker' requestBuf responseBuf reqTs resTs,
    m !! connID = Some tracker /\
    IsComplete tracker = (tracker', (true, requestBuf, responseBuf, reqTs, resTs)) /\
    requestBuf <> [] /\ responseBuf <> [] /\
    Req_Timestamp (HttpReq_ tc) = reqTs /\
    Resp_Timestamp (HttpResp_ tc) = resTs.

(** [order] is an iteration order of the registry: every key once. *)
Definition iterates (order : list ConnID) (m : gmap ConnID Tracker) : Prop :=
  NoDup order /\ forall k, k ∈ order <-> is_Some (m !! k).

(** [NewFactory]: an empty registry with the given threshold. *)
Definition NewFactory (inactivityThreshold : Z) : Factory :=
  {| connections := ∅; inactivityThreshold := inactivityThreshold |}.

(** [GetOrCreate]: the tracker returned and the factory afterwards.
    [NewTracker] builds the tracker of a connection seen for the first
    time. *)
Definition GetOrCreate (NewTracker : ConnID -> Tracker) (connectionID : ConnID)
           (factory : Factory) : Tracker * Factory :=
  match connections factory !! connectionID with
  | None =>
      let tracker := NewTracker connectionID in
      (tracker,
       {| connections := <[connectionID := tracker]> (connections factory);
          inactivityThreshold := inactivityThreshold factory |})
  | Some tracker => (tracker, factory)
  end.

End Factory.

Arguments HttpReq : clear implicits.
Arguments HttpResp : clear implicits.
Arguments TestCase : clear implicits.
Arguments Factory _ {_ _} _.
Arguments Sweep _ {_ _} _ _.

End Conn.

(* ===================================================================== *)
(** ** package replay *)
(* ===================================================================== *)

Module Replay.

(** *** Library functions used by the comparison in [printSummary] *)

(** [strings.Split(s, "-")]: the pieces between the dashes; a string
    without a dash is the only piece. *)
Fixpoint Split (s : string) : list string :=
  match s with
  | EmptyString => [EmptyString]
  | String c r =>
      if Ascii.eqb c "-" then EmptyString :: Split r
      else match Split r with
           | p :: ps => String c p :: ps
           | [] => [String c EmptyString]
           end
  end.

Definition digit (c : ascii) : option Z :=
  let n := Z.of_N (N_of_ascii c) in
  if (48 <=? n) && (n <=? 57) then Some (n - 48) else None.

(** The value of a string of decimal digits read after the digits [acc]. *)
Fixpoint digits (acc : Z) (s : string) : option Z :=
  match s with
  | EmptyString => Some acc
  | String c r =>
      match digit c with
      | Some d => digits (acc * 10 + d) r
      | None => None
      end
  end.

(** [strconv.Atoi] on a 64-bit platform: an optional sign, at least one
    digit, nothing else; [None] stands for a non-nil error (bad syntax or
    a value outside [int]). *)
Definition Atoi (s : string) : option Z :=
  let signed (neg : bool) (r : string) :=
    match r with
    | EmptyString => None
    | _ =>
        match digits 0 r with
        | Some n =>
            let v := if neg then - n else n in
            if (- 2 ^ 63 <=? v) && (v <=? 2 ^ 63 - 1) then Some v else None
        | None => None
        end
    end in
  match s with
  | String "-" r => signed true r
  | String "+" r => signed false r
  | _ => signed false s
  end.

(** The [less] function handed to [sort.SliceStable]. *)
Definition testSuiteLess (a b : string) : bool :=
  let testSuitePartsI := Split a in
  let testSuitePartsJ := Split b in
  if (Z.of_nat (length testSuitePartsI) <? 3)
     || (Z.of_nat (length testSuitePartsJ) <? 3) then
    String.ltb a b
  else
    match Atoi (nth 2 testSuitePartsI EmptyString),
          Atoi (nth 2 testSuitePartsJ EmptyString) with
    | Some testSuiteIDNumberI, Some testSuiteIDNumberJ =>
        testSuiteIDNumberI <? testSuiteIDNumberJ
    | _, _ => false
    end.

(** The insertion sort [sort.SliceStable] runs on a slice of up to twenty
    elements: each element moves left past its left neighbour for as long
    as it is less than that neighbour.  [sortedRev] is the part sorted so
    far, rightmost element first.  On a longer slice the library sorts
    blocks of twenty in this way and merges them; the list is then the one
    computed here whenever [less] is a strict weak order on the elements,
    as [testSuiteLess] is on names with a numeric third part, because a
    stable sort has a single result.  For the other names ([less] is not
    transitive on them) the order of more than twenty names is the
    library's and is not claimed here. *)
Fixpoint insertLeft {A} (less : A -> A -> bool) (x : A) (sortedRev : list A)
  : list A :=
  match sortedRev with
  | [] => [x]
  | y :: r => if less x y then y :: insertLeft less x r else x :: y :: r
  end.

Definition SliceStable {A} (less : A -> A -> bool) (l : list A) : list A :=
  rev (fold_left (fun sortedRev x => insertLeft less x sortedRev) l []).

(** The order in which [printSummary] lists the test sets. *)
Definition sortTestSuiteNames (testSuiteNames : list string) : list string :=
  SliceStable testSuiteLess testSuiteNames.

(** *** Statuses and errors *)

Inductive TestSetStatus :=
| TestSetStatusRunning | TestSetStatusFailed | TestSetStatusPassed
| TestSetStatusAppHalted | TestSetStatusUserAbort
| TestSetStatusFaultUserApp | TestSetStatusInternalErr.

#[global] Instance TestSetStatus_eq_dec : EqDecision TestSetStatus.
Proof. solve_decision. Defined.

(** [models.TestStatus]; a variable of this type starts as the empty string. *)
Inductive TestStatus := TestStatusUnset | TestStatusPassed | TestStatusFailed.

Inductive AppErrorType :=
| ErrCommandError | ErrUnExpected | ErrAppStopped | ErrCtxCanceled
| ErrInternal | ErrOther.

(** A Go error: [context.Canceled] (possibly wrapped) or another one with
    its message. *)
Inductive error := Canceled (msg : string) | Err (msg : string).

Definition Error (e : error) : string :=
  match e with Canceled m => m | Err m => m end.

(** [fmt.Errorf(prefix + ": %w", err)] *)
Definition wrap (prefix : string) (e : error) : error :=
  match e with
  | Canceled m => Canceled (prefix +:+ ": " +:+ m)
  | Err m => Err (prefix +:+ ": " +:+ m)
  end.

(** [errors.Is(err, context.Canceled)] *)
Definition isCanceled (e : error) : bool :=
  match e with Canceled _ => true | Err _ => false end.

(** What the goroutine watching the error sources received first. *)
Inductive Signal :=
| MockErr
| AppErr (k : AppErrorType)
| CtxDone.

(** The value the watcher stores in [testSetStatusByErrChan] before it
    sends on [exitLoopChan]; on [ErrCtxCanceled] it returns without
    sending. *)
Definition statusBySignal (sg : Signal) : option TestSetStatus :=
  match sg with
  | MockErr => Some TestSetStatusFailed
  | AppErr ErrCommandError => Some TestSetStatusFaultUserApp
  | AppErr ErrUnExpected => Some TestSetStatusAppHalted
  | AppErr ErrAppStopped => Some TestSetStatusAppHalted
  | AppErr ErrCtxCanceled => None
  | AppErr ErrInternal => Some TestSetStatusInternalErr
  | AppErr ErrOther => Some TestSetStatusAppHalted
  | CtxDone => Some TestSetStatusUserAbort
  end.

(** *** Test cases, results and reports *)

Record HttpReq {Time : Type} := {
  Req_Method     : string;
  Req_ProtoMajor : Z;
  Req_ProtoMinor : Z;
  Req_URL        : string;
  Req_URLParams  : gmap string string;
  Req_Header     : gmap string string;
  Req_Body       : string;
  Req_Binary     : string;
  Req_Form       : list string;
  Req_Timestamp  : Time
}.

Record HttpResp {Time : Type} := {
  Resp_StatusCode    : Z;
  Resp_Header        : gmap string string;
  Resp_Body          : string;
  Resp_StatusMessage : string;
  Resp_ProtoMajor    : Z;
  Resp_ProtoMinor    : Z;
  Resp_Binary        : string;
  Resp_Timestamp     : Time
}.

Inductive Kind := HTTP | OtherKind (k : string).

Record TestCase {Time : Type} := {
  Name      : string;
  TcKind    : Kind;
  HttpReq_  : @HttpReq Time;
  HttpResp_ : @HttpResp Time;
  Noise     : gmap string (list string)
}.

Record TestResult {Time Result : Type} := {
  TR_Kind         : Kind;
  TR_Name         : string;
  TR_Status       : TestStatus;
  TR_Started      : Z;
  TR_Completed    : Z;
  TR_TestCaseID   : string;
  TR_Req          : @HttpReq Time;
  TR_Res          : @HttpResp Time;
  TR_TestCasePath : string;
  TR_MockPath     : string;
  TR_Noise        : gmap string (list string);
  TR_Result       : Result
}.

Record TestReport {Time Result : Type} := {
  Rep_Version : string;
  Rep_TestSet : string;
  Rep_Status  : TestSetStatus;     (* string(testSetStatus) *)
  Rep_Total   : Z;
  Rep_Success : Z;
  Rep_Failure : Z;
  Rep_Tests   : list (@TestResult Time Result)
}.

Arguments HttpReq : clear implicits.
Arguments HttpResp : clear implicits.
Arguments TestCase : clear implicits.
Arguments TestResult : clear implicits.
Arguments TestReport : clear implicits.

Record TestReportVerdict := {
  total  : Z;
  passed : Z;
  failed : Z
}.

(** The package-level variables of the replayer. *)
Record Globals := {
  completeTestReport : gmap string TestReportVerdict;
  totalTests         : Z;
  totalTestPassed    : Z;
  totalTestFailed    : Z
}.

(** Functions of the package and of [pkg] and [models] that these sources
    use without containing them: the response comparison behind
    [compareResp], [replaceHostToIP] (the new URL and whether it failed),
    [pkg.NewId] and [models.GetVersion]. *)
Class Deps (Time Result : Type) := {
  compareResp     : TestCase Time -> option (HttpResp Time) -> string ->
                    bool * option Result;
  replaceHostToIP : string -> string -> string * bool;
  NewId           : list string -> string;
  GetVersion      : string
}.

(** The configuration fields read. *)
Record Config := {
  isDockerCmd : bool;    (* FindDockerCmd(config.Command) is Docker or DockerCompose *)
  Path        : string
}.

(** A call into a collaborator returns a value or an error. *)
Inductive res (A : Type) := Ok (a : A) | Fail (e : error).
Arguments Ok {A} a.
Arguments Fail {A} e.

Section Replayer.
Context {Time Result : Type} `{Deps Time Result}.
Variable cfg : Config.

(** **** SimulateRequest and one iteration of the test loop *)

(** What the collaborators answer while one test case is handled. *)
Record TcEnv := {
  exitLoop             : option Signal;   (* what the watcher got, when it is
                                             ready to send on exitLoopChan *)
  getFilteredMocks     : option error;
  getUnFilteredMocks   : option error;
  setMocks             : option error;
  getAppIp             : res string;
  simulateHttp         : TestCase Time -> option (HttpResp Time) * option error;
  started              : Z;
  completed            : Z;
  insertTestCaseResult : option error
}.

(** [tc.HttpReq.URL = url] *)
Definition setURL (tc : TestCase Time) (url : string) : TestCase Time :=
  let r := HttpReq_ tc in
  {| Name := Name tc; TcKind := TcKind tc;
     HttpReq_ :=
       {| Req_Method := Req_Method r; Req_ProtoMajor := Req_ProtoMajor r;
          Req_ProtoMinor := Req_ProtoMinor r; Req_URL := url;
          Req_URLParams := Req_URLParams r; Req_Header := Req_Header r;
          Req_Body := Req_Body r; Req_Binary := Req_Binary r;
          Req_Form := Req_Form r; Req_Timestamp := Req_Timestamp r |};
     HttpResp_ := HttpResp_ tc; Noise := Noise tc |}.

(** [SimulateRequest]: the test case (the function writes its URL
    through the pointer), the response and the error. *)
Definition SimulateRequest (e : TcEnv) (tc : TestCase Time)
  : TestCase Time * option (HttpResp Time) * option error :=
  match TcKind tc with
  | HTTP =>
      if isDockerCmd cfg then
        match getAppIp e with
        | Fail err => (tc, None, Some err)
        | Ok userIp =>
            let tc' := setURL tc (fst (replaceHostToIP (Req_URL (HttpReq_ tc)) userIp)) in
            let '(resp, err) := simulateHttp e tc' in (tc', resp, err)
        end
      else
        let '(resp, err) := simulateHttp e tc in (tc, resp, err)
  | OtherKind _ => (tc, None, None)
  end.

(** The variables of [RunTestSet] the loop writes, and the results
    handed to [InsertTestCaseResult], in order. *)
Record Loop := {
  testSetStatus : TestSetStatus;
  success       : Z;
  failure       : Z;
  inserted      : list (TestResult Time Result)
}.

Definition setStatus (st : TestSetStatus) (l : Loop) : Loop :=
  {| testSetStatus := st; success := success l; failure := failure l;
     inserted := inserted l |}.

Definition mkTestCaseResult (testSetId : string) (e : TcEnv)
           (testCase : TestCase Time) (testStatus : TestStatus)
           (testResult : Result) : TestResult Time Result :=
  let q := HttpReq_ testCase in
  let p := HttpResp_ testCase in
  {| TR_Kind := HTTP; TR_Name := testSetId; TR_Status := testStatus;
     TR_Started := started e; TR_Completed := completed e;
     TR_TestCaseID := Name testCase;
     TR_Req :=
       {| Req_Method := Req_Method q; Req_ProtoMajor := Req_ProtoMajor q;
          Req_ProtoMinor := Req_ProtoMinor q; Req_URL := Req_URL q;
          Req_URLParams := Req_URLParams q; Req_Header := Req_Header q;
          Req_Body := Req_Body q; Req_Binary := Req_Binary q;
          Req_Form := Req_Form q; Req_Timestamp := Req_Timestamp q |};
     TR_Res :=
       {| Resp_StatusCode := Resp_StatusCode p; Resp_Header := Resp_Header p;
          Resp_Body := Resp_Body p; Resp_StatusMessage := Resp_StatusMessage p;
          Resp_ProtoMajor := Resp_ProtoMajor p; Resp_ProtoMinor := Resp_ProtoMinor p;
          Resp_Binary := Resp_Binary p; Resp_Timestamp := Resp_Timestamp p |};
     TR_TestCasePath := Path cfg; TR_MockPath := Path cfg;
     TR_Noise := Noise testCase; TR_Result := testResult |}.

(** The [select] on [exitLoopChan] that opens the loop body.  Its
    [break] leaves the [select]; the body goes on. *)
Definition selectExit (e : TcEnv) (l : Loop) : Loop :=
  match exitLoop e with
  | Some sg =>
      match statusBySignal sg with
      | Some testSetStatusByErrChan => setStatus testSetStatusByErrChan l
      | None => l
      end
  | None => l
  end.

(** The loop body for [testCase].  The boolean tells that the body left
    the loop by [break]. *)
Definition iteration (testSetId : string) (e : TcEnv)
           (testCase : TestCase Time) (l : Loop) : bool * Loop :=
  let l := selectExit e l in
  match getFilteredMocks e with
  | Some _ => (true, setStatus TestSetStatusInternalErr l)
  | None =>
  match getUnFilteredMocks e with
  | Some _ => (true, setStatus TestSetStatusInternalErr l)
  | None =>
  match setMocks e with
  | Some _ => (true, setStatus TestSetStatusInternalErr l)
  | None =>
  let '(testCase, resp, err) := SimulateRequest e testCase in
  match err with
  | Some _ => (true, setStatus TestSetStatusUserAbort l)
  | None =>
      let '(testPass, testResult) := compareResp testCase resp testSetId in
      let testStatus := if testPass then TestStatusPassed else TestStatusFailed in
      let l := {| testSetStatus := testSetStatus l;
                  success := if testPass then success l + 1 else success l;
                  failure := if testPass then failure l else failure l + 1;
                  inserted := inserted l |} in
      match testResult with
      | Some r =>
          let testCaseResult := mkTestCaseResult testSetId e testCase testStatus r in
          let l := {| testSetStatus := testSetStatus l; success := success l;
                      failure := failure l;
                      inserted := inserted l ++ [testCaseResult] |} in
          match insertTestCaseResult e with
          | Some _ => (true, setStatus TestSetStatusInternalErr l)
          | None =>
              if negb testPass then (false, setStatus TestSetStatusFailed l)
              else (false, l)
          end
      | None => (true, setStatus TestSetStatusInternalErr l)
      end
  end end end end.

(** [for _, testCase := range testCases]; [envs i] holds the answers for
    the test case at index [i].  The result also tells how many test
    cases the loop entered. *)
Fixpoint testLoop (testSetId : string) (envs : nat -> TcEnv) (i : nat)
         (testCases : list (TestCase Time)) (l : Loop) : bool * nat * Loop :=
  match testCases with
  | [] => (false, i, l)
  | testCase :: rest =>
      let '(brk, l') := iteration testSetId (envs i) testCase l in
      if brk then (true, S i, l')
      else testLoop testSetId envs (S i) rest l'
  end.

(** **** RunTestSet *)

(** The answers of the collaborators during one call of [RunTestSet]. *)
Record Env := {
  getTestCases        : res (list (TestCase Time));
  getFilteredMocks0   : option error;
  getUnFilteredMocks0 : option error;
  setMocks0           : option error;
  insertReport0       : option error;
  tcEnv               : nat -> TcEnv;
  getTestCaseResults  : list (TestResult Time Result) * option error;
  ctxErrIsCanceled    : bool;     (* runTestSetCtx.Err() == context.Canceled *)
  insertReport        : option error;
  errGrpWait          : option error
}.

(** What a call of [RunTestSet] returns and leaves behind: the reports
    handed to [InsertReport] and the results handed to
    [InsertTestCaseResult], both in order, and the package variables. *)
Record Run := {
  status  : TestSetStatus;
  err     : option error;
  reports : list (TestReport Time Result);
  results : list (TestResult Time Result);
  entered : nat;                  (* test cases the loop entered *)
  globals : Globals
}.

Definition returns (st : TestSetStatus) (e : option error)
           (reps : list (TestReport Time Result))
           (rs : list (TestResult Time Result)) (n : nat) (g : Globals) : Run :=
  {| status := st; err := e; reports := reps; results := rs;
     entered := n; globals := g |}.

Definition len {A} (l : list A) : Z := Z.of_nat (length l).

(** [RunTestSet].  The application and the goroutine that watches the
    error sources act on the loop through [exitLoopChan] only: what they
    deliver is the field [exitLoop] of the answers for a test case.  The
    check of [err] after [MockOutgoing] tests the error of [SetMocks] once
    more, which is nil there, and is left out. *)
Definition RunTestSet (env : Env) (testSetId : string) (g : Globals) : Run :=
  match getTestCases env with
  | Fail e =>
      returns TestSetStatusFailed (Some (wrap "failed to get test cases" e)) [] [] 0 g
  | Ok testCases =>
  if len testCases =? 0 then returns TestSetStatusPassed None [] [] 0 g else
  match getFilteredMocks0 env with
  | Some e =>
      returns TestSetStatusFailed (Some (wrap "failed to get filtered mocks" e)) [] [] 0 g
  | None =>
  match getUnFilteredMocks0 env with
  | Some e =>
      returns TestSetStatusFailed (Some (wrap "failed to get unfiltered mocks" e)) [] [] 0 g
  | None =>
  match setMocks0 env with
  | Some e =>
      returns TestSetStatusFailed (Some (wrap "failed to set mocks" e)) [] [] 0 g
  | None =>
  let testReport0 :=
    {| Rep_Version := GetVersion; Rep_TestSet := "";
       Rep_Status := TestSetStatusRunning; Rep_Total := len testCases;
       Rep_Success := 0; Rep_Failure := 0; Rep_Tests := [] |} in
  match insertReport0 env with
  | Some e =>
      returns TestSetStatusFailed (Some (wrap "failed to insert report" e))
              [testReport0] [] 0 g
  | None =>
  let '(_, n, l) :=
    testLoop testSetId (tcEnv env) 0 testCases
      {| testSetStatus := TestSetStatusPassed; success := 0; failure := 0;
         inserted := [] |} in
  let '(testCaseResults, e) := getTestCaseResults env in
  let testSetStatus :=
    match e with
    | Some _ =>
        if negb (ctxErrIsCanceled env) then TestSetStatusInternalErr
        else testSetStatus l
    | None => testSetStatus l
    end in
  let testReport :=
    {| Rep_Version := GetVersion; Rep_TestSet := testSetId;
       Rep_Status := testSetStatus; Rep_Total := len testCases;
       Rep_Success := success l; Rep_Failure := failure l;
       Rep_Tests := testCaseResults |} in
  let reps := [testReport0; testReport] in
  match insertReport env with
  | Some _ =>
      returns TestSetStatusInternalErr (Some (Err "failed to insert report"))
              reps (inserted l) n g
  | None =>
      let verdict := {| total := Rep_Total testReport;
                        failed := Rep_Failure testReport;
                        passed := Rep_Success testReport |} in
      let g' := {| completeTestReport := <[testSetId := verdict]> (completeTestReport g);
                   totalTests := totalTests g + Rep_Total testReport;
                   totalTestPassed := totalTestPassed g + Rep_Success testReport;
                   totalTestFailed := totalTestFailed g + Rep_Failure testReport |} in
      match errGrpWait env with
      | Some _ =>
          returns TestSetStatusInternalErr (Some (Err "error in runTestSetErrGrp"))
                  reps (inserted l) n g'
      | None => returns testSetStatus None reps (inserted l) n g'
      end
  end end end end end end.

(** The report of the test set: the one handed to the last
    [InsertReport]. *)
Definition finalReport (r : Run) : option (TestReport Time Result) :=
  last (reports r).

(** **** Start *)

Record StartEnv := {
  getAllTestRunIds : res (list string);
  setup            : res Z;
  ctxDoneAtHook    : bool;
  hook             : option error;
  getAllTestSetIds : res (list string);
  runEnv           : nat -> Env;        (* answers during the i-th RunTestSet *)
  rangeOrder       : list string;       (* decides the order in which
                                           [range] yields the keys of
                                           completeTestReport *)
  ctxDoneAtExit    : bool;
  logger           : Ctx.Logger
}.

Definition BootReplay (e : StartEnv) : res (string * Z) :=
  match getAllTestRunIds e with
  | Fail err =>
      if isCanceled err then Fail err
      else Fail (wrap "failed to get all test run ids" err)
  | Ok testRunIds =>
      let newTestRunId := NewId testRunIds in
      match setup e with
      | Fail err =>
          if isCanceled err then Fail err
          else Fail (wrap "failed to setup instrumentation" err)
      | Ok appId =>
          if ctxDoneAtHook e then Fail (Canceled "context canceled")
          else
            match hook e with
            | Some err =>
                if isCanceled err then Fail err
                else Fail (wrap "failed to start the hooks and proxy" err)
            | None => Ok (newTestRunId, appId)
            end
      end
  end.

(** [for testSuiteName := range completeTestReport]: the keys of the map,
    each once.  Go leaves the order of [range] over a map open; [order]
    chooses it: the keys named in [order] come first, in that order, then
    the remaining keys.  Every order of the keys is obtained from some
    [order] (itself), and nothing but keys of the map is ever yielded. *)
Definition rangeKeys {V : Type} (order : list string) (m : gmap string V)
  : list string :=
  filter (fun k => is_Some (m !! k)) (remove_dups order)
  ++ filter (fun k => k ∉ order) (map_to_list m).*1.

(** [printSummary]: nothing when no test ran; otherwise the rows of the
    table in the order printed and the verdict logged as "passed
    overall".  [order] decides the order in which [range] yields the keys
    of [completeTestReport]. *)
Definition printSummary (order : list string) (g : Globals)
           (testRunResult : bool)
  : option (list (string * TestReportVerdict) * bool) :=
  if 0 <? totalTests g then
    let testSuiteNames := rangeKeys order (completeTestReport g) in
    let zero := {| total := 0; passed := 0; failed := 0 |} in
    Some (map (fun n => (n, default zero (completeTestReport g !! n)))
              (sortTestSuiteNames testSuiteNames),
          testRunResult)
  else None.

(** How the loop over the test sets ends. *)
Inductive LoopEnd :=
| Returned (ret : option error) (stopReason : string)
| Finished (abortTestRun testRunResult : bool).

(** [for _, testSetId := range testSetIds], with the statuses the calls
    of [RunTestSet] returned, in order. *)
Fixpoint testSetLoop (envs : nat -> Env) (i : nat) (testSetIds : list string)
         (testSetResult testRunResult : bool) (g : Globals)
         (executed : list TestSetStatus)
  : LoopEnd * Globals * list TestSetStatus :=
  match testSetIds with
  | [] => (Finished false testRunResult, g, executed)
  | testSetId :: rest =>
      let r := RunTestSet (envs i) testSetId g in
      let executed := executed ++ [status r] in
      match err r with
      | Some e =>
          let stopReason := "failed to run test set: " +:+ Error e in
          (Returned (Some (Err stopReason)) stopReason, globals r, executed)
      | None =>
          match status r with
          | TestSetStatusUserAbort => (Returned None "", globals r, executed)
          | st =>
              let testSetResult :=
                match st with
                | TestSetStatusAppHalted | TestSetStatusInternalErr
                | TestSetStatusFaultUserApp | TestSetStatusFailed => false
                | TestSetStatusPassed => true
                | _ => testSetResult
                end in
              let abortTestRun :=
                match st with
                | TestSetStatusAppHalted | TestSetStatusInternalErr
                | TestSetStatusFaultUserApp => true
                | _ => false
                end in
              let testRunResult := testRunResult && testSetResult in
              if abortTestRun then (Finished true testRunResult, globals r, executed)
              else testSetLoop envs (S i) rest testSetResult testRunResult
                     (globals r) executed
          end
      end
  end.

Record Started := {
  ret         : option error;                 (* what Start returns *)
  statuses    : list TestSetStatus;           (* of the test sets run *)
  summaryArg  : option bool;                  (* printSummary's testRunResult *)
  summary     : option (list (string * TestReportVerdict) * bool);
  ctxState    : Ctx.State;
  finalGlobals : Globals
}.

(** The deferred function: stop keploy unless the context is done. *)
Definition deferredStop (e : StartEnv) (stopReason : string) (c : Ctx.State)
  : Ctx.State :=
  if ctxDoneAtExit e then c
  else snd (Ctx.Stop (logger e) stopReason c).

Definition Start (e : StartEnv) (g : Globals) (c : Ctx.State) : Started :=
  match BootReplay e with
  | Fail err =>
      let stopReason := "failed to boot replay: " +:+ Error err in
      {| ret := Some (Err stopReason); statuses := []; summaryArg := None;
         summary := None; ctxState := deferredStop e stopReason c;
         finalGlobals := g |}
  | Ok (testRunId, appId) =>
      match getAllTestSetIds e with
      | Fail err =>
          let stopReason := "failed to get all test set ids: " +:+ Error err in
          {| ret := Some (Err stopReason); statuses := []; summaryArg := None;
             summary := None; ctxState := deferredStop e stopReason c;
             finalGlobals := g |}
      | Ok testSetIds =>
          let '(fin, g', executed) :=
            testSetLoop (runEnv e) 0 testSetIds false true g [] in
          match fin with
          | Returned r stopReason =>
              {| ret := r; statuses := executed; summaryArg := None;
                 summary := None; ctxState := deferredStop e stopReason c;
                 finalGlobals := g' |}
          | Finished abortTestRun testRunResult =>
              {| ret := None; statuses := executed;
                 summaryArg := if abortTestRun then None else Some testRunResult;
                 summary := if abortTestRun then None
                            else printSummary (rangeOrder e) g' testRunResult;
                 ctxState := deferredStop e "" c;
                 finalGlobals := g' |}
          end
      end
  end.

(** **** ProvideMocks *)

(** [ProvideMocks]: the error returned and the state of the stop function.
    [e] serves [BootReplay], the logger and the deferred function; the other
    arguments are the answers of [GetFilteredMocks], [GetUnFilteredMocks]
    and [SetMocks].  When every step succeeds the function waits on
    [ctx.Done()]: it returns once the context is done, and the deferred
    function then does not stop keploy. *)
Definition ProvideMocks (e : StartEnv)
           (getFiltered getUnFiltered setMocksErr : option error)
           (c : Ctx.State) : option error * Ctx.State :=
  let fails (stopReason : string) :=
    (Some (Err stopReason), deferredStop e stopReason c) in
  match getFiltered with
  | Some _ => fails "failed to get filtered mocks"%string
  | None =>
      match getUnFiltered with
      | Some _ => fails "failed to get unfiltered mocks"%string
      | None =>
          match BootReplay e with
          | Fail _ => fails "failed to boot replay"%string
          | Ok (_, appId) =>
              match setMocksErr with
              | Some _ => fails "failed to set mocks"%string
              | None => (None, c)
              end
          end
      end
  end.

(** **** Notions used to state properties of the test loop *)

(** Handling [tc] with the answers [e] meets no error and the comparison
    passes with a result. *)
Definition passes (testSetId : string) (e : TcEnv) (tc : TestCase Time) : Prop :=
  getFilteredMocks e = None /\ getUnFilteredMocks e = None /\
  setMocks e = None /\ insertTestCaseResult e = None /\
  exists tc' resp res,
    SimulateRequest e tc = (tc', resp, None) /\
    compareResp tc' resp testSetId = (true, Some res).

(** The status after the [select]s of [n] iterations from index [i] on,
    starting from [st]: that of the last signal delivered, if any. *)
Fixpoint signalled (envs : nat -> TcEnv) (i n : nat) (st : TestSetStatus)
  : TestSetStatus :=
  match n with
  | O => st
  | S n' =>
      signalled envs (S i) n'
        (match exitLoop (envs i) with
         | Some sg => match statusBySignal sg with Some st' => st' | None => st end
         | None => st
         end)
  end.

End Replayer.

(** The totals of the summary add up: no more tests passed and failed than
    were counted, for the run and for each test set. *)
Definition consistent (g : Globals) : Prop :=
  0 <= totalTestPassed g /\ 0 <= totalTestFailed g /\
  totalTestPassed g + totalTestFailed g <= totalTests g /\
  map_Forall (fun _ v => 0 <= passed v /\ 0 <= failed v /\ passed v + failed v <= total v)
             (completeTestReport g).

(** Every test set of a run ended "passed". *)
Definition allPassed (sts : list TestSetStatus) : Prop :=
  Forall (fun st => st = TestSetStatusPassed) sts.

(** No test set of a run ended with a status at which [Start] leaves the
    loop: each ended "passed" or "failed". *)
Definition noneAborted (sts : list TestSetStatus) : Prop :=
  Forall (fun st => st = TestSetStatusPassed \/ st = TestSetStatusFailed) sts.

Arguments TcEnv : clear implicits.
Arguments Loop : clear implicits.
Arguments Env : clear implicits.
Arguments Run : clear implicits.
Arguments StartEnv : clear implicits.

End Replay.

(* ===================================================================== *)
(** ** Concrete collaborators, to run the functions on examples *)
(* ===================================================================== *)

Module Examples.

(** A mongo driver whose heartbeat is any request of the operation named
    "hello"; operations are known by their printed form. *)
#[global] Instance mongoDeps : Mongo.Deps string := {|
  Mongo.isHeartBeat op _ _ := String.eqb op "hello";
  Mongo.OpString op := op;
  Mongo.GetVersion := "api.keploy.io/v1beta1"
|}.

Definition helloQuery : Mongo.MongoRequest :=
  {| Mongo.Header := {| Mongo.Opcode := Mongo.OpQuery |};
     Mongo.ReqMessage := Mongo.MongoOpQuery "{hello:true}" |}.

(** A tracker that holds what [IsComplete] reports and whether it has been
    idle for longer than any threshold. *)
Record Tracker := {
  complete  : bool;
  reqBuf    : list byte;
  respBuf   : list byte;
  reqTs     : Z;
  resTs     : Z;
  idle      : bool
}.

Fixpoint startsWith (p b : list byte) : bool :=
  match p, b with
  | [], _ => true
  | x :: p', y :: b' => Byte.eqb x y && startsWith p' b'
  | _ :: _, [] => false
  end.

(** A parser that accepts a request starting with "GET " and a response
    starting with "HTTP", and keeps the rest as the body. *)
#[global] Instance connDeps : Conn.Deps Tracker Z := {|
  Conn.IsComplete t := (t, (complete t, reqBuf t, respBuf t, reqTs t, resTs t));
  Conn.IsInactive t _ := idle t;
  Conn.ParseHTTPRequest b :=
    if startsWith [x47; x45; x54; x20]%byte b then
      Some {| Conn.Method := "GET"; Conn.ProtoMajor := 1; Conn.ProtoMinor := 1;
              Conn.Host := "x"; Conn.RequestURI := "/hello";
              Conn.ReqHeader := ∅; Conn.ReqBody := Some ""%string |}
    else None;
  Conn.ParseHTTPResponse b _ :=
    if startsWith [x48; x54; x54; x50]%byte b then
      Some {| Conn.StatusCode := 200; Conn.RespHeader := ∅;
              Conn.RespBody := Some "hello"%string |}
    else None;
  Conn.ToYamlHttpHeader _ := ∅;
  Conn.UrlParams _ := ∅;
  Conn.GetVersion := "api.keploy.io/v1beta1"
|}.

(** A complete exchange, a complete one that is not HTTP, and an idle
    connection with three request bytes. *)
Definition exchange : Tracker :=
  {| complete := true;
     reqBuf := [x47; x45; x54; x20; x2f]%byte;
     respBuf := [x48; x54; x54; x50; x2f]%byte;
     reqTs := 100; resTs := 200; idle := false |}.

Definition garbled : Tracker :=
  {| complete := true;
     reqBuf := [x00; x01]%byte; respBuf := [x02]%byte;
     reqTs := 300; resTs := 400; idle := false |}.

Definition stale : Tracker :=
  {| complete := false;
     reqBuf := [x47; x45; x54]%byte; respBuf := [];
     reqTs := 10; resTs := 0; idle := true |}.

Definition registry : gmap nat Tracker :=
  <[1%nat := exchange]> (<[2%nat := garbled]> (<[3%nat := stale]> ∅)).

Definition factory : Conn.Factory nat Tracker :=
  {| Conn.connections := registry; Conn.inactivityThreshold := 5 |}.

Definition never : nat -> bool := fun _ => false.

Definition at7 : nat -> Z := fun _ => 7.

(** The test case captured from [exchange] at time 7. *)
Definition helloCase : Conn.TestCase Z :=
  {| Conn.Version := "api.keploy.io/v1beta1";
     Conn.Name := "";
     Conn.Kind := "Http";
     Conn.Created := 7;
     Conn.HttpReq_ :=
       {| Conn.Req_Method := "GET"; Conn.Req_ProtoMajor := 1;
          Conn.Req_ProtoMinor := 1; Conn.Req_URL := "http://x/hello";
          Conn.Req_Header := ∅; Conn.Req_Body := "";
          Conn.Req_URLParams := ∅; Conn.Req_Timestamp := 100 |};
     Conn.HttpResp_ :=
       {| Conn.Resp_StatusCode := 200; Conn.Resp_Header := ∅;
          Conn.Resp_Body := "hello"; Conn.Resp_Timestamp := 200 |};
     Conn.Noise := ∅ |}.

(** A comparison by status code and body; without a response there is
    no result. *)
#[global] Instance replayDeps : Replay.Deps Z string := {|
  Replay.compareResp tc resp _ :=
    match resp with
    | Some r =>
        let pass :=
          (Replay.Resp_StatusCode r =? Replay.Resp_StatusCode (Replay.HttpResp_ tc))
          && String.eqb (Replay.Resp_Body r) (Replay.Resp_Body (Replay.HttpResp_ tc)) in
        (pass, Some (if pass then "same" else "differs")%string)
    | None => (false, None)
    end;
  Replay.replaceHostToIP url ip := (url, false);
  Replay.NewId _ := "test-run-0";
  Replay.GetVersion := "api.keploy.io/v1beta1"
|}.

Definition config : Replay.Config :=
  {| Replay.isDockerCmd := false; Replay.Path := "keploy" |}.

Definition response (code : Z) (body : string) (ts : Z) : Replay.HttpResp Z :=
  {| Replay.Resp_StatusCode := code; Replay.Resp_Header := ∅;
     Replay.Resp_Body := body; Replay.Resp_StatusMessage := "";
     Replay.Resp_ProtoMajor := 1; Replay.Resp_ProtoMinor := 1;
     Replay.Resp_Binary := ""; Replay.Resp_Timestamp := ts |}.

(** GET /hello recorded with the answer 200 "hello". *)
Definition getHello (name : string) : Replay.TestCase Z :=
  {| Replay.Name := name; Replay.TcKind := Replay.HTTP;
     Replay.HttpReq_ :=
       {| Replay.Req_Method := "GET"; Replay.Req_ProtoMajor := 1;
          Replay.Req_ProtoMinor := 1; Replay.Req_URL := "http://x/hello";
          Replay.Req_URLParams := ∅; Replay.Req_Header := ∅;
          Replay.Req_Body := ""; Replay.Req_Binary := ""; Replay.Req_Form := [];
          Replay.Req_Timestamp := 100 |};
     Replay.HttpResp_ := response 200 "hello" 200;
     Replay.Noise := ∅ |}.

(** The application answers [resp]; every collaborator succeeds. *)
Definition answers (resp : Replay.HttpResp Z) : Replay.TcEnv Z :=
  {| Replay.exitLoop := None;
     Replay.getFilteredMocks := None; Replay.getUnFilteredMocks := None;
     Replay.setMocks := None; Replay.getAppIp := Replay.Ok "172.17.0.2"%string;
     Replay.simulateHttp := fun _ => (Some resp, None);
     Replay.started := 1000; Replay.completed := 1001;
     Replay.insertTestCaseResult := None |}.

(** The request cannot be delivered. *)
Definition refused : Replay.TcEnv Z :=
  {| Replay.exitLoop := None;
     Replay.getFilteredMocks := None; Replay.getUnFilteredMocks := None;
     Replay.setMocks := None; Replay.getAppIp := Replay.Ok "172.17.0.2"%string;
     Replay.simulateHttp := fun _ => (None, Some (Replay.Err "connection refused"));
     Replay.started := 1000; Replay.completed := 1001;
     Replay.insertTestCaseResult := None |}.

(** A test set of the given test cases in which every collaborator
    succeeds and the application answers as [steps] tells. *)
Definition testSet (tcs : list (Replay.TestCase Z))
           (steps : nat -> Replay.TcEnv Z)
           (fetched : list (Replay.TestResult Z string) * option Replay.error)
  : Replay.Env Z string :=
  {| Replay.getTestCases := Replay.Ok tcs;
     Replay.getFilteredMocks0 := None; Replay.getUnFilteredMocks0 := None;
     Replay.setMocks0 := None; Replay.insertReport0 := None;
     Replay.tcEnv := steps;
     Replay.getTestCaseResults := fetched;
     Replay.ctxErrIsCanceled := false;
     Replay.insertReport := None; Replay.errGrpWait := None |}.

(** One test case whose request is refused; fetching the results then
    finds nothing stored. *)
Definition refusedSet : Replay.Env Z string :=
  testSet [getHello "test-1"] (fun _ => refused)
          ([], Some (Replay.Err "found no test results")).

(** One test case answered with another body than the recorded one. *)
Definition differingSet : Replay.Env Z string :=
  testSet [getHello "test-1"] (fun _ => answers (response 200 "bye" 0)) ([], None).

Definition noGlobals : Replay.Globals :=
  {| Replay.completeTestReport := ∅; Replay.totalTests := 0;
     Replay.totalTestPassed := 0; Replay.totalTestFailed := 0 |}.

Definition loopStart : Replay.Loop Z string :=
  {| Replay.testSetStatus := Replay.TestSetStatusPassed; Replay.success := 0;
     Replay.failure := 0; Replay.inserted := [] |}.

(** A run of the one test set test-set-0, served by [env]. *)
Definition oneSet (env : Replay.Env Z string)
  : Replay.StartEnv Z string :=
  {| Replay.getAllTestRunIds := Replay.Ok [];
     Replay.setup := Replay.Ok 1;
     Replay.ctxDoneAtHook := false;
     Replay.hook := None;
     Replay.getAllTestSetIds := Replay.Ok ["test-set-0"%string];
     Replay.runEnv := fun _ => env;
     Replay.rangeOrder := ["test-set-0"%string];
     Replay.ctxDoneAtExit := false;
     Replay.logger := Ctx.SomeLogger |}.

Definition ctxStart : Ctx.State :=
  {| Ctx.cancel := Some 0%nat; Ctx.cancelCalls := []; Ctx.logOut := [] |}.

End Examples.


(** The number [testSuiteLess] orders a name by: the third of its
    dash-separated pieces read by [Atoi], when the name has three pieces. *)
Module SummaryOrder.

Definition idNumber (name : string) : option Z :=
  if Z.of_nat (length (Replay.Split name)) <? 3 then None
  else Replay.Atoi (nth 2 (Replay.Split name) EmptyString).

Definition numbered (name : string) : Prop := is_Some (idNumber name).

Definition idOf (name : string) : Z := default 0 (idNumber name).

Definition byNumber (a b : string) : Prop := idOf a <= idOf b.

End SummaryOrder.

(* ===================================================================== *)
(** ** package test: Contains, checkKey, MatchesAnyRegex, CompareHeaders *)
(* ===================================================================== *)

Module Compare.

(** [regexp.MustCompile(pattern).MatchString(str)]: [None] for a pattern
    that does not compile, on which [MustCompile] panics. *)
Class Regexp := { MatchString : string -> string -> option bool }.

Fixpoint Contains (elems : list string) (v : string) : bool :=
  match elems with
  | [] => false
  | s :: rest => if String.eqb v s then true else Contains rest v
  end.

Fixpoint MatchesAnyRegex `{Regexp} (str : string) (regexArray : list string)
  : option bool :=
  match regexArray with
  | [] => Some false
  | pattern :: rest =>
      match MatchString pattern str with
      | None => None
      | Some true => Some true
      | Some false => MatchesAnyRegex str rest
      end
  end.

(** [models.Header] and [models.HeaderResult]; a nil [Value] is the empty
    list. *)
Record Header := { Key : string; Value : list string }.

Record HeaderResult := {
  Normal   : bool;
  Expected : Header;
  Actual   : Header
}.

Fixpoint checkKey (res : list HeaderResult) (key : string) : bool :=
  match res with
  | [] => true
  | v :: rest => if String.eqb key (Key (Expected v)) then false else checkKey rest key
  end.

(** [http.Header] and the noise: Go maps from strings to slices of strings. *)
Abbreviation HttpHeader := (gmap string (list string)).

(** Append the record [r] to the slice behind [res] if [checkKey] allows. *)
Definition record (res : list HeaderResult) (k : string) (r : HeaderResult)
  : list HeaderResult :=
  if checkKey res k then res ++ [r] else res.

Section CompareHeaders.
Context `{Regexp}.

(** The three statements that compute [isNoisy] for the key [k] with the
    value [v]; [v[0]] panics on an empty value. *)
Definition noisy (noise : HttpHeader) (isHeaderNoisy : bool) (k : string)
           (v : list string) : option bool :=
  match noise !! k with
  | Some patterns =>
      if negb (Z.of_nat (length patterns) =? 0) then
        match v with
        | [] => None
        | v0 :: _ =>
            match MatchesAnyRegex v0 patterns with
            | Some isNoisy => Some (isNoisy || isHeaderNoisy)
            | None => None
            end
        end
      else Some (true || isHeaderNoisy)
  | None => Some (false || isHeaderNoisy)
  end.

(** [for i, e := range v { if val[i] != e { ... } }], entered with the two
    values of equal length; [vs] and [vals] are what is left of them. *)
Fixpoint elements (k : string) (v val : list string) (vs vals : list string)
         (st : list HeaderResult * bool) : list HeaderResult * bool :=
  match vs, vals with
  | e :: vs', e' :: vals' =>
      elements k v val vs' vals'
        (if negb (String.eqb e' e) then
           (record (fst st) k
              {| Normal := false; Expected := {| Key := k; Value := v |};
                 Actual := {| Key := k; Value := val |} |}, false)
         else st)
  | _, _ => st
  end.

(** The body of the loop over [h1]. *)
Definition expected (h2 noise : HttpHeader) (isHeaderNoisy : bool)
           (k : string) (v : list string) (st : list HeaderResult * bool)
  : option (list HeaderResult * bool) :=
  match noisy noise isHeaderNoisy k v with
  | None => None
  | Some isNoisy =>
      let ok := bool_decide (is_Some (h2 !! k)) in
      let val := default [] (h2 !! k) in
      let normal (st : list HeaderResult * bool) :=
        (record (fst st) k
           {| Normal := true; Expected := {| Key := k; Value := v |};
              Actual := {| Key := k; Value := val |} |}, snd st) in
      if negb isNoisy then
        if negb ok then
          Some (record (fst st) k
                  {| Normal := false; Expected := {| Key := k; Value := v |};
                     Actual := {| Key := k; Value := [] |} |}, false)
        else if negb (Z.of_nat (length v) =? Z.of_nat (length val)) then
          Some (record (fst st) k
                  {| Normal := false; Expected := {| Key := k; Value := v |};
                     Actual := {| Key := k; Value := val |} |}, false)
        else Some (normal (elements k v val v val st))
      else Some (normal st)
  end.

(** The body of the loop over [h2]. *)
Definition actual (h1 noise : HttpHeader) (isHeaderNoisy : bool)
           (k : string) (v : list string) (st : list HeaderResult * bool)
  : option (list HeaderResult * bool) :=
  match noisy noise isHeaderNoisy k v with
  | None => None
  | Some isNoisy =>
      let ok := bool_decide (is_Some (h1 !! k)) in
      let val := default [] (h1 !! k) in
      if isNoisy && checkKey (fst st) k then
        Some (fst st ++
                [{| Normal := true; Expected := {| Key := k; Value := val |};
                    Actual := {| Key := k; Value := v |} |}], snd st)
      else if negb ok then
        Some (record (fst st) k
                {| Normal := false; Expected := {| Key := k; Value := [] |};
                   Actual := {| Key := k; Value := v |} |}, false)
      else Some st
  end.

(** [for k, v := range h { body }]: [order] is the order in which the
    runtime yields the keys of [h]. *)
Fixpoint rangeHeader (body : string -> list string -> list HeaderResult * bool ->
                             option (list HeaderResult * bool))
         (h : HttpHeader) (order : list string) (st : list HeaderResult * bool)
  : option (list HeaderResult * bool) :=
  match order with
  | [] => Some st
  | k :: rest =>
      match h !! k with
      | None => rangeHeader body h rest st
      | Some v =>
          match body k v st with
          | Some st' => rangeHeader body h rest st'
          | None => None
          end
      end
  end.

(** [CompareHeaders]: [res] is the slice behind the pointer, or [None] for
    a nil pointer; the result is the boolean returned and the slice
    afterwards, or [None] when the function panics. *)
Definition CompareHeaders (order1 order2 : list string) (h1 h2 : HttpHeader)
           (res : option (list HeaderResult)) (noise : HttpHeader)
  : option (bool * option (list HeaderResult)) :=
  match res with
  | None => Some (false, None)
  | Some res =>
      let isHeaderNoisy := bool_decide (is_Some (noise !! "header"%string)) in
      match rangeHeader (expected h2 noise isHeaderNoisy) h1 order1 (res, true) with
      | None => None
      | Some st =>
          match rangeHeader (actual h1 noise isHeaderNoisy) h2 order2 st with
          | None => None
          | Some (res', match_) => Some (match_, Some res')
          end
      end
  end.

End CompareHeaders.

(** [order] is an iteration order of the map: every key once. *)
Definition iterates (order : list string) (h : HttpHeader) : Prop :=
  NoDup order /\ forall k, k ∈ order <-> is_Some (h !! k).

(** The keys the records of a result slice stand for. *)
Definition keys (res : list HeaderResult) : list string :=
  map (fun r => Key (Expected r)) res.

(** The way a loop body handling the key [k] may change the slice: it only
    appends records, for that key, and keeps the keys distinct. *)
Definition grows (k : string) (res res' : list HeaderResult) : Prop :=
  (exists more, res' = res ++ more) /\
  (NoDup (keys res) -> NoDup (keys res')) /\
  (forall k', k' ∈ keys res' -> k' ∈ keys res \/ k' = k).

End Compare.

(* ===================================================================== *)
(** ** package test: Flatten, AddHttpBodyToMap, FlattenHttpResponse *)
(* ===================================================================== *)

Module Flat.

(** [strconv.FormatFloat(f, 'E', -1, 64)] on the program's [float64]. *)
Class Strconv (float64 : Type) := { FormatFloat : float64 -> string }.

(** [strconv.FormatBool]. *)
Definition FormatBool (b : bool) : string := if b then "true" else "false".

(** The flattened form: a Go [map[string][]string]. *)
Abbreviation Flattened := (gmap string (list string)).

(** [for k, v := range nm { o = body o k v }] over a map, in the order
    [map_to_list] enumerates it.  The bodies used below write to a key of
    their own for each [k], so that any other order gives the same result
    ([range_keyed_any_order], [range_sliceStep_any_order]). *)
Definition range {A} (body : A -> string -> list string -> A)
           (nm : Flattened) (o : A) : A :=
  foldl (fun o kv => body o kv.1 kv.2) o (map_to_list nm).

(** The key [fk] built in the [reflect.Map] case, and [nk] in
    [AddHttpBodyToMap] with [k := "body"]. *)
Definition joined (k nk : string) : string :=
  let fk := k in
  if negb (String.eqb nk "") then fk +:+ "." +:+ nk else fk.

(** Body of the loop in the [reflect.Map] case for the key [k]. *)
Definition mapStep (k : string) (o : Flattened) (nk : string) (nv : list string)
  : Flattened :=
  let fk := joined k nk in
  <[fk := nv]> o.

(** Body of the loop in the [reflect.Slice] case. *)
Definition sliceStep (o : Flattened) (nk : string) (nv : list string)
  : Flattened :=
  match o !! nk with
  | Some ov => <[nk := ov ++ nv]> o
  | None => <[nk := nv]> o
  end.

(** Body of the loop in [AddHttpBodyToMap]. *)
Definition bodyStep (m : Flattened) (k : string) (v : list string) : Flattened :=
  let nk := joined "body" k in
  <[nk := v]> m.

(** Body of the loop in [FlattenHttpResponse]; [strings.Join(v, "")]. *)
Definition headerStep (m : Flattened) (k : string) (v : list string) : Flattened :=
  <["header." +:+ k := [String.concat "" v]]> m.

(** No ['.'] in a key. *)
Fixpoint dotless (k : string) : bool :=
  match k with
  | EmptyString => true
  | String a rest => negb (Ascii.eqb a ".") && dotless rest
  end.

Section Flatten.
Context {float64 : Type} `{Strconv float64}.

#[local] Unset Elimination Schemes.

(** The argument of [Flatten], an [interface{}], by [reflect] kind.  A JSON
    object holds its entries in the order [range] visits them.  [OtherMap]
    and [OtherSlice] are maps and slices of another type than
    [map[string]interface{}] and [[]interface{}]; [Other] is a value of any
    other kind. *)
Inductive Value :=
| Nil
| Bool (b : bool)
| Float64 (f : float64)
| Str (s : string)
| Slice (child : list Value)
| Map (m : list (string * Value))
| OtherMap
| OtherSlice
| Other.
#[local] Set Elimination Schemes.

(** [Flatten] returns the flattened map together with the values it printed
    as invalid. *)
Fixpoint Flatten (j : Value) : Flattened * list Value :=
  match j with
  | Nil => ({[ ""%string := [""%string] ]}, [])
  | Map m =>
      foldl (fun acc kv =>
               let nm := Flatten kv.2 in
               (range (mapStep kv.1) nm.1 acc.1, acc.2 ++ nm.2))
            (∅, []) m
  | Bool b => ({[ ""%string := [FormatBool b] ]}, [])
  | Float64 f => ({[ ""%string := [FormatFloat f] ]}, [])
  | Str s => ({[ ""%string := [s] ]}, [])
  | Slice child =>
      foldl (fun acc av =>
               let nm := Flatten av in
               (range sliceStep nm.1 acc.1, acc.2 ++ nm.2))
            (∅, []) child
  | OtherMap | OtherSlice => (∅, [])
  | Other => (∅, [j])
  end.

(** [encoding/json]: [json.Valid] and [json.Unmarshal] into an
    [interface{}]. *)
Class Json := {
  error : Type;
  Valid : string -> bool;
  Unmarshal : string -> error + Value
}.

Context `{Json}.

(** [AddHttpBodyToMap] writes into the map [m] it is given; the result is the
    map afterwards, what [Flatten] printed, and the error. *)
Definition AddHttpBodyToMap (body : string) (m : Flattened)
  : Flattened * list Value * option error :=
  if Valid body then
    match Unmarshal body with
    | inl err => (m, [], Some err)
    | inr result =>
        let j := Flatten result in
        (range bodyStep j.1 m, j.2, None)
    end
  else (<["body"%string := [body]]> m, [], None).

Definition FlattenHttpResponse (h : gmap string (list string)) (body : string)
  : Flattened * list Value * option error :=
  let m := range headerStep h ∅ in
  AddHttpBodyToMap body m.

End Flatten.

Arguments Value : clear implicits.
Arguments Json : clear implicits.

(** JSON documents without numbers. *)
#[global] Instance noFloats : Strconv Empty_set :=
  {| FormatFloat := fun f : Empty_set => match f with end |}.

(** A JSON object with a nested object and an array. *)
Definition address : Value Empty_set :=
  Map [("street"%string, Str "Main St"); ("city"%string, Str "Pune")].

Definition profile : list (string * Value Empty_set) :=
  [("name"%string, Str "keploy");
   ("tags"%string, Slice [Str "a"; Str "b"]);
   ("address"%string, address);
   ("active"%string, Bool true)].

End Flat.

(* ===================================================================== *)
(** * Properties *)
(* ===================================================================== *)

(** ** utils/ctx.go *)

Lemma Stop_nil_logger reason s :
  Ctx.Stop Ctx.NilLogger reason s = (Some "logger is not set"%string, s).
Proof. reflexivity. Qed.

Lemma Stop_calls_cancel c reason s :
  Ctx.cancel s = Some c -> reason <> ""%string ->
  fst (Ctx.Stop Ctx.SomeLogger reason s) = None /\
  Ctx.cancelCalls (snd (Ctx.Stop Ctx.SomeLogger reason s)) = c :: Ctx.cancelCalls s.
Proof.
  intros Hc Hr. unfold Ctx.Stop. rewrite Hc.
  destruct (String.eqb_spec reason "") as [E | _]; [contradiction | now split].
Qed.

(** C7. [Stop] returns an error exactly when the logger is nil, no cancel
    function has been set, or the reason is empty; then no cancel function
    is invoked.  Otherwise it returns nil and has invoked the cancel
    function that was set, once. *)
Theorem Stop_error_iff (logger : Ctx.Logger) (reason : string) (s : Ctx.State) :
  (fst (Ctx.Stop logger reason s) <> None <->
     logger = Ctx.NilLogger \/ Ctx.cancel s = None \/ reason = ""%string) /\
  (fst (Ctx.Stop logger reason s) <> None ->
     Ctx.cancelCalls (snd (Ctx.Stop logger reason s)) = Ctx.cancelCalls s) /\
  (fst (Ctx.Stop logger reason s) = None ->
     exists c, Ctx.cancel s = Some c /\
       Ctx.cancelCalls (snd (Ctx.Stop logger reason s)) = c :: Ctx.cancelCalls s).
Proof.
  destruct logger.
  - rewrite Stop_nil_logger. simpl. repeat split; try discriminate; auto.
  - destruct (Ctx.cancel s) as [c|] eqn:Hc.
    + destruct (String.eqb_spec reason "") as [E | NE].
      * unfold Ctx.Stop. rewrite Hc, E. simpl.
        repeat split; try discriminate; auto.
      * destruct (Stop_calls_cancel c reason s Hc NE) as [Hret Hcalls].
        rewrite Hret, Hcalls. repeat split.
        -- intros Habs. now contradiction Habs.
        -- intros [D | [D | D]]; [discriminate | discriminate | contradiction].
        -- intros Habs. now contradiction Habs.
        -- exists c. now split.
    + unfold Ctx.Stop. rewrite Hc. simpl.
      repeat split; try discriminate; auto.
Qed.

(** ** The mongo integration *)

Section MatchTypeFacts.

Lemma byteZ_range b : 0 <= Mongo.byteZ b < 256.
Proof.
  unfold Mongo.byteZ. pose proof (Byte.to_N_bounded b). lia.
Qed.

(** Bits of a number below [2^n] and of a multiple of [2^n] do not meet:
    or-ing them is adding them. *)
Lemma lor_shiftl_add a b n :
  0 <= n -> 0 <= a < 2 ^ n -> Z.lor a (Z.shiftl b n) = a + b * 2 ^ n.
Proof.
  intros Hn Ha.
  rewrite Z.shiftl_mul_pow2 by assumption.
  assert (Hdisj : Z.land a (b * 2 ^ n) = 0).
  { apply Z.bits_inj'. intros i Hi.
    rewrite Z.land_spec, Z.bits_0.
    destruct (Z.lt_ge_cases i n) as [Hlt | Hge].
    - rewrite Z.mul_pow2_bits_low by assumption. apply andb_false_r.
    - destruct (Z.eq_dec a 0) as [-> | Hnz].
      + now rewrite Z.bits_0.
      + rewrite (Z.bits_above_log2 a i); [reflexivity | lia |].
        apply Z.log2_lt_pow2; [lia |].
        apply Z.lt_le_trans with (2 ^ n); [lia |].
        apply Z.pow_le_mono_r; lia. }
  rewrite <- Z.lxor_lor by assumption.
  symmetry. now apply Z.add_nocarry_lxor.
Qed.

(** The shifts and ors of [Uint32] compute the little-endian value. *)
Lemma Uint32_le_value b0 b1 b2 b3 r :
  Mongo.Uint32 (b0 :: b1 :: b2 :: b3 :: r) = Some (Mongo.le_value [b0; b1; b2; b3]).
Proof.
  unfold Mongo.Uint32, Mongo.u32. cbn [Mongo.le_value].
  pose proof (byteZ_range b0). pose proof (byteZ_range b1).
  pose proof (byteZ_range b2). pose proof (byteZ_range b3).
  rewrite !Z.shiftl_mul_pow2 by lia.
  rewrite !Z.mod_small by lia.
  rewrite <- !Z.shiftl_mul_pow2 by lia.
  rewrite (lor_shiftl_add _ _ 8) by lia.
  rewrite (lor_shiftl_add _ _ 16) by lia.
  rewrite (lor_shiftl_add _ _ 24) by lia.
  f_equal. lia.
Qed.

End MatchTypeFacts.

(** C8. [MatchType] accepts a buffer exactly when it has at least four bytes
    and its first four bytes, read as a little-endian unsigned 32-bit
    integer, give the length of the whole buffer; shorter buffers are
    refused. *)
Theorem MatchType_iff (buffer : list byte) :
  (Mongo.MatchType buffer = true <->
     (4 <= length buffer)%nat /\
     Mongo.le_value (firstn 4 buffer) = Z.of_nat (length buffer)) /\
  ((length buffer < 4)%nat -> Mongo.MatchType buffer = false).
Proof.
  unfold Mongo.MatchType, Mongo.len, Mongo.slice04.
  destruct buffer as [| b0 [| b1 [| b2 [| b3 r]]]];
    try (cbn; split; [split; [discriminate | intros [? _]; lia] | reflexivity]).
  cbn [firstn]. rewrite Uint32_le_value.
  destruct (Z.ltb_spec (Z.of_nat (length (b0 :: b1 :: b2 :: b3 :: r))) 4) as [Hlt | Hge].
  - cbn [length] in Hlt. lia.
  - split.
    + rewrite Z.eqb_eq. split; [intros E; split; [cbn [length]; lia | exact E] | intros [_ E]; exact E].
    + cbn [length]. lia.
Qed.

(** ** package test: FilterTcsMocks *)

Section FilterFacts.
Context {Time : Type} `{Filter.GoTime Time}.

(** One turn of the loop appends the mock when it passes the window test
    and leaves the slice alone otherwise. *)
Lemma body_filteredMocks (tc : Filter.TestCase Time) l mock :
  Filter.filteredMocks (Filter.body tc l mock) =
  Filter.filteredMocks l ++ (if Filter.inWindow tc mock then [mock] else []).
Proof.
  unfold Filter.body, Filter.inWindow.
  destruct (Filter.isZeroValue (Filter.ReqTimestampMock (Filter.Spec mock))
            || Filter.isZeroValue (Filter.ResTimestampMock (Filter.Spec mock))) eqn:Z0;
    cbn [orb Filter.filteredMocks].
  - reflexivity.
  - destruct (Filter.After _ _ && Filter.Before _ _);
      cbn [Filter.filteredMocks]; [reflexivity | now rewrite app_nil_r].
Qed.

Lemma loop_filteredMocks (tc : Filter.TestCase Time) m : forall l,
  Filter.filteredMocks (fold_left (Filter.body tc) m l) =
  Filter.filteredMocks l ++ List.filter (Filter.inWindow tc) m.
Proof.
  induction m as [| mock m IH]; intros l; cbn [fold_left List.filter].
  - now rewrite app_nil_r.
  - rewrite IH, body_filteredMocks.
    destruct (Filter.inWindow tc mock); rewrite <- app_assoc; reflexivity.
Qed.

Lemma isZeroValue_true (t : Time) :
  Filter.isZeroValue t = true <-> t = Filter.zeroTime.
Proof. unfold Filter.isZeroValue. apply bool_decide_eq_true. Qed.

Lemma isZeroValue_false (t : Time) :
  Filter.isZeroValue t = false <-> t <> Filter.zeroTime.
Proof. unfold Filter.isZeroValue. apply bool_decide_eq_false. Qed.

End FilterFacts.

(** C1. For a test case with both timestamps set, [FilterTcsMocks] returns
    exactly the mocks of [m], in order, that lack a request or a response
    timestamp or whose request timestamp is after the test's and whose
    response timestamp is before the test's; for a test case that lacks
    either timestamp it returns [m] itself. *)
Theorem FilterTcsMocks_window {Time : Type} `{Filter.GoTime Time}
        (tc : Filter.TestCase Time) (m : list (Filter.Mock Time)) :
  (Filter.Req_Timestamp (Filter.HttpReq_ tc) <> Filter.zeroTime ->
   Filter.Resp_Timestamp (Filter.HttpResp_ tc) <> Filter.zeroTime ->
   fst (Filter.FilterTcsMocks tc m) =
   List.filter
     (fun mock =>
        Filter.isZeroValue (Filter.ReqTimestampMock (Filter.Spec mock))
        || Filter.isZeroValue (Filter.ResTimestampMock (Filter.Spec mock))
        || (Filter.After (Filter.ReqTimestampMock (Filter.Spec mock))
                         (Filter.Req_Timestamp (Filter.HttpReq_ tc))
            && Filter.Before (Filter.ResTimestampMock (Filter.Spec mock))
                             (Filter.Resp_Timestamp (Filter.HttpResp_ tc))))
     m) /\
  (Filter.Req_Timestamp (Filter.HttpReq_ tc) = Filter.zeroTime \/
   Filter.Resp_Timestamp (Filter.HttpResp_ tc) = Filter.zeroTime ->
   fst (Filter.FilterTcsMocks tc m) = m).
Proof.
  unfold Filter.FilterTcsMocks. split.
  - intros Hreq Hresp.
    apply isZeroValue_false in Hreq. apply isZeroValue_false in Hresp.
    rewrite Hreq, Hresp. cbn [fst].
    rewrite loop_filteredMocks. reflexivity.
  - intros [Hreq | Hresp].
    + apply isZeroValue_true in Hreq. now rewrite Hreq.
    + apply isZeroValue_true in Hresp. rewrite Hresp.
      destruct (Filter.isZeroValue (Filter.Req_Timestamp (Filter.HttpReq_ tc)));
        reflexivity.
Qed.

(** Scenario "mock windowing" of the specification: a test case with
    timestamps 100 and 200 keeps B (120,180) and D (no timestamps) out of
    A (50,60), B, C (190,250), D. *)
Example FilterTcsMocks_scenario :
  map Filter.MockName
      (fst (Filter.FilterTcsMocks (H := Filter.ZTime) (Filter.mkTc "t" 100 200)
              [Filter.mkMock "A" 50 60; Filter.mkMock "B" 120 180;
               Filter.mkMock "C" 190 250; Filter.mkMock "D" 0 0]))
  = ["B"; "D"]%string.
Proof. reflexivity. Qed.

(** ** package replay: the order of the summary *)

Section SummaryOrderFacts.
Import SummaryOrder.

Lemma testSuiteLess_numbered a b :
  numbered a -> numbered b ->
  Replay.testSuiteLess a b = (idOf a <? idOf b).
Proof.
  unfold numbered, idOf, idNumber, Replay.testSuiteLess.
  intros [i Hi] [j Hj].
  destruct (Z.of_nat (length (Replay.Split a)) <? 3); [discriminate |].
  destruct (Z.of_nat (length (Replay.Split b)) <? 3); [discriminate |].
  cbn [orb]. now rewrite Hi, Hj.
Qed.

Lemma testSuiteLess_short a b :
  (length (Replay.Split a) < 3)%nat \/ (length (Replay.Split b) < 3)%nat ->
  Replay.testSuiteLess a b = String.ltb a b.
Proof.
  unfold Replay.testSuiteLess. intros Hs.
  destruct (Z.ltb_spec (Z.of_nat (length (Replay.Split a))) 3);
    destruct (Z.ltb_spec (Z.of_nat (length (Replay.Split b))) 3);
    cbn [orb]; try reflexivity; lia.
Qed.

Lemma elem_of_rev {A} (a : A) l : a ∈ rev l <-> a ∈ l.
Proof. rewrite !list_elem_of_In. symmetry. apply in_rev. Qed.

Lemma insertLeft_perm {A} (less : A -> A -> bool) x l :
  Replay.insertLeft less x l ≡ₚ x :: l.
Proof.
  induction l as [| y r IH]; cbn [Replay.insertLeft]; [reflexivity |].
  destruct (less x y); [| reflexivity].
  rewrite IH. apply Permutation_swap.
Qed.

Lemma SliceStable_perm {A} (less : A -> A -> bool) l :
  Replay.SliceStable less l ≡ₚ l.
Proof.
  unfold Replay.SliceStable.
  assert (G : forall acc,
             fold_left (fun sortedRev x => Replay.insertLeft less x sortedRev) l acc
             ≡ₚ acc ++ l).
  { induction l as [| x l IH]; intros acc; cbn [fold_left].
    - now rewrite app_nil_r.
    - rewrite IH, insertLeft_perm. cbn [app]. apply Permutation_middle. }
  now rewrite <- Permutation_rev, G.
Qed.

(** Inserting keeps the part sorted so far sorted; the part is held
    rightmost element first, so it is its reversal that ascends. *)
Lemma insertLeft_sorted x l :
  numbered x -> Forall numbered l ->
  StronglySorted byNumber (rev l) ->
  StronglySorted byNumber (rev (Replay.insertLeft Replay.testSuiteLess x l)).
Proof.
  intros Hx. induction l as [| y r IH]; intros Hl Hs; cbn [Replay.insertLeft].
  - cbn. repeat constructor.
  - apply Forall_cons_1 in Hl as [Hy Hr].
    cbn [rev] in Hs. apply StronglySorted_app in Hs as (Hle & Hsr & _).
    rewrite testSuiteLess_numbered by assumption.
    destruct (Z.ltb_spec (idOf x) (idOf y)) as [Hlt | Hge].
    + cbn [rev]. apply StronglySorted_app. split; [| split].
      * intros a b Ha Hb. apply list_elem_of_singleton in Hb as ->.
        rewrite elem_of_rev in Ha.
        rewrite insertLeft_perm in Ha.
        apply elem_of_cons in Ha as [-> | Ha]; [unfold byNumber; lia |].
        apply Hle; [now rewrite elem_of_rev | now apply list_elem_of_singleton].
      * now apply IH.
      * repeat constructor.
    + change (rev (x :: y :: r)) with (rev (y :: r) ++ [x]).
      apply StronglySorted_app. split; [| split].
      * intros a b Ha Hb. apply list_elem_of_singleton in Hb as ->.
        rewrite elem_of_rev in Ha.
        apply elem_of_cons in Ha as [-> | Ha]; [unfold byNumber; lia |].
        assert (byNumber a y) as Hay
          by (apply Hle; [now rewrite elem_of_rev | now apply list_elem_of_singleton]).
        unfold byNumber in *. lia.
      * cbn [rev]. apply StronglySorted_app. repeat split; try assumption.
        repeat constructor.
      * repeat constructor.
Qed.

Lemma insertLeft_numbered x l :
  numbered x -> Forall numbered l ->
  Forall numbered (Replay.insertLeft Replay.testSuiteLess x l).
Proof.
  intros Hx Hl. rewrite insertLeft_perm. now constructor.
Qed.

End SummaryOrderFacts.

(** C6 (amended).  Names with three dash-separated pieces whose third piece
    is a number, such as test-set-1, test-set-2 and test-set-10, are listed
    by that number in ascending order: the sorted list is a rearrangement of
    the names in which every name stands before all names of a larger or
    equal number. *)
Theorem sortTestSuiteNames_by_number (names : list string) :
  Forall SummaryOrder.numbered names ->
  Replay.sortTestSuiteNames names ≡ₚ names /\
  StronglySorted SummaryOrder.byNumber (Replay.sortTestSuiteNames names).
Proof.
  intros Hn. split; [apply SliceStable_perm |].
  unfold Replay.sortTestSuiteNames, Replay.SliceStable.
  assert (G : forall acc,
             Forall SummaryOrder.numbered acc ->
             StronglySorted SummaryOrder.byNumber (rev acc) ->
             StronglySorted SummaryOrder.byNumber
               (rev (fold_left
                       (fun sortedRev x =>
                          Replay.insertLeft Replay.testSuiteLess x sortedRev)
                       names acc))).
  { induction names as [| x names IH]; intros acc Hacc Hs; cbn [fold_left].
    - exact Hs.
    - apply Forall_cons_1 in Hn as [Hx Hn].
      apply IH; [assumption | now apply insertLeft_numbered |
                 now apply insertLeft_sorted]. }
  apply G; constructor.
Qed.

(** The names test-set-10, test-set-2, test-set-1 are numbered; sorting
    them gives test-set-1, test-set-2, test-set-10. *)
Lemma sortTestSuiteNames_by_number_witness :
  Forall SummaryOrder.numbered ["test-set-10"; "test-set-2"; "test-set-1"]%string /\
  Replay.sortTestSuiteNames ["test-set-10"; "test-set-2"; "test-set-1"]%string
    ≡ₚ ["test-set-10"; "test-set-2"; "test-set-1"]%string /\
  StronglySorted SummaryOrder.byNumber
    (Replay.sortTestSuiteNames ["test-set-10"; "test-set-2"; "test-set-1"]%string).
Proof.
  assert (Hn : Forall SummaryOrder.numbered
                 ["test-set-10"; "test-set-2"; "test-set-1"]%string).
  { repeat constructor; vm_compute; eauto. }
  split; [exact Hn |].
  apply (sortTestSuiteNames_by_number _ Hn).
Defined.

Example sortTestSuiteNames_test_sets :
  Replay.sortTestSuiteNames ["test-set-1"; "test-set-2"; "test-set-10"]%string
    = ["test-set-1"; "test-set-2"; "test-set-10"]%string /\
  Replay.sortTestSuiteNames ["test-set-10"; "test-set-2"; "test-set-1"]%string
    = ["test-set-1"; "test-set-2"; "test-set-10"]%string.
Proof. split; reflexivity. Qed.

(** C6 as written fails: set-1, set-2 and set-10 have two pieces each, the
    comparison falls back to the order of the strings, and set-10 comes
    before set-2. *)
Lemma sortTestSuiteNames_set_names :
  Replay.sortTestSuiteNames ["set-1"; "set-2"; "set-10"]%string
    = ["set-1"; "set-10"; "set-2"]%string /\
  Replay.sortTestSuiteNames ["set-1"; "set-2"; "set-10"]%string
    <> ["set-1"; "set-2"; "set-10"]%string.
Proof. split; [reflexivity | discriminate]. Qed.

(** ** The mongo integration: recordMessage *)

Section RecordMessageFacts.
Context {Time Operation MongoResponse : Type} `{Mongo.Deps Operation}.
Variable opReq : Operation.

Abbreviation wellTyped := (Mongo.wellTyped opReq).

Lemma visit_payload v req p b cfg :
  Mongo.payload opReq req = Some p ->
  Mongo.visit opReq v req (b, cfg) =
  Some (if String.eqb p v then (false, cfg) else (b, cfg ++ [p])).
Proof.
  unfold Mongo.payload, Mongo.visit.
  destruct (Mongo.Opcode (Mongo.Header req)), (Mongo.ReqMessage req) as [q | [| s0 ss] |];
    intros E; try discriminate; injection E as <-;
    destruct (String.eqb _ v); reflexivity.
Qed.

(** The loop over the requests for one value [v]. *)
Lemma requests_loop v reqs : forall b cfg,
  Forall wellTyped reqs ->
  exists b' cfg',
    Mongo.forRange (Mongo.visit opReq v) reqs (b, cfg) = Some (b', cfg') /\
    (b' = true <->
       b = true /\ forall req, req ∈ reqs -> Mongo.payload opReq req <> Some v) /\
    (forall s, s ∈ cfg -> s ∈ cfg') /\
    (forall req p, req ∈ reqs -> Mongo.payload opReq req = Some p ->
                   p = v \/ p ∈ cfg').
Proof.
  induction reqs as [| req reqs IH]; intros b cfg Hwt.
  - exists b, cfg. split; [reflexivity |]. split; [| split].
    + split; [| tauto]. intros Hb. split; [exact Hb |].
      intros req Hin. now apply elem_of_nil in Hin.
    + auto.
    + intros req p Hin. now apply elem_of_nil in Hin.
  - apply Forall_cons_1 in Hwt as [[p Hp] Hwt].
    cbn [Mongo.forRange]. rewrite (visit_payload v req p b cfg Hp).
    destruct (String.eqb_spec p v) as [-> | Hne].
    + destruct (IH false cfg Hwt) as (b' & cfg' & Hrun & Hb & Hsub & Hpay).
      exists b', cfg'. split; [exact Hrun |].
      split; [| split; [exact Hsub |]].
      * split.
        -- intros Hb'. apply Hb in Hb' as [D _]. discriminate.
        -- intros [_ Hall]. exfalso. apply (Hall req); [left | exact Hp].
      * intros r q Hin Hq. apply elem_of_cons in Hin as [-> | Hin].
        -- left. congruence.
        -- eauto.
    + destruct (IH b (cfg ++ [p]) Hwt) as (b' & cfg' & Hrun & Hb & Hsub & Hpay).
      exists b', cfg'. split; [exact Hrun |].
      split; [| split].
      * split.
        -- intros Hb'. apply Hb in Hb' as [Hbt Hall]. split; [exact Hbt |].
           intros r Hin. apply elem_of_cons in Hin as [-> | Hin].
           ++ rewrite Hp. congruence.
           ++ now apply Hall.
        -- intros [Hbt Hall]. apply Hb. split; [exact Hbt |].
           intros r Hin. apply Hall. now right.
      * intros s Hin. apply Hsub, elem_of_app. now left.
      * intros r q Hin Hq. apply elem_of_cons in Hin as [-> | Hin].
        -- right. apply Hsub, elem_of_app. right.
           apply list_elem_of_singleton. congruence.
        -- eauto.
Qed.

(** The loop over the values of [configRequests]. *)
Lemma values_loop reqs vs : forall b cfg,
  Forall wellTyped reqs ->
  exists b' cfg',
    Mongo.forRange (fun v => Mongo.forRange (Mongo.visit opReq v) reqs) vs (b, cfg)
      = Some (b', cfg') /\
    (b' = true <->
       b = true /\
       forall v req, v ∈ vs -> req ∈ reqs -> Mongo.payload opReq req <> Some v) /\
    (forall s, s ∈ cfg -> s ∈ cfg') /\
    (vs <> [] -> forall req p, req ∈ reqs -> Mongo.payload opReq req = Some p ->
                 p ∈ vs \/ p ∈ cfg').
Proof.
  induction vs as [| v vs IH]; intros b cfg Hwt.
  - exists b, cfg. split; [reflexivity |]. split; [| split].
    + split; [| tauto]. intros Hb. split; [exact Hb |].
      intros v req Hin. now apply elem_of_nil in Hin.
    + auto.
    + intros Hne. now contradiction Hne.
  - cbn [Mongo.forRange].
    destruct (requests_loop v reqs b cfg Hwt) as (b1 & cfg1 & Hrun1 & Hb1 & Hsub1 & Hpay1).
    rewrite Hrun1.
    destruct (IH b1 cfg1 Hwt) as (b' & cfg' & Hrun & Hb & Hsub & _).
    exists b', cfg'. split; [exact Hrun |].
    split; [| split].
    + split.
      * intros Hb'. apply Hb in Hb' as [Hb1' Hall].
        apply Hb1 in Hb1' as [Hbt Hall1]. split; [exact Hbt |].
        intros w req Hw Hreq. apply elem_of_cons in Hw as [-> | Hw].
        -- now apply Hall1.
        -- now apply Hall.
      * intros [Hbt Hall]. apply Hb. split.
        -- apply Hb1. split; [exact Hbt |].
           intros req Hreq. apply Hall; [left | exact Hreq].
        -- intros w req Hw Hreq. apply Hall; [now right | exact Hreq].
    + intros s Hin. auto.
    + intros _ req p Hreq Hp.
      destruct (Hpay1 req p Hreq Hp) as [-> | Hin]; [left; left | right; auto].
Qed.

Lemma scanConfig_spec reqs cfg :
  Forall wellTyped reqs ->
  exists b' cfg',
    Mongo.scanConfig opReq reqs cfg = Some (b', cfg') /\
    (b' = true <->
       forall v req, v ∈ cfg -> req ∈ reqs -> Mongo.payload opReq req <> Some v) /\
    (forall s, s ∈ cfg -> s ∈ cfg') /\
    (cfg <> [] -> forall req p, req ∈ reqs -> Mongo.payload opReq req = Some p ->
                  p ∈ cfg').
Proof.
  intros Hwt. unfold Mongo.scanConfig.
  destruct (values_loop reqs cfg true cfg Hwt) as (b' & cfg' & Hrun & Hb & Hsub & Hpay).
  exists b', cfg'. split; [exact Hrun |].
  split; [| split; [exact Hsub |]].
  - split.
    + intros Hb'. now apply Hb in Hb' as [_ Hall].
    + intros Hall. apply Hb. now split.
  - intros Hne req p Hreq Hp. destruct (Hpay Hne req p Hreq Hp); auto.
Qed.

(** After a heartbeat has been scanned against a non-empty
    [configRequests], the payload of each of its requests is in
    [configRequests]. *)
Lemma scanConfig_observed reqs cfg b' cfg' :
  Forall wellTyped reqs -> cfg <> [] ->
  Mongo.scanConfig opReq reqs cfg = Some (b', cfg') ->
  cfg' <> [] /\
  forall req p, req ∈ reqs -> Mongo.payload opReq req = Some p -> p ∈ cfg'.
Proof.
  intros Hwt Hne Hrun.
  destruct (scanConfig_spec reqs cfg Hwt) as (b1 & cfg1 & Hrun1 & _ & Hsub & Hpay).
  rewrite Hrun in Hrun1. injection Hrun1 as -> ->.
  split; [| now apply Hpay].
  destruct cfg as [| s cfg]; [contradiction |].
  intros ->. specialize (Hsub s). rewrite elem_of_cons in Hsub.
  specialize (Hsub (or_introl eq_refl)). now apply elem_of_nil in Hsub.
Qed.

(** X2. A heartbeat recorded once is not sent when it is recorded again:
    the first call leaves the payloads of its requests in [configRequests],
    which the second call finds there. *)
Lemma recordMessage_repeat (r0 : Mongo.MongoRequest) rest
      (responses responses' : list MongoResponse)
      (ts ts' now now' : Time) nowUnix nowUnix' cfg cfg1 mocks1 :
  Forall wellTyped (r0 :: rest) ->
  Mongo.isHeartBeat opReq (Mongo.Header r0) (Mongo.ReqMessage r0) = true ->
  cfg <> [] ->
  Mongo.recordMessage (r0 :: rest) responses opReq ts nowUnix now cfg
    = Some (cfg1, mocks1) ->
  exists cfg2,
    Mongo.recordMessage (r0 :: rest) responses' opReq ts' nowUnix' now' cfg1
      = Some (cfg2, []).
Proof.
  intros Hwt Hhb Hne. unfold Mongo.recordMessage. rewrite Hhb.
  destruct (Mongo.scanConfig opReq (r0 :: rest) cfg) as [[b cfg'] |] eqn:Hrun;
    [| discriminate].
  destruct (scanConfig_observed (r0 :: rest) cfg b cfg' Hwt Hne Hrun) as [_ Hobs].
  cbn [mbind option_bind]. intros E.
  assert (cfg1 = cfg') as -> by (destruct b; now injection E).
  destruct (scanConfig_spec (r0 :: rest) cfg' Hwt) as (b2 & cfg2 & Hrun2 & Hb2 & _ & _).
  rewrite Hrun2. cbn [mbind option_bind].
  destruct b2; [| eauto]. exfalso.
  apply Forall_cons_1 in Hwt as [[p Hp] _].
  destruct Hb2 as [Hall _].
  apply (Hall eq_refl p r0); [| left | exact Hp].
  apply (Hobs r0 p); [left | exact Hp].
Qed.

End RecordMessageFacts.

(** C9. For requests classified as a heartbeat, [recordMessage] returns.
    When no request has its payload in [configRequests], it builds one mock
    and sends it: the mock carries the metadata entry type = config beside
    the operation, and the requests, the responses and the request
    timestamp it was given.  When the payload of one of the requests is
    already in [configRequests], no mock is sent. *)
Theorem recordMessage_heartbeat
        {Time Operation MongoResponse : Type} `{Mongo.Deps Operation}
        (r0 : Mongo.MongoRequest) (rest : list Mongo.MongoRequest)
        (mongoResponses : list MongoResponse) (opReq : Operation)
        (reqTimestampMock : Time) (nowUnix : Z) (now : Time)
        (configRequests : list string) :
  Forall (Mongo.wellTyped opReq) (r0 :: rest) ->
  Mongo.isHeartBeat opReq (Mongo.Header r0) (Mongo.ReqMessage r0) = true ->
  exists configRequests' mocks,
    Mongo.recordMessage (r0 :: rest) mongoResponses opReq reqTimestampMock
                        nowUnix now configRequests
      = Some (configRequests', mocks) /\
    ((forall req p, req ∈ r0 :: rest -> Mongo.payload opReq req = Some p ->
                    p ∉ configRequests) ->
     exists mock,
       mocks = [mock] /\
       Mongo.Metadata (Mongo.Spec mock) !! "type"%string = Some "config"%string /\
       Mongo.Metadata (Mongo.Spec mock) !! "operation"%string
         = Some (Mongo.OpString opReq) /\
       Mongo.MongoRequests (Mongo.Spec mock) = r0 :: rest /\
       Mongo.MongoResponses (Mongo.Spec mock) = mongoResponses /\
       Mongo.ReqTimestampMock (Mongo.Spec mock) = reqTimestampMock) /\
    ((exists req p, req ∈ r0 :: rest /\ Mongo.payload opReq req = Some p /\
                    p ∈ configRequests) ->
     mocks = []).
Proof.
  intros Hwt Hhb. unfold Mongo.recordMessage. rewrite Hhb.
  destruct (scanConfig_spec opReq (r0 :: rest) configRequests Hwt)
    as (b & cfg' & Hrun & Hb & _ & _).
  rewrite Hrun. cbn [mbind option_bind].
  destruct b.
  - eexists _, _. split; [reflexivity |]. split.
    + intros _. eexists. split; [reflexivity |].
      cbn [Mongo.Spec Mongo.Metadata Mongo.MongoRequests Mongo.MongoResponses
           Mongo.ReqTimestampMock].
      split; [apply lookup_insert_eq |].
      split; [| auto].
      rewrite lookup_insert_ne by discriminate. apply lookup_singleton_eq.
    + intros (req & p & Hreq & Hp & Hin). exfalso.
      destruct Hb as [Hall _]. now apply (Hall eq_refl p req).
  - eexists _, _. split; [reflexivity |]. split.
    + intros Hnew. exfalso.
      assert (Hall : forall v req, v ∈ configRequests -> req ∈ r0 :: rest ->
                                   Mongo.payload opReq req <> Some v).
      { intros v req Hv Hreq Hp. exact (Hnew req v Hreq Hp Hv). }
      apply Hb in Hall. discriminate.
    + reflexivity.
Qed.

(** The heartbeat {hello:true}, the first of a run, is sent as one mock
    with type = config. *)
Lemma recordMessage_heartbeat_witness :
  exists configRequests' mock,
    Mongo.recordMessage (H := Examples.mongoDeps) (Time := Z) (MongoResponse := unit)
      [Examples.helloQuery] [] "hello"%string 5 6 7 [""%string]
      = Some (configRequests', [mock]) /\
    Mongo.Metadata (Mongo.Spec mock) !! "type"%string = Some "config"%string.
Proof.
  destruct (recordMessage_heartbeat (H := Examples.mongoDeps)
              (Time := Z) (MongoResponse := unit)
              Examples.helloQuery [] [] "hello"%string 5 6 7 [""%string])
    as (configRequests' & mocks & Hrun & Hnew & _).
  - repeat constructor. vm_compute. eauto.
  - reflexivity.
  - destruct Hnew as (mock & -> & Htype & _).
    + intros req p Hreq Hp Hin.
      apply list_elem_of_singleton in Hreq as ->.
      apply list_elem_of_singleton in Hin as ->.
      vm_compute in Hp. discriminate.
    + exists configRequests', mock. split; [exact Hrun | exact Htype].
Defined.

(** The first heartbeat of a run is sent with type = config; the same
    heartbeat recorded again is not sent. *)
Example recordMessage_twice :
  match Mongo.recordMessage (H := Examples.mongoDeps) (Time := Z) (MongoResponse := unit)
          [Examples.helloQuery] [] "hello"%string 5 6 7 [""%string] with
  | Some (configRequests, mocks) =>
      map (fun m => Mongo.Metadata (Mongo.Spec m) !! "type"%string) mocks
        = [Some "config"%string] /\
      Mongo.recordMessage (H := Examples.mongoDeps) (Time := Z) (MongoResponse := unit)
        [Examples.helloQuery] [] "hello"%string 8 9 10 configRequests
        = Some ([""; "{hello:true}"; "{hello:true}"]%string, [])
  | None => False
  end.
Proof. vm_compute. split; reflexivity. Qed.

(** ** pkg/core/hooks/conn: ProcessActiveTrackers *)

Section ConnFacts.
Context {ConnID : Type} `{Countable ConnID}.
Context {Tracker Time : Type} `{Conn.Deps Tracker Time}.
Variable clock : ConnID -> Z.
Variable threshold : Z.

Implicit Types (s : Conn.Sweep ConnID Tracker Time) (m : gmap ConnID Tracker).

Lemma visit_outcome created k tracker s tracker' tcs lines del :
  Conn.outcome created threshold tracker = (tracker', (tcs, lines, del)) ->
  Conn.visit created threshold k tracker s =
  {| Conn.conns := <[k := tracker']> (Conn.conns s);
     Conn.trackersToDelete :=
       if del then Conn.trackersToDelete s ++ [k] else Conn.trackersToDelete s;
     Conn.sent := Conn.sent s ++ tcs;
     Conn.logs := Conn.logs s ++ lines |}.
Proof.
  unfold Conn.outcome, Conn.visit.
  destruct (Conn.IsComplete tracker) as [tr' [[[[ok rq] rs] t1] t2]].
  intros E. injection E as <- E. now rewrite E.
Qed.

(** A test case is only captured for a complete tracker with two
    non-empty buffers, and it carries the timestamps handed over. *)
Lemma process_sent created tracker' ok rq rs (t1 t2 : Time) tcs lines del tc :
  Conn.process created threshold tracker' ok rq rs t1 t2 = (tcs, lines, del) ->
  tc ∈ tcs ->
  ok = true /\ rq <> [] /\ rs <> [] /\
  Conn.Req_Timestamp (Conn.HttpReq_ tc) = t1 /\
  Conn.Resp_Timestamp (Conn.HttpResp_ tc) = t2.
Proof.
  unfold Conn.process. intros E Hin.
  destruct ok.
  2:{ destruct (Conn.IsInactive tracker' threshold);
      injection E as <- _ _; now apply elem_of_nil in Hin. }
  destruct rq as [| b rq]; [injection E as <- _ _; now apply elem_of_nil in Hin |].
  destruct rs as [| c rs]; [injection E as <- _ _; now apply elem_of_nil in Hin |].
  repeat split; try discriminate.
  all: cbn [length Z.of_nat Z.eqb orb] in E;
    rewrite ?Zpos_P_of_succ_nat in E.
  all: destruct (Z.eqb_spec (Z.succ (Z.of_nat (length rq))) 0) as [D | _]; [lia |];
    destruct (Z.eqb_spec (Z.succ (Z.of_nat (length rs))) 0) as [D | _]; [lia |];
    cbn [orb] in E.
  all: destruct (Conn.ParseHTTPRequest (b :: rq)) as [req |];
    [| injection E as <- _ _; now apply elem_of_nil in Hin].
  all: destruct (Conn.ParseHTTPResponse (c :: rs) req) as [resp |];
    [| injection E as <- _ _; now apply elem_of_nil in Hin].
  all: unfold Conn.capture in E;
    destruct (Conn.ReqBody req); [| injection E as <- _ _; now apply elem_of_nil in Hin];
    destruct (Conn.RespBody resp); [| injection E as <- _ _; now apply elem_of_nil in Hin].
  all: injection E as <- _ _; apply list_elem_of_singleton in Hin as ->; reflexivity.
Qed.

Lemma outcome_originates m k tracker tracker' tcs lines del tc :
  m !! k = Some tracker ->
  Conn.outcome (clock k) threshold tracker = (tracker', (tcs, lines, del)) ->
  tc ∈ tcs -> Conn.originates m tc.
Proof.
  unfold Conn.outcome. intros Hk E Hin.
  destruct (Conn.IsComplete tracker) as [tr' [[[[ok rq] rs] t1] t2]] eqn:Hc.
  injection E as <- E.
  destruct (process_sent _ _ _ _ _ _ _ _ _ _ tc E Hin) as (-> & Hrq & Hrs & Ht1 & Ht2).
  exists k, tracker, tr', rq, rs, t1, t2. repeat split; assumption.
Qed.

(** A complete tracker with two non-empty buffers that parse, and with
    readable bodies, yields the captured test case. *)
Lemma process_complete created tracker' rq rs (t1 t2 : Time) req resp :
  rq <> [] -> rs <> [] ->
  Conn.ParseHTTPRequest rq = Some req ->
  Conn.ParseHTTPResponse rs req = Some resp ->
  is_Some (Conn.ReqBody req) -> is_Some (Conn.RespBody resp) ->
  exists tc,
    Conn.capture created req resp t1 t2 = ([tc], []) /\
    Conn.process created threshold tracker' true rq rs t1 t2 = ([tc], [], false).
Proof.
  intros Hrq Hrs Hreq Hresp [rb Hrb] [pb Hpb].
  unfold Conn.process, Conn.capture. rewrite Hreq, Hresp, Hrb, Hpb.
  destruct rq as [| b rq]; [contradiction |].
  destruct rs as [| c rs]; [contradiction |].
  cbn [length].
  destruct (Z.eqb_spec (Z.of_nat (S (length rq))) 0) as [D | _]; [lia |].
  destruct (Z.eqb_spec (Z.of_nat (S (length rs))) 0) as [D | _]; [lia |].
  cbn [orb]. eexists. split; reflexivity.
Qed.

Lemma process_inactive created tracker' rq rs (t1 t2 : Time) :
  Conn.IsInactive tracker' threshold = true ->
  Conn.process created threshold tracker' false rq rs t1 t2 = ([], [], true).
Proof. intros Hi. unfold Conn.process. now rewrite Hi. Qed.

Lemma deleteAll_lookup keys : forall m k,
  Conn.deleteAll keys m !! k = if decide (k ∈ keys) then None else m !! k.
Proof.
  unfold Conn.deleteAll.
  induction keys as [| a keys IH]; intros m k; cbn [fold_left].
  - case_decide as Hin; [now apply elem_of_nil in Hin | reflexivity].
  - rewrite IH. destruct (decide (k = a)) as [-> | Hne].
    + rewrite lookup_delete_eq.
      destruct (decide (a ∈ a :: keys)) as [_ | Hnin]; [now case_decide |].
      exfalso. apply Hnin. left.
    + rewrite lookup_delete_ne by congruence.
      destruct (decide (k ∈ keys)) as [Hin | Hnin];
        destruct (decide (k ∈ a :: keys)) as [Hin' | Hnin']; try reflexivity.
      * exfalso. apply Hnin'. now right.
      * exfalso. apply elem_of_cons in Hin' as [-> | Hin']; contradiction.
Qed.

(** The loop, whatever the context does: what has been sent comes from
    trackers of the registry the loop started from.  [m0] is that
    registry; the loop has not yet touched the keys still in [order]. *)
Lemma range_sent ctxDone m0 order : forall i s,
  NoDup order ->
  (forall k, k ∈ order -> Conn.conns s !! k = m0 !! k) ->
  (forall tc, tc ∈ Conn.sent s -> Conn.originates m0 tc) ->
  forall tc,
    tc ∈ Conn.sent (Conn.rangeConnections ctxDone clock threshold i order s).2 ->
    Conn.originates m0 tc.
Proof.
  induction order as [| k rest IH]; intros i s Hnd Hagree Hsent tc;
    cbn [Conn.rangeConnections].
  - apply Hsent.
  - apply NoDup_cons in Hnd as [Hk Hnd].
    destruct (Conn.conns s !! k) as [tracker |] eqn:Hlk.
    + destruct (ctxDone i); [apply Hsent |].
      destruct (Conn.outcome (clock k) threshold tracker)
        as [tracker' [[tcs lines] del]] eqn:Hout.
      rewrite (visit_outcome _ _ _ _ _ _ _ _ Hout).
      apply IH; [exact Hnd | |]; cbn [Conn.conns Conn.sent].
      * intros k' Hk'. rewrite lookup_insert_ne by (intros ->; contradiction).
        apply Hagree. now right.
      * intros tc' Hin. apply elem_of_app in Hin as [Hin | Hin]; [now apply Hsent |].
        apply (outcome_originates m0 k tracker tracker' tcs lines del); try assumption.
        rewrite <- Hagree by left. exact Hlk.
    + apply IH; [exact Hnd | | exact Hsent].
      intros k' Hk'. apply Hagree. now right.
Qed.

(** The loop with a context that is never done: it runs to the end, keeps
    the keys of the registry, and whatever handling a tracker yields is
    in its result. *)
Lemma range_never ctxDone m0 order : forall i s,
  (forall j, ctxDone j = false) ->
  NoDup order ->
  (forall k, k ∈ order -> Conn.conns s !! k = m0 !! k) ->
  dom (Conn.conns s) = dom m0 ->
  exists s',
    Conn.rangeConnections ctxDone clock threshold i order s = (false, s') /\
    dom (Conn.conns s') = dom m0 /\
    (forall tc, tc ∈ Conn.sent s -> tc ∈ Conn.sent s') /\
    (forall k, k ∈ Conn.trackersToDelete s -> k ∈ Conn.trackersToDelete s') /\
    (forall k tracker tracker' tcs lines del,
        k ∈ order -> m0 !! k = Some tracker ->
        Conn.outcome (clock k) threshold tracker = (tracker', (tcs, lines, del)) ->
        (forall tc, tc ∈ tcs -> tc ∈ Conn.sent s') /\
        (del = true -> k ∈ Conn.trackersToDelete s')).
Proof.
  intros i s Hctx. revert i s.
  induction order as [| k rest IH]; intros i s Hnd Hagree Hdom;
    cbn [Conn.rangeConnections].
  - exists s. repeat split; auto; intros; exfalso; eapply elem_of_nil; eassumption.
  - apply NoDup_cons in Hnd as [Hk Hnd].
    destruct (Conn.conns s !! k) as [tracker |] eqn:Hlk.
    + rewrite Hctx.
      destruct (Conn.outcome (clock k) threshold tracker)
        as [tracker' [[tcs lines] del]] eqn:Hout.
      rewrite (visit_outcome _ _ _ _ _ _ _ _ Hout).
      set (s1 := {| Conn.conns := <[k:=tracker']> (Conn.conns s);
                    Conn.trackersToDelete :=
                      if del then Conn.trackersToDelete s ++ [k]
                      else Conn.trackersToDelete s;
                    Conn.sent := Conn.sent s ++ tcs;
                    Conn.logs := Conn.logs s ++ lines |}).
      assert (Hagree1 : forall k', k' ∈ rest -> Conn.conns s1 !! k' = m0 !! k').
      { intros k' Hk'. cbn [s1 Conn.conns].
        rewrite lookup_insert_ne by (intros ->; contradiction).
        apply Hagree. now right. }
      assert (Hdom1 : dom (Conn.conns s1) = dom m0).
      { cbn [s1 Conn.conns]. rewrite dom_insert_L, <- Hdom.
        assert (Hin : k ∈ dom (Conn.conns s)) by (apply elem_of_dom; eauto).
        apply set_eq. intros x. rewrite elem_of_union, elem_of_singleton.
        split; [intros [-> | Hx]; assumption | now right]. }
      destruct (IH (S i) s1 Hnd Hagree1 Hdom1) as (s' & Hrun & Hdom' & Hs & Hd & Hall).
      exists s'. split; [exact Hrun |]. split; [exact Hdom' |].
      cbn [s1 Conn.sent Conn.trackersToDelete] in Hs, Hd.
      split; [| split].
      * intros tc Hin. apply Hs, elem_of_app. now left.
      * intros k' Hin. apply Hd. destruct del; [apply elem_of_app; now left | exact Hin].
      * intros k' tr tr' tcs' lines' del' Hin Hm Hout'.
        apply elem_of_cons in Hin as [-> | Hin];
          [| now apply (Hall k' tr tr' tcs' lines' del')].
        rewrite <- Hagree in Hm by left. rewrite Hlk in Hm. injection Hm as <-.
        rewrite Hout in Hout'. injection Hout' as <- <- <- <-.
        split.
        -- intros tc Hin. apply Hs, elem_of_app. now right.
        -- intros ->. apply Hd, elem_of_app. right. now left.
    + assert (Hagree1 : forall k', k' ∈ rest -> Conn.conns s !! k' = m0 !! k').
      { intros k' Hk'. apply Hagree. now right. }
      destruct (IH i s Hnd Hagree1 Hdom) as (s' & Hrun & Hdom' & Hs & Hd & Hall).
      exists s'. split; [exact Hrun |]. split; [exact Hdom' |].
      split; [exact Hs |]. split; [exact Hd |].
      intros k' tr tr' tcs' lines' del' Hin Hm Hout'.
      apply elem_of_cons in Hin as [-> | Hin];
        [| now apply (Hall k' tr tr' tcs' lines' del')].
      rewrite <- Hagree in Hm by left. congruence.
Qed.

End ConnFacts.

(** C2.  The function does not do what C2 and its own doc comment promise
    ("checks if they are complete.  If so, it captures the ingress call and
    deletes the tracker"): the branch of a complete tracker never adds the
    connection to [trackersToDelete].  With the context never done, the
    tracker of connection 1 is complete with two non-empty buffers and its
    test case is sent, yet the connection is still registered afterwards;
    the tracker of connection 2 is complete with two non-empty buffers that
    do not parse, no test case is sent for it, and it is still registered
    as well. *)
Lemma ProcessActiveTrackers_complete_stays :
  let result := Conn.ProcessActiveTrackers
                  Examples.never Examples.at7 [1; 2; 3]%nat Examples.factory in
  Conn.connections Examples.factory !! 1%nat = Some Examples.exchange /\
  Conn.IsComplete Examples.exchange =
    (Examples.exchange,
     (true, Examples.reqBuf Examples.exchange, Examples.respBuf Examples.exchange,
      100, 200)) /\
  Examples.reqBuf Examples.exchange <> [] /\
  Examples.respBuf Examples.exchange <> [] /\
  Conn.connections Examples.factory !! 2%nat = Some Examples.garbled /\
  Conn.IsComplete Examples.garbled =
    (Examples.garbled,
     (true, Examples.reqBuf Examples.garbled, Examples.respBuf Examples.garbled,
      300, 400)) /\
  Examples.reqBuf Examples.garbled <> [] /\
  Examples.respBuf Examples.garbled <> [] /\
  result.1.2 = [Examples.helloCase] /\
  Conn.connections result.1.1 !! 1%nat = Some Examples.exchange /\
  Conn.connections result.1.1 !! 2%nat = Some Examples.garbled /\
  ~ (forall connID tracker,
       Conn.connections Examples.factory !! connID = Some tracker ->
       (Conn.IsComplete tracker).2.1.1.1.1 = true ->
       (Conn.IsComplete tracker).2.1.1.1.2 <> [] ->
       (Conn.IsComplete tracker).2.1.1.2 <> [] ->
       (exists tc, tc ∈ result.1.2 /\
                   Conn.Req_Timestamp (Conn.HttpReq_ tc) = (Conn.IsComplete tracker).2.1.2) /\
       Conn.connections result.1.1 !! connID = None).
Proof.
  cbv zeta.
  assert (E1 : Conn.connections Examples.factory !! 1%nat = Some Examples.exchange)
    by (vm_compute; reflexivity).
  repeat (split; [first [discriminate | vm_compute; reflexivity] |]).
  intros Hall.
  assert (Hgone : Conn.connections
                    (Conn.ProcessActiveTrackers Examples.never Examples.at7
                       [1; 2; 3]%nat Examples.factory).1.1 !! 1%nat = None).
  { apply (Hall 1%nat Examples.exchange E1); [reflexivity | discriminate | discriminate]. }
  vm_compute in Hgone. discriminate Hgone.
Qed.

(** What the sweep does do.  With the context never done and [order] an
    iteration order of the registry: every tracker that is complete with
    two non-empty buffers which parse, and whose bodies can be read, has
    had its test case sent; every tracker that is not complete and is
    inactive is no longer registered; and the loop itself removes nothing,
    the registry afterwards being the one the loop leaves minus the
    connections it collected in [trackersToDelete]. *)
Theorem ProcessActiveTrackers_sweep
        {ConnID : Type} `{Countable ConnID}
        {Tracker Time : Type} `{Conn.Deps Tracker Time}
        (ctxDone : nat -> bool) (clock : ConnID -> Z) (order : list ConnID)
        (factory : Conn.Factory ConnID Tracker) :
  (forall i, ctxDone i = false) ->
  Conn.iterates order (Conn.connections factory) ->
  (forall connID tracker tracker' rq rs t1 t2 req resp,
      Conn.connections factory !! connID = Some tracker ->
      Conn.IsComplete tracker = (tracker', (true, rq, rs, t1, t2)) ->
      rq <> [] -> rs <> [] ->
      Conn.ParseHTTPRequest rq = Some req ->
      Conn.ParseHTTPResponse rs req = Some resp ->
      is_Some (Conn.ReqBody req) -> is_Some (Conn.RespBody resp) ->
      exists tc,
        Conn.capture (clock connID) req resp t1 t2 = ([tc], []) /\
        tc ∈ (Conn.ProcessActiveTrackers ctxDone clock order factory).1.2) /\
  (forall connID tracker tracker' rq rs t1 t2,
      Conn.connections factory !! connID = Some tracker ->
      Conn.IsComplete tracker = (tracker', (false, rq, rs, t1, t2)) ->
      Conn.IsInactive tracker' (Conn.inactivityThreshold factory) = true ->
      Conn.connections (Conn.ProcessActiveTrackers ctxDone clock order factory).1.1
        !! connID = None) /\
  (exists s,
      Conn.rangeConnections ctxDone clock (Conn.inactivityThreshold factory) 0 order
        {| Conn.conns := Conn.connections factory; Conn.trackersToDelete := [];
           Conn.sent := []; Conn.logs := [] |} = (false, s) /\
      dom (Conn.conns s) = dom (Conn.connections factory) /\
      Conn.connections (Conn.ProcessActiveTrackers ctxDone clock order factory).1.1
        = Conn.deleteAll (Conn.trackersToDelete s) (Conn.conns s)).
Proof.
  intros Hctx [Hnd Hkeys].
  destruct (range_never clock (Conn.inactivityThreshold factory) ctxDone
              (Conn.connections factory) order 0
              {| Conn.conns := Conn.connections factory; Conn.trackersToDelete := [];
                 Conn.sent := []; Conn.logs := [] |} Hctx Hnd)
    as (s & Hrun & Hdom & _ & _ & Hall); [reflexivity | reflexivity |].
  unfold Conn.ProcessActiveTrackers. rewrite Hrun. cbn [fst snd Conn.connections].
  split; [| split].
  - intros connID tracker tracker' rq rs t1 t2 req resp Hm Hc Hrq Hrs Hreq Hresp Hrb Hpb.
    destruct (process_complete (Conn.inactivityThreshold factory) (clock connID)
                tracker' rq rs t1 t2 req resp Hrq Hrs Hreq Hresp Hrb Hpb)
      as (tc & Hcap & Hproc).
    exists tc. split; [exact Hcap |].
    apply (Hall connID tracker tracker' [tc] [] false).
    + apply Hkeys. eauto.
    + exact Hm.
    + unfold Conn.outcome. now rewrite Hc, Hproc.
    + left.
  - intros connID tracker tracker' rq rs t1 t2 Hm Hc Hin.
    rewrite deleteAll_lookup. rewrite decide_True; [reflexivity |].
    apply (Hall connID tracker tracker' [] [] true).
    + apply Hkeys. eauto.
    + exact Hm.
    + unfold Conn.outcome. rewrite Hc. now rewrite process_inactive.
    + reflexivity.
  - exists s. repeat split; assumption.
Qed.

(** In the registry of the examples, connection 1 is captured and the idle
    connection 3 is swept. *)
Lemma ProcessActiveTrackers_sweep_witness :
  Examples.helloCase ∈
    (Conn.ProcessActiveTrackers
       Examples.never Examples.at7 [1; 2; 3]%nat Examples.factory).1.2 /\
  Conn.connections
    (Conn.ProcessActiveTrackers
       Examples.never Examples.at7 [1; 2; 3]%nat Examples.factory).1.1 !! 3%nat = None.
Proof.
  assert (Hit : Conn.iterates [1; 2; 3]%nat (Conn.connections Examples.factory)).
  { split.
    - repeat constructor; rewrite ?elem_of_cons, ?elem_of_nil; lia.
    - intros k. rewrite !elem_of_cons, elem_of_nil.
      change (Conn.connections Examples.factory) with Examples.registry.
      unfold Examples.registry. rewrite !lookup_insert, lookup_empty.
      repeat case_decide; subst; split; intros Hk;
        try (eexists; reflexivity); try lia;
        try (destruct Hk as [? Hk]; discriminate). }
  destruct (ProcessActiveTrackers_sweep
              Examples.never Examples.at7 [1; 2; 3]%nat Examples.factory
              (fun _ => eq_refl) Hit) as (Hsent & Hgone & _).
  split.
  - destruct (Hsent 1%nat Examples.exchange Examples.exchange
                (Examples.reqBuf Examples.exchange) (Examples.respBuf Examples.exchange)
                100 200
                {| Conn.Method := "GET"; Conn.ProtoMajor := 1; Conn.ProtoMinor := 1;
                   Conn.Host := "x"; Conn.RequestURI := "/hello";
                   Conn.ReqHeader := ∅; Conn.ReqBody := Some ""%string |}
                {| Conn.StatusCode := 200; Conn.RespHeader := ∅;
                   Conn.RespBody := Some "hello"%string |})
      as (tc & Hcap & Hin);
      try reflexivity; try discriminate; try (eexists; reflexivity).
    injection Hcap as <-. exact Hin.
  - apply (Hgone 3%nat Examples.stale Examples.stale
             (Examples.reqBuf Examples.stale) (Examples.respBuf Examples.stale) 10 0);
      reflexivity.
Defined.

(** C3. Every test case [ProcessActiveTrackers] sends comes from a tracker
    of the registry that reported itself complete with a non-empty request
    buffer and a non-empty response buffer, and carries the request and the
    response timestamp that tracker reported. *)
Theorem ProcessActiveTrackers_sent_originates
        {ConnID : Type} `{Countable ConnID}
        {Tracker Time : Type} `{Conn.Deps Tracker Time}
        (ctxDone : nat -> bool) (clock : ConnID -> Z) (order : list ConnID)
        (factory : Conn.Factory ConnID Tracker) (tc : Conn.TestCase Time) :
  NoDup order ->
  tc ∈ (Conn.ProcessActiveTrackers ctxDone clock order factory).1.2 ->
  Conn.originates (Conn.connections factory) tc.
Proof.
  intros Hnd Hin.
  apply (range_sent clock (Conn.inactivityThreshold factory) ctxDone
           (Conn.connections factory) order 0
           {| Conn.conns := Conn.connections factory; Conn.trackersToDelete := [];
              Conn.sent := []; Conn.logs := [] |} Hnd).
  - reflexivity.
  - intros tc' Habs. now apply elem_of_nil in Habs.
  - unfold Conn.ProcessActiveTrackers in Hin.
    destruct (Conn.rangeConnections _ _ _ _ _ _) as [[|] s]; exact Hin.
Qed.

Lemma ProcessActiveTrackers_sent_originates_witness :
  Conn.originates
    (Conn.connections Examples.factory) Examples.helloCase.
Proof.
  apply (ProcessActiveTrackers_sent_originates
           Examples.never Examples.at7 [1; 2; 3]%nat Examples.factory).
  - repeat constructor; rewrite ?elem_of_cons, ?elem_of_nil; lia.
  - vm_compute. left.
Defined.

(** ** package replay: the test loop of RunTestSet *)

Section TestLoopFacts.
Context {Time Result : Type} `{Replay.Deps Time Result}.
Variable cfg : Replay.Config.
Variable testSetId : string.

Implicit Types (e : Replay.TcEnv Time) (l : Replay.Loop Time Result).

Lemma selectExit_counters e l :
  Replay.inserted (Replay.selectExit e l) = Replay.inserted l /\
  Replay.success (Replay.selectExit e l) = Replay.success l /\
  Replay.failure (Replay.selectExit e l) = Replay.failure l.
Proof.
  unfold Replay.selectExit.
  destruct (Replay.exitLoop e) as [sg |]; [| auto].
  destruct (Replay.statusBySignal sg); auto.
Qed.

Lemma selectExit_not_running e l :
  Replay.testSetStatus l <> Replay.TestSetStatusRunning ->
  Replay.testSetStatus (Replay.selectExit e l) <> Replay.TestSetStatusRunning.
Proof.
  unfold Replay.selectExit. intros Hl.
  destruct (Replay.exitLoop e) as [[| [] |] |]; cbn; try assumption; discriminate.
Qed.

(** The loop body never stores the status "running". *)
Lemma iteration_not_running e testCase l :
  Replay.testSetStatus l <> Replay.TestSetStatusRunning ->
  Replay.testSetStatus (Replay.iteration cfg testSetId e testCase l).2
    <> Replay.TestSetStatusRunning.
Proof.
  intros Hl. apply (selectExit_not_running e) in Hl.
  unfold Replay.iteration.
  destruct (Replay.getFilteredMocks e); [discriminate |].
  destruct (Replay.getUnFilteredMocks e); [discriminate |].
  destruct (Replay.setMocks e); [discriminate |].
  destruct (Replay.SimulateRequest cfg e testCase) as [[tc' resp] [err |]];
    [discriminate |].
  destruct (Replay.compareResp tc' resp testSetId) as [testPass [res |]];
    [| discriminate].
  destruct (Replay.insertTestCaseResult e); [discriminate |].
  destruct testPass; cbn; [exact Hl | discriminate].
Qed.

Lemma testLoop_not_running envs testCases : forall i l,
  Replay.testSetStatus l <> Replay.TestSetStatusRunning ->
  Replay.testSetStatus (Replay.testLoop cfg testSetId envs i testCases l).2
    <> Replay.TestSetStatusRunning.
Proof.
  induction testCases as [| tc rest IH]; intros i l Hl; cbn [Replay.testLoop].
  - exact Hl.
  - pose proof (iteration_not_running (envs i) tc l Hl) as Hit.
    destruct (Replay.iteration cfg testSetId (envs i) tc l) as [[|] l'];
      [exact Hit | now apply IH].
Qed.

(** The loop over a list in two parts: when the first part does not
    break, the loop goes on with the second part at the next index. *)
Lemma testLoop_app envs pre suf : forall i l n l1,
  Replay.testLoop cfg testSetId envs i pre l = (false, n, l1) ->
  n = (i + length pre)%nat /\
  Replay.testLoop cfg testSetId envs i (pre ++ suf) l =
  Replay.testLoop cfg testSetId envs n suf l1.
Proof.
  induction pre as [| tc pre IH]; intros i l n l1; cbn [Replay.testLoop app].
  - intros E. injection E as <- <-. split; [cbn; lia | reflexivity].
  - destruct (Replay.iteration cfg testSetId (envs i) tc l) as [[|] l'];
      [discriminate |].
    intros E. destruct (IH _ _ _ _ E) as [-> Happ].
    split; [cbn; lia | exact Happ].
Qed.

(** A request that cannot be simulated: the body breaks with the status
    "user abort" and hands nothing to [InsertTestCaseResult]. *)
Lemma iteration_simulate_error e testCase l tc' resp err :
  Replay.getFilteredMocks e = None ->
  Replay.getUnFilteredMocks e = None ->
  Replay.setMocks e = None ->
  Replay.SimulateRequest cfg e testCase = (tc', resp, Some err) ->
  Replay.iteration cfg testSetId e testCase l =
  (true, Replay.setStatus Replay.TestSetStatusUserAbort (Replay.selectExit e l)).
Proof.
  intros H1 H2 H3 Hsim. unfold Replay.iteration.
  now rewrite H1, H2, H3, Hsim.
Qed.

End TestLoopFacts.



(** ** package replay: RunTestSet and Start *)

Section RunTestSetFacts.
Context {Time Result : Type} `{Replay.Deps Time Result}.
Variable cfg : Replay.Config.

(** [RunTestSet] never returns the status "running". *)
Lemma RunTestSet_not_running (env : Replay.Env Time Result) testSetId g :
  Replay.status (Replay.RunTestSet cfg env testSetId g)
    <> Replay.TestSetStatusRunning.
Proof.
  unfold Replay.RunTestSet.
  destruct (Replay.getTestCases env) as [testCases | e]; [| discriminate].
  destruct (Replay.len testCases =? 0); [discriminate |].
  destruct (Replay.getFilteredMocks0 env); [discriminate |].
  destruct (Replay.getUnFilteredMocks0 env); [discriminate |].
  destruct (Replay.setMocks0 env); [discriminate |].
  destruct (Replay.insertReport0 env); [discriminate |].
  pose proof (testLoop_not_running cfg testSetId (Replay.tcEnv env) testCases 0
                {| Replay.testSetStatus := Replay.TestSetStatusPassed;
                   Replay.success := 0; Replay.failure := 0;
                   Replay.inserted := [] |}) as Hloop.
  destruct (Replay.testLoop _ _ _ _ _ _) as [[brk n] l].
  cbn [snd] in Hloop.
  destruct (Replay.getTestCaseResults env) as [fetched [e |]];
    destruct (Replay.insertReport env); try discriminate;
    destruct (Replay.errGrpWait env); try discriminate; cbn.
  - destruct (Replay.ctxErrIsCanceled env); cbn; [apply Hloop |]; discriminate.
  - apply Hloop. discriminate.
Qed.

(** The loop over the test sets: when it ends without abort, the flag
    [testRunResult] tells whether all test sets run ended "passed". *)
Lemma testSetLoop_verdict envs testSetIds : forall i tsr trr g ex fin g' ex',
  (trr = true <-> Replay.allPassed ex) ->
  Replay.testSetLoop cfg envs i testSetIds tsr trr g ex = (fin, g', ex') ->
  match fin with
  | Replay.Finished false v => v = true <-> Replay.allPassed ex'
  | _ => True
  end.
Proof.
  induction testSetIds as [| testSetId rest IH]; intros i tsr trr g ex fin g' ex' Hinv;
    cbn [Replay.testSetLoop].
  - intros E. injection E as <- _ <-. exact Hinv.
  - pose proof (RunTestSet_not_running (envs i) testSetId g) as Hnr.
    destruct (Replay.err (Replay.RunTestSet cfg (envs i) testSetId g));
      [intros E; injection E as <- _ _; exact I |].
    destruct (Replay.status (Replay.RunTestSet cfg (envs i) testSetId g)) eqn:Hst;
      try (intros E; injection E as <- _ _; exact I).
    + contradiction.
    + apply IH. rewrite andb_false_r. split; [discriminate |].
      intros Hall. apply Forall_app in Hall as [_ Hall].
      apply Forall_cons_1 in Hall as [D _]. discriminate.
    + apply IH. rewrite andb_true_r. rewrite Hinv. unfold Replay.allPassed.
      rewrite Forall_app. split; [intros Hex; split; [exact Hex | now repeat constructor] | tauto].
Qed.

(** How the loop over the test sets ends, read off the statuses: it
    finishes without abort only when every test set run ended "passed" or
    "failed"; otherwise the last status is the one that ended it. *)
Lemma testSetLoop_end envs testSetIds : forall i tsr trr g ex fin g' ex',
  Replay.noneAborted ex ->
  Replay.testSetLoop cfg envs i testSetIds tsr trr g ex = (fin, g', ex') ->
  match fin with
  | Replay.Finished false _ => Replay.noneAborted ex'
  | Replay.Finished true _ | Replay.Returned None _ => ~ Replay.noneAborted ex'
  | Replay.Returned (Some _) _ => True
  end.
Proof.
  assert (Hlast : forall ex (st : Replay.TestSetStatus),
             st <> Replay.TestSetStatusPassed -> st <> Replay.TestSetStatusFailed ->
             ~ Replay.noneAborted (ex ++ [st])).
  { intros ex st H1 H2 Hall. apply Forall_app in Hall as [_ Hall].
    apply Forall_cons_1 in Hall as [[D | D] _]; contradiction. }
  induction testSetIds as [| testSetId rest IH]; intros i tsr trr g ex fin g' ex' Hinv;
    cbn [Replay.testSetLoop].
  - intros E. injection E as <- _ <-. exact Hinv.
  - pose proof (RunTestSet_not_running (envs i) testSetId g) as Hnr.
    destruct (Replay.err (Replay.RunTestSet cfg (envs i) testSetId g));
      [intros E; injection E as <- _ _; exact I |].
    destruct (Replay.status (Replay.RunTestSet cfg (envs i) testSetId g)) eqn:Hst;
      try (intros E; injection E as <- _ <-; apply Hlast; discriminate).
    + contradiction.
    + apply IH. apply Forall_app. split; [exact Hinv |].
      constructor; [now right | constructor].
    + apply IH. apply Forall_app. split; [exact Hinv |].
      constructor; [now left | constructor].
Qed.

(** The loop over a list of test sets that ends without abort goes on
    with what follows the list. *)
Lemma testSetLoop_app envs pre : forall i tsr trr g ex trr0 g0 ex0,
  Replay.testSetLoop cfg envs i pre tsr trr g ex
    = (Replay.Finished false trr0, g0, ex0) ->
  exists tsr0, forall rest,
    Replay.testSetLoop cfg envs i (pre ++ rest) tsr trr g ex
    = Replay.testSetLoop cfg envs (i + length pre)%nat rest tsr0 trr0 g0 ex0.
Proof.
  induction pre as [| testSetId pre IH]; intros i tsr trr g ex trr0 g0 ex0;
    cbn [Replay.testSetLoop app length].
  - intros E. injection E as <- <- <-. exists tsr. intros rest.
    rewrite Nat.add_0_r. reflexivity.
  - rewrite Nat.add_succ_r.
    destruct (Replay.err (Replay.RunTestSet cfg (envs i) testSetId g));
      [discriminate |].
    destruct (Replay.status (Replay.RunTestSet cfg (envs i) testSetId g));
      try discriminate; apply IH.
Qed.

(** The loop returns an error exactly at the first test set whose
    [RunTestSet] returns one, the test sets before it having ended
    "passed" or "failed". *)
Lemma testSetLoop_error_at envs testSetIds : forall i tsr trr g ex e reason g' ex',
  Replay.testSetLoop cfg envs i testSetIds tsr trr g ex
    = (Replay.Returned (Some e) reason, g', ex') ->
  exists pre testSetId rest trr0 g0 ex0 e0,
    testSetIds = pre ++ testSetId :: rest /\
    Replay.testSetLoop cfg envs i pre tsr trr g ex
      = (Replay.Finished false trr0, g0, ex0) /\
    Replay.err (Replay.RunTestSet cfg (envs (i + length pre)%nat) testSetId g0)
      = Some e0 /\
    e = Replay.Err ("failed to run test set: " +:+ Replay.Error e0).
Proof.
  induction testSetIds as [| testSetId rest IH]; intros i tsr trr g ex e reason g' ex';
    cbn [Replay.testSetLoop]; [discriminate |].
  destruct (Replay.err (Replay.RunTestSet cfg (envs i) testSetId g)) as [e0 |] eqn:Herr.
  { intros E. injection E as <- _ _ _.
    exists [], testSetId, rest, trr, g, ex, e0.
    cbn [app length Replay.testSetLoop]. rewrite Nat.add_0_r. auto. }
  destruct (Replay.status (Replay.RunTestSet cfg (envs i) testSetId g)) eqn:Hst;
    try discriminate; intros E;
    apply IH in E as (pre & x & rest' & trr0 & g0 & ex0 & e0 & -> & Hpre & He0 & ->);
    exists (testSetId :: pre), x, rest', trr0, g0, ex0, e0;
    cbn [app length Replay.testSetLoop]; rewrite Herr, Hst, Nat.add_succ_r;
    auto.
Qed.

End RunTestSetFacts.

(** C5 as written fails: a run whose only test set ends "failed" makes
    [Start] return nil, as a run of passing test sets does. *)
Lemma Start_returns_nil_on_failed_set :
  let r := Replay.Start Examples.config (Examples.oneSet Examples.differingSet)
             Examples.noGlobals Examples.ctxStart in
  Replay.statuses r = [Replay.TestSetStatusFailed] /\
  Replay.ret r = None /\
  Replay.summaryArg r = Some false.
Proof. cbv zeta. repeat split; vm_compute; reflexivity. Qed.

(** C5 (amended).  [Start] hands a verdict to [printSummary] exactly when
    it returns nil and every test set it ran ended "passed" or "failed" (the
    run was not aborted); the verdict is then true exactly when every test
    set ended "passed", and [printSummary] logs it as "passed overall" when
    at least one test was counted.  The value [Start] returns does not
    carry the verdict: it is an error exactly when booting failed, listing
    the test sets failed, or the call of [RunTestSet] for a test set of the
    list returned an error, the test sets before it having run without
    abort; otherwise it is nil, whatever the statuses. *)
Theorem Start_verdict
        {Time Result : Type} `{Replay.Deps Time Result}
        (cfg : Replay.Config) (e : Replay.StartEnv Time Result)
        (g : Replay.Globals) (c : Ctx.State) :
  let r := Replay.Start cfg e g c in
  (forall v, Replay.summaryArg r = Some v <->
             Replay.ret r = None /\ Replay.noneAborted (Replay.statuses r) /\
             (v = true <-> Replay.allPassed (Replay.statuses r))) /\
  (forall v, Replay.summaryArg r = Some v ->
             Replay.summary r
               = Replay.printSummary (Replay.rangeOrder e) (Replay.finalGlobals r) v /\
             (0 < Replay.totalTests (Replay.finalGlobals r) ->
              snd <$> Replay.summary r = Some v)) /\
  (Replay.summaryArg r = None -> Replay.summary r = None) /\
  (is_Some (Replay.ret r) <->
   (exists err, Replay.BootReplay e = Replay.Fail err) \/
   (exists err, Replay.getAllTestSetIds e = Replay.Fail err) \/
   (exists pre testSetId rest trr0 g0 ex0,
       Replay.getAllTestSetIds e = Replay.Ok (pre ++ testSetId :: rest) /\
       Replay.testSetLoop cfg (Replay.runEnv e) 0 pre false true g []
         = (Replay.Finished false trr0, g0, ex0) /\
       is_Some (Replay.err
                  (Replay.RunTestSet cfg (Replay.runEnv e (length pre)) testSetId g0)))).
Proof.
  cbv zeta. unfold Replay.Start.
  destruct (Replay.BootReplay e) as [[testRunId appId] | err] eqn:Hboot.
  2:{ cbn. split; [| split; [| split]].
      - intros v. split; [discriminate | intros [D _]; discriminate].
      - discriminate.
      - reflexivity.
      - split; [intros _; left; eauto | eauto]. }
  destruct (Replay.getAllTestSetIds e) as [testSetIds | err] eqn:Hids.
  2:{ cbn. split; [| split; [| split]].
      - intros v. split; [discriminate | intros [D _]; discriminate].
      - discriminate.
      - reflexivity.
      - split; [intros _; right; left; eauto | eauto]. }
  destruct (Replay.testSetLoop cfg (Replay.runEnv e) 0 testSetIds false true g [])
    as [[fin g'] executed] eqn:Hloop.
  pose proof (testSetLoop_verdict cfg (Replay.runEnv e) testSetIds 0 false true g []
                fin g' executed) as Hverdict.
  pose proof (testSetLoop_end cfg (Replay.runEnv e) testSetIds 0 false true g []
                fin g' executed) as Hend.
  assert (Herrs : (exists pre testSetId rest trr0 g0 ex0,
                      Replay.Ok testSetIds = Replay.Ok (pre ++ testSetId :: rest) /\
                      Replay.testSetLoop cfg (Replay.runEnv e) 0 pre false true g []
                        = (Replay.Finished false trr0, g0, ex0) /\
                      is_Some (Replay.err
                                 (Replay.RunTestSet cfg (Replay.runEnv e (length pre))
                                    testSetId g0))) ->
                  exists x r0, fin = Replay.Returned (Some x) r0).
  { intros (pre & testSetId & rest & trr0 & g0 & ex0 & E & Hpre & [e0 He0]).
    injection E as ->.
    destruct (testSetLoop_app cfg (Replay.runEnv e) pre 0 false true g []
                trr0 g0 ex0 Hpre) as [tsr0 Happ].
    rewrite (Happ (testSetId :: rest)) in Hloop.
    cbn [Replay.testSetLoop Nat.add] in Hloop. rewrite He0 in Hloop.
    injection Hloop as <- _ _. eauto. }
  assert (Hinit : Replay.noneAborted []) by constructor.
  assert (Hinit' : true = true <-> Replay.allPassed [])
    by (split; [constructor | reflexivity]).
  specialize (Hend Hinit Hloop). specialize (Hverdict Hinit' Hloop).
  destruct fin as [ret reason | abortTestRun testRunResult]; cbn.
  - split; [| split; [| split]].
    + intros v. split; [discriminate |].
      intros (-> & Hall & _). contradiction.
    + discriminate.
    + reflexivity.
    + split.
      * intros [x ->]. right; right.
        destruct (testSetLoop_error_at cfg (Replay.runEnv e) testSetIds 0 false true
                    g [] x reason g' executed Hloop)
          as (pre & testSetId & rest & trr0 & g0 & ex0 & e0 & -> & Hpre & He0 & _).
        exists pre, testSetId, rest, trr0, g0, ex0.
        cbn [Nat.add] in He0.
        split; [reflexivity |]. split; [exact Hpre |]. rewrite He0. eauto.
      * intros [[err D] | [[err D] | Hex]]; try discriminate.
        destruct (Herrs Hex) as (x & r0 & E). injection E as -> _. eauto.
  - split; [| split; [| split]].
    + intros v. destruct abortTestRun.
      * split; [discriminate |]. intros (_ & Hall & _). contradiction.
      * split.
        -- intros E. injection E as <-. auto.
        -- intros (_ & _ & Hv). f_equal.
           destruct v, testRunResult; try reflexivity.
           ++ apply Hverdict, Hv. reflexivity.
           ++ symmetry. apply Hv, Hverdict. reflexivity.
    + intros v. destruct abortTestRun; [discriminate |].
      intros E. injection E as <-. split; [reflexivity |].
      intros Hlt. unfold Replay.printSummary.
      destruct (Z.ltb_spec 0 (Replay.totalTests g')); [reflexivity | lia].
    + destruct abortTestRun; [reflexivity | discriminate].
    + split; [intros [x D]; discriminate |].
      intros [[err D] | [[err D] | Hex]]; try discriminate.
      destruct (Herrs Hex) as (x & r0 & D). discriminate.
Qed.

(** C10 as written fails: the request of the only test case is refused, so
    [SimulateRequest] returns an error; fetching the stored results then
    fails while the context is not cancelled, and the final report carries
    "internal error", not "user abort". *)
Lemma RunTestSet_refused_reports_internal_error :
  let r := Replay.RunTestSet Examples.config Examples.refusedSet "test-set-0"
             Examples.noGlobals in
  Replay.SimulateRequest Examples.config (Replay.tcEnv Examples.refusedSet 0)
    (Examples.getHello "test-1")
  = (Examples.getHello "test-1", None, Some (Replay.Err "connection refused")) /\
  Replay.Rep_Status <$> Replay.finalReport r = Some Replay.TestSetStatusInternalErr /\
  Replay.Rep_Status <$> Replay.finalReport r <> Some Replay.TestSetStatusUserAbort.
Proof. cbv zeta. repeat split; try (vm_compute; reflexivity). vm_compute. discriminate. Qed.

(** C10 (amended).  When [SimulateRequest] returns an error for a test case
    the loop reached, the loop enters no further test case, nothing is
    handed to [InsertTestCaseResult] for this test case, and the final
    report carries the status "user abort", unless fetching the test case
    results afterwards fails while the context of the test set is not
    cancelled: then it carries "internal error". *)
Theorem RunTestSet_simulate_error
        {Time Result : Type} `{Replay.Deps Time Result}
        (cfg : Replay.Config) (env : Replay.Env Time Result)
        (testSetId : string) (g : Replay.Globals)
        (pre : list (Replay.TestCase Time)) (testCase : Replay.TestCase Time)
        (rest : list (Replay.TestCase Time))
        (n : nat) (l1 : Replay.Loop Time Result)
        (tc' : Replay.TestCase Time) (resp : option (Replay.HttpResp Time))
        (err : Replay.error) :
  Replay.getTestCases env = Replay.Ok (pre ++ testCase :: rest) ->
  Replay.getFilteredMocks0 env = None ->
  Replay.getUnFilteredMocks0 env = None ->
  Replay.setMocks0 env = None ->
  Replay.insertReport0 env = None ->
  Replay.testLoop cfg testSetId (Replay.tcEnv env) 0 pre
    {| Replay.testSetStatus := Replay.TestSetStatusPassed; Replay.success := 0;
       Replay.failure := 0; Replay.inserted := [] |} = (false, n, l1) ->
  Replay.getFilteredMocks (Replay.tcEnv env n) = None ->
  Replay.getUnFilteredMocks (Replay.tcEnv env n) = None ->
  Replay.setMocks (Replay.tcEnv env n) = None ->
  Replay.SimulateRequest cfg (Replay.tcEnv env n) testCase = (tc', resp, Some err) ->
  Replay.entered (Replay.RunTestSet cfg env testSetId g) = S (length pre) /\
  Replay.results (Replay.RunTestSet cfg env testSetId g) = Replay.inserted l1 /\
  exists rep,
    Replay.finalReport (Replay.RunTestSet cfg env testSetId g) = Some rep /\
    Replay.Rep_Status rep =
      match (Replay.getTestCaseResults env).2 with
      | Some _ => if Replay.ctxErrIsCanceled env then Replay.TestSetStatusUserAbort
                  else Replay.TestSetStatusInternalErr
      | None => Replay.TestSetStatusUserAbort
      end.
Proof.
  intros Htcs Hf0 Hu0 Hs0 Hi0 Hpre Hf Hu Hs Hsim.
  unfold Replay.RunTestSet. rewrite Htcs, Hf0, Hu0, Hs0, Hi0.
  assert (Hlen : (Replay.len (pre ++ testCase :: rest) =? 0) = false).
  { apply Z.eqb_neq. unfold Replay.len. rewrite length_app. cbn [length]. lia. }
  rewrite Hlen.
  destruct (testLoop_app cfg testSetId (Replay.tcEnv env) pre (testCase :: rest)
              _ _ _ _ Hpre) as [Hn Happ].
  rewrite Happ. cbn [Replay.testLoop].
  rewrite (iteration_simulate_error cfg testSetId _ _ _ tc' resp err Hf Hu Hs Hsim).
  destruct (selectExit_counters (Replay.tcEnv env n) l1) as (Hins & _ & _).
  destruct (Replay.getTestCaseResults env) as [fetched [e |]];
    destruct (Replay.ctxErrIsCanceled env);
    destruct (Replay.insertReport env);
    destruct (Replay.errGrpWait env);
    cbn; rewrite Hins, Hn; (split; [f_equal; lia |]); (split; [reflexivity |]);
    eexists; (split; [reflexivity |]); reflexivity.
Qed.

(** The refused request of the examples: the loop stops at the first test
    case and the report carries "internal error", the fetch having failed. *)
Lemma RunTestSet_simulate_error_witness :
  Replay.entered (Replay.RunTestSet Examples.config Examples.refusedSet "test-set-0"
                    Examples.noGlobals) = 1%nat /\
  Replay.results (Replay.RunTestSet Examples.config Examples.refusedSet "test-set-0"
                    Examples.noGlobals) = [] /\
  exists rep,
    Replay.finalReport (Replay.RunTestSet Examples.config Examples.refusedSet
                          "test-set-0" Examples.noGlobals) = Some rep /\
    Replay.Rep_Status rep = Replay.TestSetStatusInternalErr.
Proof.
  apply (RunTestSet_simulate_error Examples.config Examples.refusedSet "test-set-0"
           Examples.noGlobals [] (Examples.getHello "test-1") [] 0 Examples.loopStart
           (Examples.getHello "test-1") None (Replay.Err "connection refused"));
    reflexivity.
Defined.

(* ===================================================================== *)
(** * Further properties of the code *)
(* ===================================================================== *)

(** ** utils/ctx.go: SetCancel and Stop together *)

(** X1. Once [SetCancel] has stored a cancel function, [Stop] with a logger
    and a reason returns nil and invokes that function; [Stop] does not
    touch the stored function, so stopping again returns nil again and
    invokes the same function once more. *)
Theorem SetCancel_Stop_twice (c : nat) (reason reason' : string) (s : Ctx.State) :
  reason <> ""%string -> reason' <> ""%string ->
  let s0 := Ctx.SetCancel (Some c) s in
  let r1 := Ctx.Stop Ctx.SomeLogger reason s0 in
  let r2 := Ctx.Stop Ctx.SomeLogger reason' r1.2 in
  r1.1 = None /\ r2.1 = None /\
  Ctx.cancel r2.2 = Some c /\
  Ctx.cancelCalls r2.2 = c :: c :: Ctx.cancelCalls s.
Proof.
  intros Hr Hr'. cbv zeta.
  destruct (Stop_calls_cancel c reason (Ctx.SetCancel (Some c) s) eq_refl Hr)
    as [E1 C1].
  assert (Hc : Ctx.cancel (Ctx.Stop Ctx.SomeLogger reason
                             (Ctx.SetCancel (Some c) s)).2 = Some c).
  { unfold Ctx.Stop. cbn [Ctx.SetCancel Ctx.cancel].
    destruct (String.eqb reason ""); reflexivity. }
  destruct (Stop_calls_cancel c reason' _ Hc Hr') as [E2 C2].
  repeat split; try assumption.
  - unfold Ctx.Stop at 1. rewrite Hc.
    destruct (String.eqb_spec reason' "") as [D | _]; [contradiction | exact Hc].
  - rewrite C2, C1. reflexivity.
Qed.

Lemma SetCancel_Stop_twice_witness :
  let s0 := Ctx.SetCancel (Some 7%nat) Examples.ctxStart in
  let r1 := Ctx.Stop Ctx.SomeLogger "done" s0 in
  let r2 := Ctx.Stop Ctx.SomeLogger "again" r1.2 in
  r1.1 = None /\ r2.1 = None /\
  Ctx.cancel r2.2 = Some 7%nat /\
  Ctx.cancelCalls r2.2 = [7%nat; 7%nat].
Proof.
  apply (SetCancel_Stop_twice 7 "done" "again" Examples.ctxStart); discriminate.
Defined.

(** ** The mongo integration: more on recordMessage *)

Lemma recordMessage_repeat_witness :
  exists cfg2,
    Mongo.recordMessage (H := Examples.mongoDeps) (Time := Z) (MongoResponse := unit)
      [Examples.helloQuery] [] "hello"%string 8 9 10 [""; "{hello:true}"]%string
    = Some (cfg2, []).
Proof.
  apply (recordMessage_repeat (H := Examples.mongoDeps) "hello"%string
           Examples.helloQuery [] [] [] 5 8 7 10 6 9 [""%string]
           [""; "{hello:true}"]%string
           [ {| Mongo.Version := "api.keploy.io/v1beta1"; Mongo.Kind := "Mongo";
                Mongo.Name := "mocks";
                Mongo.Spec :=
                  {| Mongo.Metadata :=
                       <["type"%string := "config"%string]>
                         {[ "operation"%string := "hello"%string ]};
                     Mongo.MongoRequests := [Examples.helloQuery];
                     Mongo.MongoResponses := [];
                     Mongo.Created := 6;
                     Mongo.ReqTimestampMock := 5;
                     Mongo.ResTimestampMock := 7 |} |} ]).
  - repeat constructor. vm_compute. eauto.
  - reflexivity.
  - discriminate.
  - reflexivity.
Defined.

Section RecordMessageMore.
Context {Time Operation MongoResponse : Type} `{Mongo.Deps Operation}.
Variable opReq : Operation.

Lemma visit_appends v req b cfg b' cfg' :
  Mongo.visit opReq v req (b, cfg) = Some (b', cfg') ->
  exists extra, cfg' = cfg ++ extra.
Proof.
  unfold Mongo.visit.
  destruct (Mongo.Opcode (Mongo.Header req)), (Mongo.ReqMessage req) as [q | [| s0 ss] |];
    try discriminate;
    match goal with
    | |- context [String.eqb ?a ?b] => destruct (String.eqb a b)
    end;
    intros E; injection E as <- <-;
    first [exists []; now rewrite app_nil_r | eexists; reflexivity].
Qed.

Lemma forRange_appends {A} (body : A -> bool * list string -> option (bool * list string))
      (xs : list A) :
  (forall x b cfg b' cfg', body x (b, cfg) = Some (b', cfg') ->
                           exists extra, cfg' = cfg ++ extra) ->
  forall b cfg b' cfg',
    Mongo.forRange body xs (b, cfg) = Some (b', cfg') ->
    exists extra, cfg' = cfg ++ extra.
Proof.
  intros Hbody. induction xs as [| x xs IH]; intros b cfg b' cfg'; cbn [Mongo.forRange].
  - intros E. injection E as <- <-. exists []. now rewrite app_nil_r.
  - destruct (body x (b, cfg)) as [[b1 cfg1] |] eqn:Hx; [| discriminate].
    intros Hrest.
    destruct (Hbody _ _ _ _ _ Hx) as [e1 ->].
    destruct (IH _ _ _ _ Hrest) as [e2 ->].
    exists (e1 ++ e2). now rewrite app_assoc.
Qed.

Lemma scanConfig_appends reqs cfg b' cfg' :
  Mongo.scanConfig opReq reqs cfg = Some (b', cfg') ->
  exists extra, cfg' = cfg ++ extra.
Proof.
  unfold Mongo.scanConfig. apply forRange_appends.
  intros v b c b1 c1. apply forRange_appends.
  intros req. apply visit_appends.
Qed.

End RecordMessageMore.

(** X3. A heartbeat none of whose payloads is in [configRequests] yet is
    sent as exactly one mock: it carries type = config, the printed
    operation and the requests, and afterwards every payload of the
    heartbeat is in [configRequests]. *)
Theorem recordMessage_first_heartbeat
        {Time Operation MongoResponse : Type} `{Mongo.Deps Operation}
        (r0 : Mongo.MongoRequest) (rest : list Mongo.MongoRequest)
        (mongoResponses : list MongoResponse) (opReq : Operation)
        (reqTimestampMock : Time) (nowUnix : Z) (now : Time)
        (configRequests : list string) :
  Forall (Mongo.wellTyped opReq) (r0 :: rest) ->
  Mongo.isHeartBeat opReq (Mongo.Header r0) (Mongo.ReqMessage r0) = true ->
  configRequests <> [] ->
  (forall req p, req ∈ r0 :: rest -> Mongo.payload opReq req = Some p ->
                 p ∉ configRequests) ->
  exists configRequests' mock,
    Mongo.recordMessage (r0 :: rest) mongoResponses opReq reqTimestampMock
                        nowUnix now configRequests
      = Some (configRequests', [mock]) /\
    Mongo.Metadata (Mongo.Spec mock) !! "type"%string = Some "config"%string /\
    Mongo.Metadata (Mongo.Spec mock) !! "operation"%string
      = Some (Mongo.OpString opReq) /\
    Mongo.MongoRequests (Mongo.Spec mock) = r0 :: rest /\
    Mongo.ReqTimestampMock (Mongo.Spec mock) = reqTimestampMock /\
    (forall req p, req ∈ r0 :: rest -> Mongo.payload opReq req = Some p ->
                   p ∈ configRequests').
Proof.
  intros Hwt Hhb Hne Hfresh. unfold Mongo.recordMessage. rewrite Hhb.
  destruct (scanConfig_spec opReq (r0 :: rest) configRequests Hwt)
    as (b & cfg' & Hrun & Hb & _ & Hpay).
  rewrite Hrun. cbn [mbind option_bind].
  assert (b = true) as ->.
  { apply Hb. intros v req Hv Hreq Hp. apply (Hfresh req v Hreq Hp Hv). }
  eexists _, _. split; [reflexivity |]. cbn [Mongo.Spec Mongo.Metadata
    Mongo.MongoRequests Mongo.ReqTimestampMock].
  split; [apply lookup_insert_eq |].
  split; [rewrite lookup_insert_ne by discriminate; apply lookup_singleton_eq |].
  split; [reflexivity |]. split; [reflexivity |].
  now apply Hpay.
Qed.

Lemma recordMessage_first_heartbeat_witness :
  exists configRequests' mock,
    Mongo.recordMessage (H := Examples.mongoDeps) (Time := Z) (MongoResponse := unit)
      [Examples.helloQuery] [] "hello"%string 5 6 7 [""%string]
      = Some (configRequests', [mock]) /\
    Mongo.Metadata (Mongo.Spec mock) !! "type"%string = Some "config"%string /\
    Mongo.Metadata (Mongo.Spec mock) !! "operation"%string = Some "hello"%string /\
    Mongo.MongoRequests (Mongo.Spec mock) = [Examples.helloQuery] /\
    Mongo.ReqTimestampMock (Mongo.Spec mock) = 5 /\
    (forall req p, req ∈ [Examples.helloQuery] ->
                   Mongo.payload (H := Examples.mongoDeps) "hello"%string req = Some p ->
                   p ∈ configRequests').
Proof.
  apply (recordMessage_first_heartbeat (H := Examples.mongoDeps)
           Examples.helloQuery [] [] "hello"%string 5 6 7 [""%string]).
  - repeat constructor. vm_compute. eauto.
  - reflexivity.
  - discriminate.
  - intros req p Hreq Hp Hin.
    apply list_elem_of_singleton in Hreq as ->.
    vm_compute in Hp. injection Hp as <-.
    apply list_elem_of_singleton in Hin. discriminate.
Defined.

(** X4. [recordMessage] only ever appends to [configRequests]: whenever it
    returns, the new value starts with the old one. *)
Theorem recordMessage_appends
        {Time Operation MongoResponse : Type} `{Mongo.Deps Operation}
        (mongoRequests : list Mongo.MongoRequest)
        (mongoResponses : list MongoResponse) (opReq : Operation)
        (reqTimestampMock : Time) (nowUnix : Z) (now : Time)
        (configRequests configRequests' : list string)
        (mocks : list (Mongo.Mock Time MongoResponse)) :
  Mongo.recordMessage mongoRequests mongoResponses opReq reqTimestampMock
                      nowUnix now configRequests
    = Some (configRequests', mocks) ->
  exists extra, configRequests' = configRequests ++ extra.
Proof.
  unfold Mongo.recordMessage.
  destruct mongoRequests as [| r0 rest]; [discriminate |].
  destruct (Mongo.isHeartBeat opReq (Mongo.Header r0) (Mongo.ReqMessage r0)).
  - destruct (Mongo.scanConfig opReq (r0 :: rest) configRequests)
      as [[b cfg'] |] eqn:Hrun; [| discriminate].
    cbn [mbind option_bind]. intros E.
    destruct (scanConfig_appends opReq _ _ _ _ Hrun) as [extra ->].
    exists extra. destruct b; now injection E.
  - cbn [mbind option_bind]. intros E. injection E as <- _.
    exists []. now rewrite app_nil_r.
Qed.

Lemma recordMessage_appends_witness :
  exists extra, [""; "{hello:true}"]%string = [""%string] ++ extra.
Proof.
  apply (recordMessage_appends (H := Examples.mongoDeps) (Time := Z)
           (MongoResponse := unit)
           [Examples.helloQuery] [] "hello"%string 5 6 7 [""%string]
           [""; "{hello:true}"]%string
           [ {| Mongo.Version := "api.keploy.io/v1beta1"; Mongo.Kind := "Mongo";
                Mongo.Name := "mocks";
                Mongo.Spec :=
                  {| Mongo.Metadata :=
                       <["type"%string := "config"%string]>
                         {[ "operation"%string := "hello"%string ]};
                     Mongo.MongoRequests := [Examples.helloQuery];
                     Mongo.MongoResponses := [];
                     Mongo.Created := 6;
                     Mongo.ReqTimestampMock := 5;
                     Mongo.ResTimestampMock := 7 |} |} ]).
  reflexivity.
Defined.

(** ** package test: more on FilterTcsMocks *)

Section FilterMore.
Context {Time : Type} `{Filter.GoTime Time}.

Lemma filter_filter {A} (f : A -> bool) l :
  List.filter f (List.filter f l) = List.filter f l.
Proof.
  induction l as [| x l IH]; cbn [List.filter]; [reflexivity |].
  destruct (f x) eqn:E; [| exact IH].
  cbn [List.filter]. now rewrite E, IH.
Qed.

Lemma filter_sublist {A} (f : A -> bool) l : sublist (List.filter f l) l.
Proof.
  induction l as [| x l IH]; cbn [List.filter]; [constructor |].
  destruct (f x); now constructor.
Qed.

(** The window test the loop applies; see [Filter.inWindow]. *)
Lemma FilterTcsMocks_cases (tc : Filter.TestCase Time) m :
  fst (Filter.FilterTcsMocks tc m) = m \/
  fst (Filter.FilterTcsMocks tc m) = List.filter (Filter.inWindow tc) m.
Proof.
  unfold Filter.FilterTcsMocks.
  destruct (Filter.isZeroValue (Filter.Req_Timestamp (Filter.HttpReq_ tc))); [now left |].
  destruct (Filter.isZeroValue (Filter.Resp_Timestamp (Filter.HttpResp_ tc))); [now left |].
  right. cbn [fst]. now rewrite loop_filteredMocks.
Qed.

(** What the loop collects besides the filtered mocks. *)
Lemma loop_names (tc : Filter.TestCase Time) m : forall l,
  let l' := fold_left (Filter.body tc) m l in
  Filter.entMocks l' =
    Filter.entMocks l ++
    map Filter.MockName
      (List.filter (fun mock => String.eqb (Filter.Version mock)
                                  "api.keploy-enterprise.io/v1beta1") m) /\
  Filter.nonKeployMocks l' =
    Filter.nonKeployMocks l ++
    map Filter.MockName
      (List.filter (fun mock =>
                      negb (String.eqb (Filter.Version mock)
                              "api.keploy-enterprise.io/v1beta1")
                      && negb (String.eqb (Filter.Version mock)
                                 "api.keploy.io/v1beta1")) m) /\
  Filter.warnings l' =
    Filter.warnings l ++
    map (fun _ => ("request or response timestamp of mock is missing for "
                     +:+ Filter.Name tc, []))
      (List.filter (fun mock =>
                      Filter.isZeroValue (Filter.ReqTimestampMock (Filter.Spec mock))
                      || Filter.isZeroValue (Filter.ResTimestampMock (Filter.Spec mock)))
                   m).
Proof.
  induction m as [| mock m IH]; intros l; cbn [fold_left List.filter map].
  - cbv zeta. now rewrite !app_nil_r.
  - cbv zeta in *. destruct (IH (Filter.body tc l mock)) as (He & Hn & Hw).
    rewrite He, Hn, Hw. clear IH He Hn Hw.
    unfold Filter.body.
    destruct (String.eqb (Filter.Version mock) "api.keploy-enterprise.io/v1beta1");
      destruct (String.eqb (Filter.Version mock) "api.keploy.io/v1beta1");
      destruct (Filter.isZeroValue (Filter.ReqTimestampMock (Filter.Spec mock))
                || Filter.isZeroValue (Filter.ResTimestampMock (Filter.Spec mock)));
      try destruct (Filter.After _ _ && Filter.Before _ _);
      cbn [negb andb Filter.entMocks Filter.nonKeployMocks Filter.warnings map];
      rewrite <- ?app_assoc; repeat split; reflexivity.
Qed.

End FilterMore.

(** X5. Filtering is idempotent: filtering the filtered mocks again for the
    same test case returns them unchanged. *)
Theorem FilterTcsMocks_idempotent {Time : Type} `{Filter.GoTime Time}
        (tc : Filter.TestCase Time) (m : list (Filter.Mock Time)) :
  fst (Filter.FilterTcsMocks tc (fst (Filter.FilterTcsMocks tc m)))
  = fst (Filter.FilterTcsMocks tc m).
Proof.
  unfold Filter.FilterTcsMocks.
  destruct (Filter.isZeroValue (Filter.Req_Timestamp (Filter.HttpReq_ tc)));
    [reflexivity |].
  destruct (Filter.isZeroValue (Filter.Resp_Timestamp (Filter.HttpResp_ tc)));
    [reflexivity |].
  cbn [fst]. rewrite !loop_filteredMocks. cbn [Filter.filteredMocks app].
  apply filter_filter.
Qed.

(** X6. [FilterTcsMocks] neither invents nor reorders mocks: what it returns
    is a sublist of [m]; and a mock that lacks its request or its response
    timestamp is always in it. *)
Theorem FilterTcsMocks_sublist {Time : Type} `{Filter.GoTime Time}
        (tc : Filter.TestCase Time) (m : list (Filter.Mock Time)) :
  sublist (fst (Filter.FilterTcsMocks tc m)) m /\
  (forall mock,
      mock ∈ m ->
      Filter.ReqTimestampMock (Filter.Spec mock) = Filter.zeroTime \/
      Filter.ResTimestampMock (Filter.Spec mock) = Filter.zeroTime ->
      mock ∈ fst (Filter.FilterTcsMocks tc m)).
Proof.
  destruct (FilterTcsMocks_cases tc m) as [-> | ->].
  - split; [reflexivity | auto].
  - split; [apply filter_sublist |].
    intros mock Hin Hz. apply list_elem_of_In, filter_In.
    split; [now apply list_elem_of_In |].
    unfold Filter.inWindow.
    destruct Hz as [Hz | Hz]; apply isZeroValue_true in Hz; rewrite Hz;
      [reflexivity | now rewrite orb_true_r].
Qed.

(** X7. The log of [FilterTcsMocks].  For a test case with both timestamps:
    one warning for each mock that lacks a timestamp, then one warning
    naming, in order, the mocks of the enterprise version if there are any,
    then one naming the mocks of any other foreign version if there are
    any.  For a test case that lacks a timestamp: a single warning about the
    test case, and none about mock versions. *)
Theorem FilterTcsMocks_log {Time : Type} `{Filter.GoTime Time}
        (tc : Filter.TestCase Time) (m : list (Filter.Mock Time)) :
  (Filter.Req_Timestamp (Filter.HttpReq_ tc) <> Filter.zeroTime ->
   Filter.Resp_Timestamp (Filter.HttpResp_ tc) <> Filter.zeroTime ->
   snd (Filter.FilterTcsMocks tc m) =
     map (fun _ => ("request or response timestamp of mock is missing for "
                      +:+ Filter.Name tc, []))
       (List.filter
          (fun mock =>
             Filter.isZeroValue (Filter.ReqTimestampMock (Filter.Spec mock))
             || Filter.isZeroValue (Filter.ResTimestampMock (Filter.Spec mock))) m)
     ++ match map Filter.MockName
                (List.filter (fun mock => String.eqb (Filter.Version mock)
                                            "api.keploy-enterprise.io/v1beta1") m) with
        | [] => []
        | names =>
            [("These mocks have been recorded with Keploy Enterprise, may not work properly with the open-source version"%string,
              names)]
        end
     ++ match map Filter.MockName
                (List.filter
                   (fun mock =>
                      negb (String.eqb (Filter.Version mock)
                              "api.keploy-enterprise.io/v1beta1")
                      && negb (String.eqb (Filter.Version mock)
                                 "api.keploy.io/v1beta1")) m) with
        | [] => []
        | names =>
            [("These mocks have not been recorded by Keploy, may not work properly with Keploy."%string,
              names)]
        end) /\
  (Filter.Req_Timestamp (Filter.HttpReq_ tc) = Filter.zeroTime ->
   snd (Filter.FilterTcsMocks tc m) =
   [("request timestamp is missing for " +:+ Filter.Name tc, [])]) /\
  (Filter.Req_Timestamp (Filter.HttpReq_ tc) <> Filter.zeroTime ->
   Filter.Resp_Timestamp (Filter.HttpResp_ tc) = Filter.zeroTime ->
   snd (Filter.FilterTcsMocks tc m) =
   [("response timestamp is missing for " +:+ Filter.Name tc, [])]).
Proof.
  unfold Filter.FilterTcsMocks. split; [| split].
  - intros Hreq Hresp.
    apply isZeroValue_false in Hreq. apply isZeroValue_false in Hresp.
    rewrite Hreq, Hresp. cbn [snd].
    destruct (loop_names tc m
                {| Filter.filteredMocks := []; Filter.entMocks := [];
                   Filter.nonKeployMocks := []; Filter.warnings := [] |})
      as (He & Hn & Hw).
    cbv zeta in He, Hn, Hw. cbn [Filter.entMocks Filter.nonKeployMocks
      Filter.warnings app] in He, Hn, Hw.
    unfold Filter.versionWarnings. rewrite He, Hn, Hw.
    f_equal. f_equal.
    + destruct (map Filter.MockName _); reflexivity.
    + destruct (map Filter.MockName
                  (List.filter
                     (fun mock =>
                        negb (String.eqb (Filter.Version mock)
                                "api.keploy-enterprise.io/v1beta1")
                        && negb (String.eqb (Filter.Version mock)
                                   "api.keploy.io/v1beta1")) m)); reflexivity.
  - intros Hreq. apply isZeroValue_true in Hreq. now rewrite Hreq.
  - intros Hreq Hresp.
    apply isZeroValue_false in Hreq. apply isZeroValue_true in Hresp.
    now rewrite Hreq, Hresp.
Qed.

Example FilterTcsMocks_log_enterprise :
  snd (Filter.FilterTcsMocks (H := Filter.ZTime) (Filter.mkTc "t" 100 200)
         [Filter.mkMock "A" 50 60;
          {| Filter.Version := "api.keploy-enterprise.io/v1beta1";
             Filter.MockName := "E";
             Filter.Spec := {| Filter.ReqTimestampMock := 0;
                               Filter.ResTimestampMock := 150 |} |}])
  = [("request or response timestamp of mock is missing for t"%string, []);
     ("These mocks have been recorded with Keploy Enterprise, may not work properly with the open-source version"%string,
      ["E"%string])].
Proof. reflexivity. Qed.

(** ** pkg/core/hooks/conn: the registry *)

Section FactoryMore.
Context {ConnID : Type} `{Countable ConnID}.
Context {Tracker Time : Type} `{Conn.Deps Tracker Time}.
Variable clock : ConnID -> Z.
Variable threshold : Z.

Implicit Types (s : Conn.Sweep ConnID Tracker Time) (m : gmap ConnID Tracker).

(** Only a tracker that is not complete and is inactive is marked. *)
Lemma outcome_marked created tracker tracker' tcs lines :
  Conn.outcome created threshold tracker = (tracker', (tcs, lines, true)) ->
  exists rq rs t1 t2,
    Conn.IsComplete tracker = (tracker', (false, rq, rs, t1, t2)) /\
    Conn.IsInactive tracker' threshold = true.
Proof.
  unfold Conn.outcome, Conn.process.
  destruct (Conn.IsComplete tracker) as [tr' [[[[ok rq] rs] t1] t2]].
  intros E. injection E as <- E. destruct ok.
  - destruct (_ || _); [discriminate |].
    destruct (Conn.ParseHTTPRequest rq) as [req |]; [| discriminate].
    destruct (Conn.ParseHTTPResponse rs req) as [resp |]; [| discriminate].
    destruct (Conn.capture created req resp t1 t2). discriminate.
  - destruct (Conn.IsInactive tr' threshold) eqn:Hi; [| discriminate].
    exists rq, rs, t1, t2. now split.
Qed.

(** The loop, whatever the context does: it keeps the keys of the
    registry, and marks only trackers that are not complete and are
    inactive. *)
Lemma range_marks ctxDone m0 order : forall i s,
  NoDup order ->
  (forall k, k ∈ order -> Conn.conns s !! k = m0 !! k) ->
  dom (Conn.conns s) = dom m0 ->
  let r := Conn.rangeConnections ctxDone clock threshold i order s in
  dom (Conn.conns r.2) = dom m0 /\
  forall k, k ∈ Conn.trackersToDelete r.2 ->
    k ∈ Conn.trackersToDelete s \/
    exists tracker tracker' rq rs t1 t2,
      m0 !! k = Some tracker /\
      Conn.IsComplete tracker = (tracker', (false, rq, rs, t1, t2)) /\
      Conn.IsInactive tracker' threshold = true.
Proof.
  induction order as [| k rest IH]; intros i s Hnd Hagree Hdom;
    cbn [Conn.rangeConnections].
  - cbv zeta. cbn [snd]. split; [exact Hdom | auto].
  - apply NoDup_cons in Hnd as [Hk Hnd].
    assert (Hagree' : forall k', k' ∈ rest -> Conn.conns s !! k' = m0 !! k')
      by (intros k' Hk'; apply Hagree; now right).
    destruct (Conn.conns s !! k) as [tracker |] eqn:Hlk; [| now apply IH].
    destruct (ctxDone i); [cbv zeta; cbn [snd]; split; [exact Hdom | auto] |].
    destruct (Conn.outcome (clock k) threshold tracker)
      as [tracker' [[tcs lines] del]] eqn:Hout.
    rewrite (visit_outcome _ _ _ _ _ _ _ _ _ Hout).
    set (s1 := {| Conn.conns := <[k:=tracker']> (Conn.conns s);
                  Conn.trackersToDelete :=
                    if del then Conn.trackersToDelete s ++ [k]
                    else Conn.trackersToDelete s;
                  Conn.sent := Conn.sent s ++ tcs;
                  Conn.logs := Conn.logs s ++ lines |}).
    assert (Hagree1 : forall k', k' ∈ rest -> Conn.conns s1 !! k' = m0 !! k').
    { intros k' Hk'. cbn [s1 Conn.conns].
      rewrite lookup_insert_ne by (intros ->; contradiction). now apply Hagree'. }
    assert (Hdom1 : dom (Conn.conns s1) = dom m0).
    { cbn [s1 Conn.conns]. rewrite dom_insert_L, <- Hdom.
      assert (Hin : k ∈ dom (Conn.conns s)) by (apply elem_of_dom; eauto).
      apply set_eq. intros x. rewrite elem_of_union, elem_of_singleton.
      split; [intros [-> | Hx]; assumption | now right]. }
    destruct (IH (S i) s1 Hnd Hagree1 Hdom1) as [Hd Hm].
    cbv zeta in *. split; [exact Hd |].
    intros k' Hk'. destruct (Hm k' Hk') as [Hold | Hnew]; [| now right].
    cbn [s1 Conn.trackersToDelete] in Hold.
    destruct del; [| now left].
    apply elem_of_app in Hold as [Hold | Hold]; [now left |].
    apply list_elem_of_singleton in Hold as ->. right.
    destruct (outcome_marked _ _ _ _ _ Hout) as (rq & rs & t1 & t2 & Hc & Hi).
    exists tracker, tracker', rq, rs, t1, t2.
    rewrite <- Hagree by left. auto.
Qed.

(** With a context that is done the loop stops at the first tracker and
    leaves its state as it found it. *)
Lemma range_done ctxDone order : forall i s,
  (forall j, ctxDone j = true) ->
  (Conn.rangeConnections ctxDone clock threshold i order s).2 = s.
Proof.
  intros i s Hctx. revert i.
  induction order as [| k rest IH]; intros i; cbn [Conn.rangeConnections];
    [reflexivity |].
  destruct (Conn.conns s !! k); [now rewrite Hctx | apply IH].
Qed.

End FactoryMore.

(** X8. [GetOrCreate] returns the tracker that the registry holds for the
    connection afterwards; it leaves every other connection and the
    threshold alone; and a connection that was registered keeps its tracker,
    the factory being unchanged. *)
Theorem GetOrCreate_registers
        {ConnID : Type} `{Countable ConnID} {Tracker : Type}
        (NewTracker : ConnID -> Tracker) (connectionID : ConnID)
        (factory : Conn.Factory ConnID Tracker) :
  let r := Conn.GetOrCreate NewTracker connectionID factory in
  Conn.connections r.2 !! connectionID = Some r.1 /\
  (forall k, k <> connectionID ->
             Conn.connections r.2 !! k = Conn.connections factory !! k) /\
  Conn.inactivityThreshold r.2 = Conn.inactivityThreshold factory /\
  (forall tracker, Conn.connections factory !! connectionID = Some tracker ->
                   r.1 = tracker /\ r.2 = factory) /\
  (Conn.connections factory !! connectionID = None ->
   r.1 = NewTracker connectionID).
Proof.
  cbv zeta. unfold Conn.GetOrCreate.
  destruct (Conn.connections factory !! connectionID) as [t |] eqn:Hlk;
    cbn [fst snd Conn.connections Conn.inactivityThreshold].
  - repeat split; try assumption; try congruence; try discriminate.
  - split; [apply lookup_insert_eq |].
    split; [intros k Hk; now apply lookup_insert_ne |].
    repeat split; try discriminate.
Qed.

(** X9. [GetOrCreate] is idempotent: asking again for the same connection
    returns the same tracker and leaves the factory as the first call left
    it, whatever tracker a second creation would have built. *)
Theorem GetOrCreate_idempotent
        {ConnID : Type} `{Countable ConnID} {Tracker : Type}
        (NewTracker NewTracker' : ConnID -> Tracker) (connectionID : ConnID)
        (factory : Conn.Factory ConnID Tracker) :
  Conn.GetOrCreate NewTracker' connectionID
    (Conn.GetOrCreate NewTracker connectionID factory).2
  = Conn.GetOrCreate NewTracker connectionID factory.
Proof.
  unfold Conn.GetOrCreate at 2 3.
  destruct (Conn.connections factory !! connectionID) as [t |] eqn:Hlk; cbn [snd].
  - unfold Conn.GetOrCreate. now rewrite Hlk.
  - unfold Conn.GetOrCreate. cbn [Conn.connections].
    now rewrite lookup_insert_eq.
Qed.

(** X10. [ProcessActiveTrackers] registers nothing, and whatever the context
    does it removes a connection only if its tracker reported itself not
    complete and is inactive: a complete tracker and an active one stay. *)
Theorem ProcessActiveTrackers_removes_only_inactive
        {ConnID : Type} `{Countable ConnID}
        {Tracker Time : Type} `{Conn.Deps Tracker Time}
        (ctxDone : nat -> bool) (clock : ConnID -> Z) (order : list ConnID)
        (factory : Conn.Factory ConnID Tracker) :
  NoDup order ->
  let factory' := (Conn.ProcessActiveTrackers ctxDone clock order factory).1.1 in
  (forall k, Conn.connections factory !! k = None ->
             Conn.connections factory' !! k = None) /\
  (forall k tracker,
      Conn.connections factory !! k = Some tracker ->
      Conn.connections factory' !! k = None ->
      exists tracker' rq rs t1 t2,
        Conn.IsComplete tracker = (tracker', (false, rq, rs, t1, t2)) /\
        Conn.IsInactive tracker' (Conn.inactivityThreshold factory) = true).
Proof.
  intros Hnd. cbv zeta.
  destruct (range_marks clock (Conn.inactivityThreshold factory) ctxDone
              (Conn.connections factory) order 0
              {| Conn.conns := Conn.connections factory; Conn.trackersToDelete := [];
                 Conn.sent := []; Conn.logs := [] |} Hnd)
    as [Hdom Hmarks]; [reflexivity | reflexivity |].
  cbv zeta in Hdom, Hmarks. unfold Conn.ProcessActiveTrackers.
  destruct (Conn.rangeConnections _ _ _ _ _ _) as [returned s].
  cbn [snd] in Hdom, Hmarks.
  assert (Hkeys : forall k, Conn.conns s !! k = None <->
                            Conn.connections factory !! k = None).
  { intros k. rewrite <- !not_elem_of_dom, Hdom. reflexivity. }
  destruct returned; cbn [fst Conn.connections].
  - split.
    + intros k Hk. now apply Hkeys.
    + intros k tracker Hk Hgone. apply Hkeys in Hgone. congruence.
  - split.
    + intros k Hk. rewrite deleteAll_lookup. case_decide; [reflexivity |].
      now apply Hkeys.
    + intros k tracker Hk Hgone. rewrite deleteAll_lookup in Hgone.
      case_decide as Hin.
      * destruct (Hmarks k Hin) as [Hnil | (tr & tr' & rq & rs & t1 & t2 & Hm & Hc & Hi)];
          [now apply elem_of_nil in Hnil |].
        rewrite Hk in Hm. injection Hm as <-. eauto 8.
      * apply Hkeys in Hgone. congruence.
Qed.

Lemma ProcessActiveTrackers_removes_only_inactive_witness :
  (forall k, Conn.connections Examples.factory !! k = None ->
             Conn.connections
               (Conn.ProcessActiveTrackers Examples.never Examples.at7
                  [1; 2; 3]%nat Examples.factory).1.1 !! k = None) /\
  (forall k tracker,
      Conn.connections Examples.factory !! k = Some tracker ->
      Conn.connections
        (Conn.ProcessActiveTrackers Examples.never Examples.at7
           [1; 2; 3]%nat Examples.factory).1.1 !! k = None ->
      exists tracker' rq rs t1 t2,
        Conn.IsComplete tracker = (tracker', (false, rq, rs, t1, t2)) /\
        Conn.IsInactive tracker' (Conn.inactivityThreshold Examples.factory) = true).
Proof.
  apply (ProcessActiveTrackers_removes_only_inactive
           Examples.never Examples.at7 [1; 2; 3]%nat Examples.factory).
  repeat constructor; rewrite ?elem_of_cons, ?elem_of_nil; lia.
Defined.

(** X11. With a context that is already done, [ProcessActiveTrackers] sends
    nothing, logs nothing and leaves the factory as it is: no tracker is
    asked whether it is complete, and no connection is removed. *)
Theorem ProcessActiveTrackers_done_context
        {ConnID : Type} `{Countable ConnID}
        {Tracker Time : Type} `{Conn.Deps Tracker Time}
        (ctxDone : nat -> bool) (clock : ConnID -> Z) (order : list ConnID)
        (factory : Conn.Factory ConnID Tracker) :
  (forall i, ctxDone i = true) ->
  Conn.ProcessActiveTrackers ctxDone clock order factory = (factory, [], []).
Proof.
  intros Hctx. unfold Conn.ProcessActiveTrackers.
  pose proof (range_done clock (Conn.inactivityThreshold factory) ctxDone order 0
                {| Conn.conns := Conn.connections factory; Conn.trackersToDelete := [];
                   Conn.sent := []; Conn.logs := [] |} Hctx) as Hs.
  destruct (Conn.rangeConnections _ _ _ _ _ _) as [returned s].
  cbn [snd] in Hs. subst s. destruct factory as [m thr].
  destruct returned; reflexivity.
Qed.

Lemma ProcessActiveTrackers_done_context_witness :
  Conn.ProcessActiveTrackers (fun _ => true) Examples.at7 [1; 2; 3]%nat
    Examples.factory = (Examples.factory, [], []).
Proof.
  apply (ProcessActiveTrackers_done_context (fun _ => true) Examples.at7
           [1; 2; 3]%nat Examples.factory).
  reflexivity.
Defined.

(** ** package replay: more on the test loop and RunTestSet *)

Section TestLoopMore.
Context {Time Result : Type} `{Replay.Deps Time Result}.
Variable cfg : Replay.Config.
Variable testSetId : string.

Implicit Types (e : Replay.TcEnv Time) (l : Replay.Loop Time Result)
         (tc : Replay.TestCase Time).

(** [SimulateRequest] writes at most the URL of the test case. *)
Lemma SimulateRequest_keeps e tc tc' resp err :
  Replay.SimulateRequest cfg e tc = (tc', resp, err) ->
  exists url, tc' = Replay.setURL tc url.
Proof.
  assert (Hid : tc = Replay.setURL tc (Replay.Req_URL (Replay.HttpReq_ tc))).
  { destruct tc as [n k [] p z]. reflexivity. }
  unfold Replay.SimulateRequest.
  destruct (Replay.TcKind tc).
  - destruct (Replay.isDockerCmd cfg).
    + destruct (Replay.getAppIp e) as [userIp | e0].
      * destruct (Replay.simulateHttp e _) as [r0 e0].
        intros E. injection E as <- _ _. eauto.
      * intros E. injection E as <- _ _. eauto.
    + destruct (Replay.simulateHttp e tc) as [r0 e0].
      intros E. injection E as <- _ _. eauto.
  - intros E. injection E as <- _ _. eauto.
Qed.

(** What one turn of the loop does to the counters and to the results
    handed to [InsertTestCaseResult]: at most one counter goes up, by one,
    and at most one result is added, only when a counter went up; it names
    the test set and the test case, repeats the recorded response and the
    noise, and says passed or failed as the counter that went up. *)
Lemma iteration_step e tc l :
  let r := Replay.iteration cfg testSetId e tc l in
  (Replay.success r.2 = Replay.success l /\ Replay.failure r.2 = Replay.failure l /\
   Replay.inserted r.2 = Replay.inserted l) \/
  (exists st,
      ((st = Replay.TestStatusPassed /\
        Replay.success r.2 = Replay.success l + 1 /\
        Replay.failure r.2 = Replay.failure l) \/
       (st = Replay.TestStatusFailed /\
        Replay.success r.2 = Replay.success l /\
        Replay.failure r.2 = Replay.failure l + 1)) /\
      (Replay.inserted r.2 = Replay.inserted l \/
       exists tr,
         Replay.inserted r.2 = Replay.inserted l ++ [tr] /\
         Replay.TR_Status tr = st /\
         Replay.TR_Name tr = testSetId /\
         Replay.TR_TestCaseID tr = Replay.Name tc /\
         Replay.TR_Res tr = Replay.HttpResp_ tc /\
         Replay.TR_Noise tr = Replay.Noise tc /\
         Replay.Req_Timestamp (Replay.TR_Req tr)
           = Replay.Req_Timestamp (Replay.HttpReq_ tc))).
Proof.
  cbv zeta. unfold Replay.iteration.
  destruct (selectExit_counters e l) as (Hi & Hs & Hf).
  destruct (Replay.getFilteredMocks e); [left; cbn; auto |].
  destruct (Replay.getUnFilteredMocks e); [left; cbn; auto |].
  destruct (Replay.setMocks e); [left; cbn; auto |].
  destruct (Replay.SimulateRequest cfg e tc) as [[tc' resp] [err |]] eqn:Hsim;
    [left; cbn; auto |].
  destruct (SimulateRequest_keeps _ _ _ _ _ Hsim) as [url ->].
  destruct (Replay.compareResp _ resp testSetId) as [testPass [res |]].
  2:{ right. exists (if testPass then Replay.TestStatusPassed else Replay.TestStatusFailed).
      destruct testPass; cbn; rewrite Hs, Hf, Hi; split; auto. }
  right. exists (if testPass then Replay.TestStatusPassed else Replay.TestStatusFailed).
  assert (Hres : forall p : Replay.HttpResp Time,
             {| Replay.Resp_StatusCode := Replay.Resp_StatusCode p;
                Replay.Resp_Header := Replay.Resp_Header p;
                Replay.Resp_Body := Replay.Resp_Body p;
                Replay.Resp_StatusMessage := Replay.Resp_StatusMessage p;
                Replay.Resp_ProtoMajor := Replay.Resp_ProtoMajor p;
                Replay.Resp_ProtoMinor := Replay.Resp_ProtoMinor p;
                Replay.Resp_Binary := Replay.Resp_Binary p;
                Replay.Resp_Timestamp := Replay.Resp_Timestamp p |} = p)
    by (intros []; reflexivity).
  destruct (Replay.insertTestCaseResult e); destruct testPass; cbn;
    rewrite Hs, Hf, Hi;
    (split; [auto |]); right; eexists; (split; [reflexivity |]); cbn;
    rewrite Hres; repeat split; reflexivity.
Qed.

(** The counters through the loop: starting from counters that are not
    negative and count at most [i] test cases, with no more results than
    counted, the loop ends with the same at the index it reached, which is
    at most the number of test cases. *)
Lemma testLoop_counters envs testCases : forall i l,
  0 <= Replay.success l -> 0 <= Replay.failure l ->
  Replay.success l + Replay.failure l <= Z.of_nat i ->
  Z.of_nat (length (Replay.inserted l)) <= Replay.success l + Replay.failure l ->
  let r := Replay.testLoop cfg testSetId envs i testCases l in
  0 <= Replay.success r.2 /\ 0 <= Replay.failure r.2 /\
  Replay.success r.2 + Replay.failure r.2 <= Z.of_nat r.1.2 /\
  Z.of_nat (length (Replay.inserted r.2))
    <= Replay.success r.2 + Replay.failure r.2 /\
  (r.1.2 <= i + length testCases)%nat.
Proof.
  induction testCases as [| tc rest IH]; intros i l Hs Hf Hsum Hins;
    cbn [Replay.testLoop].
  - cbv zeta. cbn. repeat split; try assumption; lia.
  - pose proof (iteration_step (envs i) tc l) as Hstep. cbv zeta in Hstep.
    destruct (Replay.iteration cfg testSetId (envs i) tc l) as [brk l'].
    cbn [snd] in Hstep.
    assert (Hl' : 0 <= Replay.success l' /\ 0 <= Replay.failure l' /\
                  Replay.success l' + Replay.failure l' <= Z.of_nat (S i) /\
                  Z.of_nat (length (Replay.inserted l'))
                    <= Replay.success l' + Replay.failure l').
    { destruct Hstep as [(-> & -> & ->) | (st & Hcnt & Hres)]; [lia |].
      assert (Z.of_nat (length (Replay.inserted l'))
              <= Z.of_nat (length (Replay.inserted l)) + 1).
      { destruct Hres as [-> | (tr & -> & _)]; [lia |].
        rewrite length_app. cbn [length]. lia. }
      destruct Hcnt as [(_ & -> & ->) | (_ & -> & ->)]; lia. }
    destruct Hl' as (Hs' & Hf' & Hsum' & Hins').
    destruct brk.
    + cbv zeta. cbn [fst snd length]. repeat split; try assumption; lia.
    + specialize (IH (S i) l' Hs' Hf' Hsum' Hins'). cbv zeta in IH |- *.
      cbn [length]. destruct IH as (? & ? & ? & ? & ?).
      repeat split; try assumption; lia.
Qed.

(** The loop over test cases that all pass: it does not break, enters each
    of them, counts each as a success and hands one passed result for each
    to [InsertTestCaseResult], in order; the status ends as the signals
    delivered on the way leave it. *)
Lemma testLoop_all_pass envs testCases : forall i l,
  (forall j tc, testCases !! j = Some tc ->
                Replay.passes cfg testSetId (envs (i + j)%nat) tc) ->
  exists l',
    Replay.testLoop cfg testSetId envs i testCases l
      = (false, (i + length testCases)%nat, l') /\
    Replay.testSetStatus l'
      = Replay.signalled envs i (length testCases) (Replay.testSetStatus l) /\
    Replay.success l' = Replay.success l + Z.of_nat (length testCases) /\
    Replay.failure l' = Replay.failure l /\
    map Replay.TR_TestCaseID (Replay.inserted l')
      = map Replay.TR_TestCaseID (Replay.inserted l) ++ map Replay.Name testCases /\
    Forall (fun tr => Replay.TR_Status tr = Replay.TestStatusPassed)
           (drop (length (Replay.inserted l)) (Replay.inserted l')).
Proof.
  induction testCases as [| tc rest IH]; intros i l Hpass; cbn [Replay.testLoop].
  - exists l. cbn [length map Replay.signalled]. rewrite Nat.add_0_r, Z.add_0_r, app_nil_r.
    repeat split. rewrite drop_all. constructor.
  - destruct (Hpass 0%nat tc eq_refl)
      as (H1 & H2 & H3 & H4 & tc' & resp & res & Hsim & Hcmp).
    rewrite Nat.add_0_r in H1, H2, H3, H4, Hsim.
    destruct (SimulateRequest_keeps _ _ _ _ _ Hsim) as [url Hurl].
    unfold Replay.iteration. rewrite H1, H2, H3, Hsim, Hcmp, H4.
    cbn [negb].
    destruct (selectExit_counters (envs i) l) as (Hi & Hs & Hf).
    match goal with
    | |- context [Replay.testLoop _ _ _ _ _ ?l1] =>
        destruct (IH (S i) l1) as (l' & Hrun & Hst & Hsucc & Hfail & Hids & Hall)
    end.
    { intros j tc0 Hj. replace (S i + j)%nat with (i + S j)%nat by lia.
      now apply Hpass. }
    exists l'. rewrite Hrun. cbn [Replay.testSetStatus Replay.success Replay.failure
      Replay.inserted] in Hst, Hsucc, Hfail, Hids, Hall.
    split; [f_equal; f_equal; cbn [length]; lia |].
    split.
    { rewrite Hst. cbn [length Replay.signalled]. f_equal.
      unfold Replay.selectExit.
      destruct (Replay.exitLoop (envs i)) as [sg |]; [| reflexivity].
      destruct (Replay.statusBySignal sg); reflexivity. }
    split; [rewrite Hsucc, Hs; cbn [length]; lia |].
    split; [rewrite Hfail, Hf; reflexivity |].
    split.
    { rewrite Hids, Hi, map_app. cbn [map Replay.mkTestCaseResult Replay.TR_TestCaseID].
      rewrite <- app_assoc. cbn [app]. rewrite Hurl. reflexivity. }
    rewrite Hi, length_app in Hall. cbn [length] in Hall.
    assert (Hsplit : drop (length (Replay.inserted l)) (Replay.inserted l')
                     = take 1 (drop (length (Replay.inserted l)) (Replay.inserted l'))
                       ++ drop (length (Replay.inserted l) + 1) (Replay.inserted l')).
    { rewrite <- (take_drop 1 (drop (length (Replay.inserted l)) (Replay.inserted l'))) at 1.
      now rewrite drop_drop. }
    rewrite Hsplit. apply Forall_app. split; [| exact Hall].
    assert (Hpre : exists more,
               Replay.inserted l' =
               (Replay.inserted l ++
                [Replay.mkTestCaseResult cfg testSetId (envs i) tc'
                   Replay.TestStatusPassed res]) ++ more).
    { assert (Hgen : forall ts j (l0 : Replay.Loop Time Result),
                 exists more,
                   Replay.inserted (Replay.testLoop cfg testSetId envs j ts l0).2
                   = Replay.inserted l0 ++ more).
      { induction ts as [| t ts IHts]; intros j l0; cbn [Replay.testLoop].
        - exists []. now rewrite app_nil_r.
        - pose proof (iteration_step (envs j) t l0) as Hstep. cbv zeta in Hstep.
          destruct (Replay.iteration cfg testSetId (envs j) t l0) as [brk l1].
          cbn [snd] in Hstep.
          assert (Hl1 : exists m1, Replay.inserted l1 = Replay.inserted l0 ++ m1).
          { destruct Hstep as [(_ & _ & ->) | (st & _ & [-> | (tr & -> & _)])];
              [exists []; now rewrite app_nil_r | exists []; now rewrite app_nil_r | eauto]. }
          destruct Hl1 as [m1 Hm1]. destruct brk; [cbn [snd]; eauto |].
          destruct (IHts (S j) l1) as [m2 Hm2]. rewrite Hm2, Hm1.
          exists (m1 ++ m2). now rewrite app_assoc. }
      match goal with
      | H : Replay.testLoop _ _ _ _ _ ?l1 = _ |- _ =>
          destruct (Hgen rest (S i) l1) as [more Hmore]; rewrite H in Hmore
      end.
      cbn [snd Replay.inserted] in Hmore. rewrite Hi in Hmore. eauto. }
    destruct Hpre as [more ->].
    rewrite <- app_assoc, drop_app_length. cbn [app drop take].
    repeat constructor.
Qed.

End TestLoopMore.

Section RunTestSetMore.
Context {Time Result : Type} `{Replay.Deps Time Result}.
Variable cfg : Replay.Config.

(** The three ways a call of [RunTestSet] goes: it fails before the loop;
    the test set is empty; or the loop runs and a final report is built. *)
Lemma RunTestSet_cases (env : Replay.Env Time Result) testSetId g :
  let r := Replay.RunTestSet cfg env testSetId g in
  (is_Some (Replay.err r) /\ Replay.status r = Replay.TestSetStatusFailed /\
   Replay.globals r = g /\ Replay.results r = [] /\
   Forall (fun rep => Replay.Rep_Success rep = 0 /\ Replay.Rep_Failure rep = 0 /\
                      0 <= Replay.Rep_Total rep) (Replay.reports r)) \/
  (Replay.getTestCases env = Replay.Ok [] /\
   r = Replay.returns Replay.TestSetStatusPassed None [] [] 0 g) \/
  (exists testCases brk l rep0 rep,
      Replay.getTestCases env = Replay.Ok testCases /\
      Replay.testLoop cfg testSetId (Replay.tcEnv env) 0 testCases
        {| Replay.testSetStatus := Replay.TestSetStatusPassed; Replay.success := 0;
           Replay.failure := 0; Replay.inserted := [] |}
        = (brk, Replay.entered r, l) /\
      Replay.reports r = [rep0; rep] /\
      Replay.results r = Replay.inserted l /\
      Replay.Rep_Success rep0 = 0 /\ Replay.Rep_Failure rep0 = 0 /\
      Replay.Rep_Total rep0 = Z.of_nat (length testCases) /\
      Replay.Rep_TestSet rep = testSetId /\
      Replay.Rep_Total rep = Z.of_nat (length testCases) /\
      Replay.Rep_Success rep = Replay.success l /\
      Replay.Rep_Failure rep = Replay.failure l /\
      Replay.Rep_Tests rep = (Replay.getTestCaseResults env).1 /\
      Replay.Rep_Status rep =
        match (Replay.getTestCaseResults env).2 with
        | Some _ => if Replay.ctxErrIsCanceled env then Replay.testSetStatus l
                    else Replay.TestSetStatusInternalErr
        | None => Replay.testSetStatus l
        end /\
      ((is_Some (Replay.err r) /\ Replay.status r = Replay.TestSetStatusInternalErr /\
        (Replay.globals r = g \/
         Replay.globals r =
           {| Replay.completeTestReport :=
                <[testSetId := {| Replay.total := Replay.Rep_Total rep;
                                  Replay.passed := Replay.Rep_Success rep;
                                  Replay.failed := Replay.Rep_Failure rep |}]>
                  (Replay.completeTestReport g);
              Replay.totalTests := Replay.totalTests g + Replay.Rep_Total rep;
              Replay.totalTestPassed := Replay.totalTestPassed g + Replay.Rep_Success rep;
              Replay.totalTestFailed := Replay.totalTestFailed g + Replay.Rep_Failure rep |})) \/
       (Replay.err r = None /\ Replay.status r = Replay.Rep_Status rep /\
        Replay.globals r =
          {| Replay.completeTestReport :=
               <[testSetId := {| Replay.total := Replay.Rep_Total rep;
                                 Replay.passed := Replay.Rep_Success rep;
                                 Replay.failed := Replay.Rep_Failure rep |}]>
                 (Replay.completeTestReport g);
             Replay.totalTests := Replay.totalTests g + Replay.Rep_Total rep;
             Replay.totalTestPassed := Replay.totalTestPassed g + Replay.Rep_Success rep;
             Replay.totalTestFailed := Replay.totalTestFailed g + Replay.Rep_Failure rep |}))).
Proof.
  cbv zeta. unfold Replay.RunTestSet.
  destruct (Replay.getTestCases env) as [testCases | e].
  2:{ left. cbn. repeat split; eauto. }
  destruct (Z.eqb_spec (Replay.len testCases) 0) as [Hz | Hnz].
  { right; left. destruct testCases; [auto | unfold Replay.len in Hz; cbn in Hz; lia]. }
  destruct (Replay.getFilteredMocks0 env); [left; cbn; repeat split; eauto |].
  destruct (Replay.getUnFilteredMocks0 env); [left; cbn; repeat split; eauto |].
  destruct (Replay.setMocks0 env); [left; cbn; repeat split; eauto |].
  destruct (Replay.insertReport0 env).
  { left. cbn. repeat split; eauto. repeat constructor; cbn; try reflexivity.
    unfold Replay.len. lia. }
  right; right.
  destruct (Replay.testLoop cfg testSetId (Replay.tcEnv env) 0 testCases _)
    as [[brk n] l] eqn:Hloop.
  exists testCases, brk, l.
  destruct (Replay.getTestCaseResults env) as [fetched e].
  destruct (Replay.insertReport env); [| destruct (Replay.errGrpWait env)];
    eexists _, _; cbn;
    (split; [reflexivity |]); (split; [exact Hloop |]); (split; [reflexivity |]);
    (split; [reflexivity |]); (split; [reflexivity |]); (split; [reflexivity |]);
    (split; [reflexivity |]); (split; [reflexivity |]); (split; [reflexivity |]);
    (split; [reflexivity |]); (split; [reflexivity |]); (split; [reflexivity |]);
    (split; [destruct e, (Replay.ctxErrIsCanceled env); reflexivity |]).
  - left. split; [eauto |]. split; [reflexivity |]. now left.
  - left. split; [eauto |]. split; [reflexivity |]. now right.
  - right. repeat split; reflexivity.
Qed.

End RunTestSetMore.

Section RunTestSetExtras.
Context {Time Result : Type} `{Replay.Deps Time Result}.
Variable cfg : Replay.Config.

Lemma signalled_none envs n : forall i st,
  (forall j, (i <= j < i + n)%nat -> Replay.exitLoop (envs j) = None) ->
  Replay.signalled (Time := Time) envs i n st = st.
Proof.
  induction n as [| n IH]; intros i st Hnone; cbn [Replay.signalled]; [reflexivity |].
  rewrite (Hnone i) by lia. apply IH. intros j Hj. apply Hnone. lia.
Qed.

Lemma signalled_last envs j0 sg st n : forall i st0,
  (i <= j0 < i + n)%nat ->
  Replay.exitLoop (envs j0) = Some sg ->
  Replay.statusBySignal sg = Some st ->
  (forall j, (j0 < j < i + n)%nat -> Replay.exitLoop (envs j) = None) ->
  Replay.signalled (Time := Time) envs i n st0 = st.
Proof.
  induction n as [| n IH]; intros i st0 Hj0 Hsg Hst Hnone; [lia |].
  cbn [Replay.signalled].
  destruct (Nat.eq_dec i j0) as [-> | Hne].
  - rewrite Hsg, Hst. apply signalled_none. intros j Hj. apply Hnone. lia.
  - apply IH; [lia | assumption | assumption |]. intros j Hj. apply Hnone. lia.
Qed.

(** The results of the loop describe test cases of the set. *)
Lemma testLoop_results testSetId envs (all : list (Replay.TestCase Time)) testCases :
  forall i (l : Replay.Loop Time Result),
  (forall tc, tc ∈ testCases -> tc ∈ all) ->
  let good (tr : Replay.TestResult Time Result) :=
    Replay.TR_Name tr = testSetId /\
    (Replay.TR_Status tr = Replay.TestStatusPassed \/
     Replay.TR_Status tr = Replay.TestStatusFailed) /\
    exists tc, tc ∈ all /\ Replay.TR_TestCaseID tr = Replay.Name tc /\
               Replay.TR_Res tr = Replay.HttpResp_ tc /\
               Replay.TR_Noise tr = Replay.Noise tc in
  Forall good (Replay.inserted l) ->
  Forall good (Replay.inserted (Replay.testLoop cfg testSetId envs i testCases l).2).
Proof.
  cbv zeta.
  induction testCases as [| tc rest IH]; intros i l Hall Hgood; cbn [Replay.testLoop];
    [exact Hgood |].
  pose proof (iteration_step cfg testSetId (envs i) tc l) as Hstep. cbv zeta in Hstep.
  destruct (Replay.iteration cfg testSetId (envs i) tc l) as [brk l'].
  cbn [snd] in Hstep.
  assert (Hgood' : Forall
            (fun tr =>
               Replay.TR_Name tr = testSetId /\
               (Replay.TR_Status tr = Replay.TestStatusPassed \/
                Replay.TR_Status tr = Replay.TestStatusFailed) /\
               exists tc0, tc0 ∈ all /\ Replay.TR_TestCaseID tr = Replay.Name tc0 /\
                           Replay.TR_Res tr = Replay.HttpResp_ tc0 /\
                           Replay.TR_Noise tr = Replay.Noise tc0)
            (Replay.inserted l')).
  { destruct Hstep as [(_ & _ & ->) | (st & Hcnt & [-> | (tr & -> & Hst & Hn & Hid & Hres & Hnoise & _)])];
      try exact Hgood.
    apply Forall_app. split; [exact Hgood |].
    constructor; [| constructor].
    split; [exact Hn |]. split.
    - rewrite Hst. destruct Hcnt as [(-> & _) | (-> & _)]; auto.
    - exists tc. split; [apply Hall; left | auto]. }
  destruct brk; [exact Hgood' |].
  apply IH; [| exact Hgood']. intros tc0 Hin. apply Hall. now right.
Qed.

End RunTestSetExtras.

(** X12. [RunTestSet] never returns the status "running".  When it returns
    an error the status is "failed" or "internal error".  When it returns
    no error, either the test set was empty, the status is "passed" and
    nothing was reported or counted, or the last report handed to
    [InsertReport] is that of the test set and carries the status
    returned. *)
Theorem RunTestSet_terminal_status
        {Time Result : Type} `{Replay.Deps Time Result}
        (cfg : Replay.Config) (env : Replay.Env Time Result)
        (testSetId : string) (g : Replay.Globals) :
  let r := Replay.RunTestSet cfg env testSetId g in
  Replay.status r <> Replay.TestSetStatusRunning /\
  (is_Some (Replay.err r) ->
   Replay.status r = Replay.TestSetStatusFailed \/
   Replay.status r = Replay.TestSetStatusInternalErr) /\
  (Replay.err r = None ->
   (Replay.reports r = [] /\ Replay.status r = Replay.TestSetStatusPassed /\
    Replay.globals r = g) \/
   exists rep, Replay.finalReport r = Some rep /\
               Replay.Rep_Status rep = Replay.status r /\
               Replay.Rep_TestSet rep = testSetId).
Proof.
  cbv zeta. split; [apply RunTestSet_not_running |].
  destruct (RunTestSet_cases cfg env testSetId g)
    as [(He & Hst & _) | [(_ & ->) | (tcs & brk & l & rep0 & rep & _ & _ & Hreps & _ & _ & _
                                       & _ & Hid & _ & _ & _ & _ & _ & Hend)]].
  - split; [auto |]. intros Hnone. rewrite Hnone in He. destruct He. discriminate.
  - cbn. split; [intros [x D]; discriminate | auto].
  - destruct Hend as [(He & Hst & _) | (He & Hst & _)].
    + split; [auto |]. intros Hnone. rewrite Hnone in He. destruct He. discriminate.
    + split; [rewrite He; intros [x D]; discriminate |].
      intros _. right. exists rep. unfold Replay.finalReport. rewrite Hreps.
      auto.
Qed.

(** X13. The numbers of a report add up: in every report handed to
    [InsertReport], successes and failures are not negative and together at
    most the total; no more results are handed to [InsertTestCaseResult]
    than test cases were entered, and no more than the last report counts
    as successes and failures. *)
Theorem RunTestSet_counts
        {Time Result : Type} `{Replay.Deps Time Result}
        (cfg : Replay.Config) (env : Replay.Env Time Result)
        (testSetId : string) (g : Replay.Globals) :
  let r := Replay.RunTestSet cfg env testSetId g in
  Forall (fun rep => 0 <= Replay.Rep_Success rep /\ 0 <= Replay.Rep_Failure rep /\
                     Replay.Rep_Success rep + Replay.Rep_Failure rep
                       <= Replay.Rep_Total rep) (Replay.reports r) /\
  (length (Replay.results r) <= Replay.entered r)%nat /\
  (forall rep, Replay.finalReport r = Some rep ->
               Z.of_nat (length (Replay.results r))
                 <= Replay.Rep_Success rep + Replay.Rep_Failure rep).
Proof.
  cbv zeta.
  destruct (RunTestSet_cases cfg env testSetId g)
    as [(_ & _ & _ & Hres & Hreps) | [(_ & ->) | (tcs & brk & l & rep0 & rep & _ & Hloop & Hreps
                                       & Hres & Hs0 & Hf0 & Ht0 & _ & Ht & Hs & Hf & _)]].
  - rewrite Hres. split; [| split].
    + eapply Forall_impl; [exact Hreps |]. cbn. intros rep (-> & -> & Ht). lia.
    + cbn. lia.
    + intros rep Hlast. cbn [length].
      unfold Replay.finalReport in Hlast. apply last_Some_elem_of in Hlast.
      rewrite Forall_forall in Hreps.
      destruct (Hreps rep Hlast) as (-> & -> & _). reflexivity.
  - cbn. repeat split; [constructor | lia | discriminate].
  - pose proof (testLoop_counters cfg testSetId (Replay.tcEnv env) tcs 0
                  {| Replay.testSetStatus := Replay.TestSetStatusPassed;
                     Replay.success := 0; Replay.failure := 0;
                     Replay.inserted := [] |}) as Hc.
    cbv zeta in Hc. rewrite Hloop in Hc. cbn in Hc.
    destruct Hc as (Hsl & Hfl & Hsum & Hins & Hn); try lia.
    rewrite Hreps, Hres. split; [| split].
    + repeat constructor; lia.
    + lia.
    + unfold Replay.finalReport. rewrite Hreps. cbn. intros rep' E.
      injection E as <-. lia.
Qed.

(** X14. Every result [RunTestSet] hands to [InsertTestCaseResult] names the
    test set, says passed or failed, and names a test case of the set whose
    recorded response and noise it repeats. *)
Theorem RunTestSet_results
        {Time Result : Type} `{Replay.Deps Time Result}
        (cfg : Replay.Config) (env : Replay.Env Time Result)
        (testSetId : string) (g : Replay.Globals)
        (tr : Replay.TestResult Time Result) :
  tr ∈ Replay.results (Replay.RunTestSet cfg env testSetId g) ->
  Replay.TR_Name tr = testSetId /\
  (Replay.TR_Status tr = Replay.TestStatusPassed \/
   Replay.TR_Status tr = Replay.TestStatusFailed) /\
  exists testCases tc,
    Replay.getTestCases env = Replay.Ok testCases /\ tc ∈ testCases /\
    Replay.TR_TestCaseID tr = Replay.Name tc /\
    Replay.TR_Res tr = Replay.HttpResp_ tc /\
    Replay.TR_Noise tr = Replay.Noise tc.
Proof.
  destruct (RunTestSet_cases cfg env testSetId g)
    as [(_ & _ & _ & -> & _) | [(_ & ->) | (tcs & brk & l & rep0 & rep & Htcs & Hloop & _
                                       & -> & _)]].
  - intros Hin. now apply elem_of_nil in Hin.
  - cbn. intros Hin. now apply elem_of_nil in Hin.
  - intros Hin.
    pose proof (testLoop_results cfg testSetId (Replay.tcEnv env) tcs tcs 0
                  {| Replay.testSetStatus := Replay.TestSetStatusPassed;
                     Replay.success := 0; Replay.failure := 0;
                     Replay.inserted := [] |} (fun _ Hx => Hx)) as Hgood.
    cbv zeta in Hgood. rewrite Hloop in Hgood. cbn [snd] in Hgood.
    specialize (Hgood (Forall_nil_2 _)).
    rewrite Forall_forall in Hgood.
    destruct (Hgood tr Hin) as (Hn & Hst & tc & Htc & Hrest).
    split; [exact Hn |]. split; [exact Hst |]. exists tcs, tc. auto.
Qed.

Lemma RunTestSet_results_witness :
  let tr := Replay.mkTestCaseResult Examples.config "test-set-0"
              (Examples.answers (Examples.response 200 "bye" 0))
              (Examples.getHello "test-1") Replay.TestStatusFailed "differs"%string in
  Replay.TR_Name tr = "test-set-0"%string /\
  (Replay.TR_Status tr = Replay.TestStatusPassed \/
   Replay.TR_Status tr = Replay.TestStatusFailed) /\
  exists testCases tc,
    Replay.getTestCases Examples.differingSet = Replay.Ok testCases /\ tc ∈ testCases /\
    Replay.TR_TestCaseID tr = Replay.Name tc /\
    Replay.TR_Res tr = Replay.HttpResp_ tc /\
    Replay.TR_Noise tr = Replay.Noise tc.
Proof.
  apply (RunTestSet_results Examples.config Examples.differingSet "test-set-0"
           Examples.noGlobals).
  vm_compute. left.
Defined.

Section AllPass.
Context {Time Result : Type} `{Replay.Deps Time Result}.
Variable cfg : Replay.Config.

(** A test set in which every step of the run succeeds and every comparison
    passes: all test cases are entered and stored as passed, the report
    counts them all as successes, and the status is the one the signals
    delivered during the loop leave. *)
Lemma RunTestSet_all_pass_signalled (env : Replay.Env Time Result) testSetId g testCases :
  Replay.getTestCases env = Replay.Ok testCases ->
  testCases <> [] ->
  Replay.getFilteredMocks0 env = None ->
  Replay.getUnFilteredMocks0 env = None ->
  Replay.setMocks0 env = None ->
  Replay.insertReport0 env = None ->
  (forall j tc, testCases !! j = Some tc ->
                Replay.passes cfg testSetId (Replay.tcEnv env j) tc) ->
  (Replay.getTestCaseResults env).2 = None ->
  Replay.insertReport env = None ->
  Replay.errGrpWait env = None ->
  let r := Replay.RunTestSet cfg env testSetId g in
  let n := Z.of_nat (length testCases) in
  Replay.err r = None /\
  Replay.status r = Replay.signalled (Replay.tcEnv env) 0 (length testCases)
                      Replay.TestSetStatusPassed /\
  Replay.entered r = length testCases /\
  map Replay.TR_TestCaseID (Replay.results r) = map Replay.Name testCases /\
  Forall (fun tr => Replay.TR_Status tr = Replay.TestStatusPassed) (Replay.results r) /\
  (exists rep, Replay.finalReport r = Some rep /\
               Replay.Rep_Status rep = Replay.status r /\
               Replay.Rep_Total rep = n /\ Replay.Rep_Success rep = n /\
               Replay.Rep_Failure rep = 0) /\
  Replay.totalTests (Replay.globals r) = Replay.totalTests g + n /\
  Replay.totalTestPassed (Replay.globals r) = Replay.totalTestPassed g + n /\
  Replay.totalTestFailed (Replay.globals r) = Replay.totalTestFailed g /\
  Replay.completeTestReport (Replay.globals r) !! testSetId
    = Some {| Replay.total := n; Replay.passed := n; Replay.failed := 0 |}.
Proof.
  intros Htcs Hne Hf0 Hu0 Hs0 Hi0 Hpass Hfetch Hrep Hwait. cbv zeta.
  destruct (testLoop_all_pass cfg testSetId (Replay.tcEnv env) testCases 0
              {| Replay.testSetStatus := Replay.TestSetStatusPassed;
                 Replay.success := 0; Replay.failure := 0; Replay.inserted := [] |}
              Hpass) as (l' & Hrun & Hst & Hsucc & Hfail & Hids & Hall).
  cbn [Replay.testSetStatus Replay.success Replay.failure Replay.inserted
       length drop map app Nat.add] in Hrun, Hst, Hsucc, Hfail, Hids, Hall.
  unfold Replay.RunTestSet. rewrite Htcs, Hf0, Hu0, Hs0, Hi0.
  assert (Hlen : (Replay.len testCases =? 0) = false).
  { apply Z.eqb_neq. unfold Replay.len. destruct testCases; [contradiction | cbn; lia]. }
  rewrite Hlen, Hrun.
  destruct (Replay.getTestCaseResults env) as [fetched e]. cbn [snd] in Hfetch.
  subst e. rewrite Hrep, Hwait.
  destruct l' as [st' succ' fail' ins'].
  cbn [Replay.testSetStatus Replay.success Replay.failure Replay.inserted]
    in Hst, Hsucc, Hfail, Hids, Hall.
  rewrite Z.add_0_l in Hsucc. subst st' succ' fail'.
  cbn. unfold Replay.len.
  split; [reflexivity |]. split; [reflexivity |]. split; [reflexivity |].
  split; [exact Hids |]. split; [exact Hall |].
  split; [eexists; split; [reflexivity |]; cbn; auto |].
  split; [reflexivity |]. split; [reflexivity |]. split; [lia |].
  apply lookup_insert_eq.
Qed.

End AllPass.

(** X15. A test set whose test cases all pass, every call into the stores
    and the instrumentation succeeding and no signal arriving: [RunTestSet]
    returns "passed" without error, stores one passed result for each test
    case in order, reports successes equal to the total and no failure, and
    adds these numbers to the totals of the run. *)
Theorem RunTestSet_all_pass
        {Time Result : Type} `{Replay.Deps Time Result}
        (cfg : Replay.Config) (env : Replay.Env Time Result)
        (testSetId : string) (g : Replay.Globals)
        (testCases : list (Replay.TestCase Time)) :
  Replay.getTestCases env = Replay.Ok testCases ->
  testCases <> [] ->
  Replay.getFilteredMocks0 env = None ->
  Replay.getUnFilteredMocks0 env = None ->
  Replay.setMocks0 env = None ->
  Replay.insertReport0 env = None ->
  (forall j tc, testCases !! j = Some tc ->
                Replay.passes cfg testSetId (Replay.tcEnv env j) tc /\
                Replay.exitLoop (Replay.tcEnv env j) = None) ->
  (Replay.getTestCaseResults env).2 = None ->
  Replay.insertReport env = None ->
  Replay.errGrpWait env = None ->
  let r := Replay.RunTestSet cfg env testSetId g in
  let n := Z.of_nat (length testCases) in
  Replay.err r = None /\
  Replay.status r = Replay.TestSetStatusPassed /\
  map Replay.TR_TestCaseID (Replay.results r) = map Replay.Name testCases /\
  Forall (fun tr => Replay.TR_Status tr = Replay.TestStatusPassed) (Replay.results r) /\
  (exists rep, Replay.finalReport r = Some rep /\
               Replay.Rep_Status rep = Replay.TestSetStatusPassed /\
               Replay.Rep_Total rep = n /\ Replay.Rep_Success rep = n /\
               Replay.Rep_Failure rep = 0) /\
  Replay.totalTests (Replay.globals r) = Replay.totalTests g + n /\
  Replay.totalTestPassed (Replay.globals r) = Replay.totalTestPassed g + n /\
  Replay.totalTestFailed (Replay.globals r) = Replay.totalTestFailed g.
Proof.
  intros Htcs Hne Hf0 Hu0 Hs0 Hi0 Hpass Hfetch Hrep Hwait. cbv zeta.
  destruct (RunTestSet_all_pass_signalled cfg env testSetId g testCases
              Htcs Hne Hf0 Hu0 Hs0 Hi0 (fun j tc Hj => proj1 (Hpass j tc Hj))
              Hfetch Hrep Hwait)
    as (He & Hst & _ & Hids & Hall & (rep & Hlast & Hrst & Hrt & Hrs & Hrf) & Ht & Hp & Hf & _).
  rewrite signalled_none in Hst.
  2:{ intros j Hj. destruct (lookup_lt_is_Some_2 testCases j) as [tc Htc]; [lia |].
      exact (proj2 (Hpass j tc Htc)). }
  repeat split; try assumption.
  exists rep. rewrite Hrst, Hst. auto.
Qed.

Lemma RunTestSet_all_pass_witness :
  let env := Examples.testSet [Examples.getHello "test-1"; Examples.getHello "test-2"]
               (fun _ => Examples.answers (Examples.response 200 "hello" 0)) ([], None) in
  let r := Replay.RunTestSet Examples.config env "test-set-0" Examples.noGlobals in
  Replay.err r = None /\
  Replay.status r = Replay.TestSetStatusPassed /\
  map Replay.TR_TestCaseID (Replay.results r) = ["test-1"; "test-2"]%string /\
  Forall (fun tr => Replay.TR_Status tr = Replay.TestStatusPassed) (Replay.results r) /\
  (exists rep, Replay.finalReport r = Some rep /\
               Replay.Rep_Status rep = Replay.TestSetStatusPassed /\
               Replay.Rep_Total rep = 2 /\ Replay.Rep_Success rep = 2 /\
               Replay.Rep_Failure rep = 0) /\
  Replay.totalTests (Replay.globals r) = 0 + 2 /\
  Replay.totalTestPassed (Replay.globals r) = 0 + 2 /\
  Replay.totalTestFailed (Replay.globals r) = 0.
Proof.
  apply (RunTestSet_all_pass Examples.config
           (Examples.testSet [Examples.getHello "test-1"; Examples.getHello "test-2"]
              (fun _ => Examples.answers (Examples.response 200 "hello" 0)) ([], None))
           "test-set-0" Examples.noGlobals
           [Examples.getHello "test-1"; Examples.getHello "test-2"]);
    try reflexivity; try discriminate.
  intros j tc Hj. split; [| reflexivity].
  destruct j as [| [| j]]; cbn in Hj; try discriminate; injection Hj as <-;
    (repeat (split; [reflexivity |])); eexists _, _, _; split; reflexivity.
Defined.

(** X16. A signal on [exitLoopChan] does not end the loop: when it is
    delivered at some test case of a test set whose test cases all pass,
    with no later signal, every test case is still entered and stored as
    passed, the report counts them all as successes, and [RunTestSet]
    returns the status of the signal. *)
Theorem RunTestSet_signal_goes_on
        {Time Result : Type} `{Replay.Deps Time Result}
        (cfg : Replay.Config) (env : Replay.Env Time Result)
        (testSetId : string) (g : Replay.Globals)
        (testCases : list (Replay.TestCase Time))
        (j0 : nat) (sg : Replay.Signal) (st : Replay.TestSetStatus) :
  Replay.getTestCases env = Replay.Ok testCases ->
  Replay.getFilteredMocks0 env = None ->
  Replay.getUnFilteredMocks0 env = None ->
  Replay.setMocks0 env = None ->
  Replay.insertReport0 env = None ->
  (forall j tc, testCases !! j = Some tc ->
                Replay.passes cfg testSetId (Replay.tcEnv env j) tc) ->
  (j0 < length testCases)%nat ->
  Replay.exitLoop (Replay.tcEnv env j0) = Some sg ->
  Replay.statusBySignal sg = Some st ->
  (forall j, (j0 < j < length testCases)%nat ->
             Replay.exitLoop (Replay.tcEnv env j) = None) ->
  (Replay.getTestCaseResults env).2 = None ->
  Replay.insertReport env = None ->
  Replay.errGrpWait env = None ->
  let r := Replay.RunTestSet cfg env testSetId g in
  Replay.err r = None /\
  Replay.status r = st /\
  Replay.entered r = length testCases /\
  map Replay.TR_TestCaseID (Replay.results r) = map Replay.Name testCases /\
  exists rep, Replay.finalReport r = Some rep /\
              Replay.Rep_Status rep = st /\
              Replay.Rep_Success rep = Z.of_nat (length testCases) /\
              Replay.Rep_Failure rep = 0.
Proof.
  intros Htcs Hf0 Hu0 Hs0 Hi0 Hpass Hj0 Hsg Hst Hlater Hfetch Hrep Hwait. cbv zeta.
  assert (Hne : testCases <> []) by (destruct testCases; [cbn in Hj0; lia | discriminate]).
  destruct (RunTestSet_all_pass_signalled cfg env testSetId g testCases
              Htcs Hne Hf0 Hu0 Hs0 Hi0 Hpass Hfetch Hrep Hwait)
    as (He & Hstatus & Hent & Hids & _ & (rep & Hlast & Hrst & _ & Hrs & Hrf) & _).
  rewrite (signalled_last (Replay.tcEnv env) j0 sg st) in Hstatus;
    [| lia | assumption | assumption | intros j Hj; apply Hlater; lia].
  repeat split; try assumption.
  exists rep. rewrite Hrst, Hstatus. auto.
Qed.

Lemma RunTestSet_signal_goes_on_witness :
  let halted : Replay.TcEnv Z :=
    {| Replay.exitLoop := Some (Replay.AppErr Replay.ErrAppStopped);
       Replay.getFilteredMocks := None; Replay.getUnFilteredMocks := None;
       Replay.setMocks := None; Replay.getAppIp := Replay.Ok "172.17.0.2"%string;
       Replay.simulateHttp :=
         fun _ => (Some (Examples.response 200 "hello" 0), None);
       Replay.started := 1000; Replay.completed := 1001;
       Replay.insertTestCaseResult := None |} in
  let env := Examples.testSet [Examples.getHello "test-1"; Examples.getHello "test-2"]
               (fun j => match j with
                         | O => halted
                         | _ => Examples.answers (Examples.response 200 "hello" 0)
                         end) ([], None) in
  let r := Replay.RunTestSet Examples.config env "test-set-0" Examples.noGlobals in
  Replay.err r = None /\
  Replay.status r = Replay.TestSetStatusAppHalted /\
  Replay.entered r = 2%nat /\
  map Replay.TR_TestCaseID (Replay.results r) = ["test-1"; "test-2"]%string /\
  exists rep, Replay.finalReport r = Some rep /\
              Replay.Rep_Status rep = Replay.TestSetStatusAppHalted /\
              Replay.Rep_Success rep = 2 /\
              Replay.Rep_Failure rep = 0.
Proof.
  cbv zeta.
  eapply (RunTestSet_signal_goes_on Examples.config _ "test-set-0" Examples.noGlobals
            [Examples.getHello "test-1"; Examples.getHello "test-2"] 0
            (Replay.AppErr Replay.ErrAppStopped) Replay.TestSetStatusAppHalted);
    try reflexivity; try (cbn; lia).
  - intros j tc Hj.
    destruct j as [| [| j]]; cbn in Hj; try discriminate; injection Hj as <-;
      (repeat (split; [reflexivity |])); eexists _, _, _; split; reflexivity.
  - intros j Hj. cbn in Hj. destruct j as [| [| j]]; try lia. reflexivity.
Defined.

(** ** package replay: more on Start, BootReplay, ProvideMocks, printSummary *)

Section StartMore.
Context {Time Result : Type} `{Replay.Deps Time Result}.
Variable cfg : Replay.Config.

Lemma RunTestSet_consistent (env : Replay.Env Time Result) testSetId g :
  Replay.consistent g ->
  Replay.consistent (Replay.globals (Replay.RunTestSet cfg env testSetId g)).
Proof.
  intros Hg.
  destruct (RunTestSet_cases cfg env testSetId g)
    as [(_ & _ & -> & _) | [(_ & ->) | (tcs & brk & l & rep0 & rep & _ & Hloop & _
                                       & _ & _ & _ & _ & _ & Ht & Hs & Hf & _ & _ & Hend)]];
    [exact Hg | exact Hg |].
  pose proof (testLoop_counters cfg testSetId (Replay.tcEnv env) tcs 0
                {| Replay.testSetStatus := Replay.TestSetStatusPassed;
                   Replay.success := 0; Replay.failure := 0;
                   Replay.inserted := [] |}) as Hc.
  cbv zeta in Hc. rewrite Hloop in Hc. cbn in Hc.
  destruct Hc as (Hsl & Hfl & Hsum & _ & Hn); try lia.
  assert (Hnew : Replay.consistent
            {| Replay.completeTestReport :=
                 <[testSetId := {| Replay.total := Replay.Rep_Total rep;
                                   Replay.passed := Replay.Rep_Success rep;
                                   Replay.failed := Replay.Rep_Failure rep |}]>
                   (Replay.completeTestReport g);
               Replay.totalTests := Replay.totalTests g + Replay.Rep_Total rep;
               Replay.totalTestPassed := Replay.totalTestPassed g + Replay.Rep_Success rep;
               Replay.totalTestFailed := Replay.totalTestFailed g + Replay.Rep_Failure rep |}).
  { destruct Hg as (Hp & Hfa & Hle & Hmap). unfold Replay.consistent. cbn.
    rewrite Ht, Hs, Hf.
    split; [lia |]. split; [lia |]. split; [lia |].
    apply map_Forall_insert_2; [cbn; lia | exact Hmap]. }
  destruct Hend as [(_ & _ & [-> | ->]) | (_ & _ & ->)]; assumption.
Qed.

Lemma testSetLoop_consistent envs testSetIds : forall i tsr trr g ex,
  Replay.consistent g ->
  Replay.consistent (Replay.testSetLoop cfg envs i testSetIds tsr trr g ex).1.2.
Proof.
  induction testSetIds as [| testSetId rest IH]; intros i tsr trr g ex Hg;
    cbn [Replay.testSetLoop]; [exact Hg |].
  pose proof (RunTestSet_consistent (envs i) testSetId g Hg) as Hg'.
  destruct (Replay.err (Replay.RunTestSet cfg (envs i) testSetId g)); [exact Hg' |].
  destruct (Replay.status (Replay.RunTestSet cfg (envs i) testSetId g));
    first [exact Hg' | now apply IH].
Qed.

(** The statuses collected by the loop over the test sets: all but the last
    are "passed" or "failed", and there is at most one for each test set. *)
Lemma testSetLoop_statuses envs testSetIds : forall i tsr trr g ex,
  let passedOrFailed (st : Replay.TestSetStatus) :=
    st = Replay.TestSetStatusPassed \/ st = Replay.TestSetStatusFailed in
  Forall passedOrFailed ex ->
  let ex' := (Replay.testSetLoop cfg envs i testSetIds tsr trr g ex).2 in
  (length ex' <= length ex + length testSetIds)%nat /\
  (Forall passedOrFailed ex' \/
   exists st, ex' = removelast ex' ++ [st] /\ Forall passedOrFailed (removelast ex')).
Proof.
  cbv zeta.
  induction testSetIds as [| testSetId rest IH]; intros i tsr trr g ex Hex;
    cbn [Replay.testSetLoop].
  - cbn. split; [lia | now left].
  - assert (Hstop : forall (x : Replay.LoopEnd * Replay.Globals),
               (length (x, ex ++ [Replay.status (Replay.RunTestSet cfg (envs i) testSetId g)]).2
                <= length ex + length (testSetId :: rest))%nat /\
               (Forall (fun st => st = Replay.TestSetStatusPassed \/
                                  st = Replay.TestSetStatusFailed)
                       (x, ex ++ [Replay.status (Replay.RunTestSet cfg (envs i) testSetId g)]).2 \/
                exists st,
                  (x, ex ++ [Replay.status (Replay.RunTestSet cfg (envs i) testSetId g)]).2
                  = removelast (x, ex ++ [Replay.status (Replay.RunTestSet cfg (envs i) testSetId g)]).2
                    ++ [st] /\
                  Forall (fun st => st = Replay.TestSetStatusPassed \/
                                    st = Replay.TestSetStatusFailed)
                         (removelast (x, ex ++ [Replay.status (Replay.RunTestSet cfg (envs i) testSetId g)]).2))).
    { intros x. cbn [snd]. rewrite length_app. cbn [length]. split; [lia |].
      right. eexists. rewrite removelast_last. split; [reflexivity | exact Hex]. }
    destruct (Replay.err (Replay.RunTestSet cfg (envs i) testSetId g));
      [apply (Hstop (_, _)) |].
    destruct (Replay.status (Replay.RunTestSet cfg (envs i) testSetId g)) eqn:Hst;
      try apply (Hstop (_, _)).
    + exfalso. exact (RunTestSet_not_running cfg (envs i) testSetId g Hst).
    + match goal with
      | |- context [Replay.testSetLoop _ _ _ _ ?a ?b ?c ?d] =>
          destruct (IH (S i) a b c d) as [Hlen Hrest]
      end.
      { apply Forall_app. split; [exact Hex | repeat constructor; now right]. }
      rewrite length_app in Hlen. cbn [length] in Hlen |- *.
      split; [lia | exact Hrest].
    + match goal with
      | |- context [Replay.testSetLoop _ _ _ _ ?a ?b ?c ?d] =>
          destruct (IH (S i) a b c d) as [Hlen Hrest]
      end.
      { apply Forall_app. split; [exact Hex | repeat constructor; now left]. }
      rewrite length_app in Hlen. cbn [length] in Hlen |- *.
      split; [lia | exact Hrest].
Qed.

(** The reason the loop over the test sets leaves for the deferred stop is
    empty exactly when the loop returns no error. *)
Lemma testSetLoop_reason envs testSetIds : forall i tsr trr g ex ret reason g' ex',
  Replay.testSetLoop cfg envs i testSetIds tsr trr g ex
    = (Replay.Returned ret reason, g', ex') ->
  (ret = None /\ reason = ""%string) \/ (is_Some ret /\ reason <> ""%string).
Proof.
  induction testSetIds as [| testSetId rest IH]; intros i tsr trr g ex ret reason g' ex';
    cbn [Replay.testSetLoop]; [discriminate |].
  destruct (Replay.err (Replay.RunTestSet cfg (envs i) testSetId g)).
  { intros E. injection E as <- <- _ _. right. split; [eauto | discriminate]. }
  destruct (Replay.status (Replay.RunTestSet cfg (envs i) testSetId g));
    try discriminate; try apply IH.
  intros E. injection E as <- <- _ _. now left.
Qed.

End StartMore.

(** The deferred stop with an empty reason never invokes the cancel
    function; with a reason, a logger, a cancel function and a context
    that is not done it invokes the cancel function once. *)
Lemma deferredStop_empty {Time Result : Type} (e : Replay.StartEnv Time Result) c :
  Ctx.cancelCalls (Replay.deferredStop e "" c) = Ctx.cancelCalls c.
Proof.
  unfold Replay.deferredStop, Ctx.Stop.
  destruct (Replay.ctxDoneAtExit e); [reflexivity |].
  destruct (Replay.logger e); [reflexivity |].
  destruct (Ctx.cancel c); reflexivity.
Qed.

Lemma deferredStop_reason {Time Result : Type} (e : Replay.StartEnv Time Result)
      reason c f :
  reason <> ""%string ->
  Replay.ctxDoneAtExit e = false -> Replay.logger e = Ctx.SomeLogger ->
  Ctx.cancel c = Some f ->
  Ctx.cancelCalls (Replay.deferredStop e reason c) = f :: Ctx.cancelCalls c.
Proof.
  intros Hr Hd Hl Hc. unfold Replay.deferredStop. rewrite Hd, Hl.
  now destruct (Stop_calls_cancel f reason c Hc Hr).
Qed.

Lemma deferredStop_done {Time Result : Type} (e : Replay.StartEnv Time Result) reason c :
  Replay.ctxDoneAtExit e = true -> Replay.deferredStop e reason c = c.
Proof. intros Hd. unfold Replay.deferredStop. now rewrite Hd. Qed.

(** X17. [Start] keeps the totals of the summary sound: if, before the run,
    the tests passed and failed are not negative and together at most the
    tests counted, for the run and for every test set in
    [completeTestReport], the same holds after the run. *)
Theorem Start_consistent
        {Time Result : Type} `{Replay.Deps Time Result}
        (cfg : Replay.Config) (e : Replay.StartEnv Time Result)
        (g : Replay.Globals) (c : Ctx.State) :
  Replay.consistent g ->
  Replay.consistent (Replay.finalGlobals (Replay.Start cfg e g c)).
Proof.
  intros Hg. unfold Replay.Start.
  destruct (Replay.BootReplay e) as [[testRunId appId] | err]; [| exact Hg].
  destruct (Replay.getAllTestSetIds e) as [testSetIds | err]; [| exact Hg].
  pose proof (testSetLoop_consistent cfg (Replay.runEnv e) testSetIds 0 false true g []
                Hg) as Hloop.
  destruct (Replay.testSetLoop cfg (Replay.runEnv e) 0 testSetIds false true g [])
    as [[fin g'] executed].
  destruct fin; exact Hloop.
Qed.

Lemma Start_consistent_witness :
  Replay.consistent
    (Replay.finalGlobals
       (Replay.Start Examples.config (Examples.oneSet Examples.differingSet)
          Examples.noGlobals Examples.ctxStart)).
Proof.
  apply (Start_consistent Examples.config (Examples.oneSet Examples.differingSet)
           Examples.noGlobals Examples.ctxStart).
  unfold Replay.consistent. cbn. repeat (split; [lia |]). apply map_Forall_empty.
Defined.

(** X18. [Start] runs the test sets in order and stops at the first one
    that does not end "passed" or "failed": of the statuses of the test
    sets run, all but the last are "passed" or "failed"; and no more test
    sets are run than [GetAllTestSetIds] listed. *)
Theorem Start_statuses
        {Time Result : Type} `{Replay.Deps Time Result}
        (cfg : Replay.Config) (e : Replay.StartEnv Time Result)
        (g : Replay.Globals) (c : Ctx.State) :
  let r := Replay.Start cfg e g c in
  (forall pre st,
      Replay.statuses r = pre ++ [st] ->
      Forall (fun st' => st' = Replay.TestSetStatusPassed \/
                         st' = Replay.TestSetStatusFailed) pre) /\
  (forall testSetIds,
      Replay.getAllTestSetIds e = Replay.Ok testSetIds ->
      (length (Replay.statuses r) <= length testSetIds)%nat) /\
  (forall err, Replay.BootReplay e = Replay.Fail err -> Replay.statuses r = []).
Proof.
  cbv zeta. unfold Replay.Start.
  destruct (Replay.BootReplay e) as [[testRunId appId] | err].
  2:{ cbn. split; [| split; [intros; lia | reflexivity]].
      intros pre st E. now destruct pre. }
  destruct (Replay.getAllTestSetIds e) as [testSetIds | err].
  2:{ cbn. split; [| split; [discriminate | discriminate]].
      intros pre st E. now destruct pre. }
  pose proof (testSetLoop_statuses cfg (Replay.runEnv e) testSetIds 0 false true g []) as Hl.
  cbv zeta in Hl. specialize (Hl (Forall_nil_2 _)).
  destruct (Replay.testSetLoop cfg (Replay.runEnv e) 0 testSetIds false true g [])
    as [[fin g'] executed].
  cbn [snd length Nat.add] in Hl. destruct Hl as [Hlen Hshape].
  assert (Hgoal :
            (forall pre st, executed = pre ++ [st] ->
               Forall (fun st' => st' = Replay.TestSetStatusPassed \/
                                  st' = Replay.TestSetStatusFailed) pre) /\
            (forall ids, Replay.Ok (A := list string) testSetIds = Replay.Ok ids ->
                         (length executed <= length ids)%nat)).
  { split.
    - intros pre st E. destruct Hshape as [Hall | (st0 & _ & Hpre)].
      + rewrite E in Hall. now apply Forall_app in Hall as [Hall _].
      + rewrite E, removelast_last in Hpre. exact Hpre.
    - intros ids E. injection E as <-. exact Hlen. }
  destruct Hgoal as [G1 G2].
  destruct fin; cbn; (split; [exact G1 | split; [exact G2 | discriminate]]).
Qed.

(** X19. [Start] stops keploy only when it fails: when it returns nil, the
    cancel function is not invoked by it; when it returns an error while
    the context is not done, with a logger and a cancel function set, the
    cancel function is invoked once; and with a context that is done the
    stop function is not called at all. *)
Theorem Start_stops_on_error
        {Time Result : Type} `{Replay.Deps Time Result}
        (cfg : Replay.Config) (e : Replay.StartEnv Time Result)
        (g : Replay.Globals) (c : Ctx.State) :
  let r := Replay.Start cfg e g c in
  (Replay.ret r = None -> Ctx.cancelCalls (Replay.ctxState r) = Ctx.cancelCalls c) /\
  (is_Some (Replay.ret r) -> Replay.ctxDoneAtExit e = false ->
   Replay.logger e = Ctx.SomeLogger ->
   forall f, Ctx.cancel c = Some f ->
             Ctx.cancelCalls (Replay.ctxState r) = f :: Ctx.cancelCalls c) /\
  (Replay.ctxDoneAtExit e = true -> Replay.ctxState r = c).
Proof.
  cbv zeta. unfold Replay.Start.
  destruct (Replay.BootReplay e) as [[testRunId appId] | err].
  2:{ cbn. split; [discriminate |]. split.
      - intros _ Hd Hl f Hc. apply deferredStop_reason; try assumption. discriminate.
      - apply deferredStop_done. }
  destruct (Replay.getAllTestSetIds e) as [testSetIds | err].
  2:{ cbn. split; [discriminate |]. split.
      - intros _ Hd Hl f Hc. apply deferredStop_reason; try assumption. discriminate.
      - apply deferredStop_done. }
  destruct (Replay.testSetLoop cfg (Replay.runEnv e) 0 testSetIds false true g [])
    as [[fin g'] executed] eqn:Hloop.
  destruct fin as [ret reason | abortTestRun testRunResult]; cbn.
  - destruct (testSetLoop_reason cfg _ _ _ _ _ _ _ _ _ _ _ Hloop)
      as [(-> & ->) | (Hret & Hreason)].
    + split; [intros _; apply deferredStop_empty |].
      split; [intros [x D]; discriminate | apply deferredStop_done].
    + split; [intros ->; destruct Hret; discriminate |].
      split; [| apply deferredStop_done].
      intros _ Hd Hl f Hc. now apply deferredStop_reason.
  - split; [intros _; apply deferredStop_empty |].
    split; [intros [x D]; discriminate | apply deferredStop_done].
Qed.

Lemma rangeKeys_NoDup {V : Type} (order : list string) (m : gmap string V) :
  NoDup (Replay.rangeKeys order m).
Proof.
  unfold Replay.rangeKeys. apply NoDup_app. split; [| split].
  - apply NoDup_filter, NoDup_remove_dups.
  - intros k Hk Hk'. apply list_elem_of_filter in Hk as [_ Hk].
    apply list_elem_of_filter in Hk' as [Hk' _].
    apply Hk'. rewrite elem_of_remove_dups in Hk. exact Hk.
  - apply NoDup_filter, NoDup_fst_map_to_list.
Qed.

Lemma rangeKeys_keys {V : Type} (order : list string) (m : gmap string V)
      (k : string) :
  k ∈ Replay.rangeKeys order m <-> is_Some (m !! k).
Proof.
  unfold Replay.rangeKeys. rewrite elem_of_app, !list_elem_of_filter.
  rewrite elem_of_remove_dups. split.
  - intros [[Hk _] | [_ Hk]]; [exact Hk |].
    apply list_elem_of_fmap in Hk as ([k' v] & -> & Hin).
    apply elem_of_map_to_list in Hin. cbn. rewrite Hin. eauto.
  - intros [v Hv]. destruct (decide (k ∈ order)) as [Hin | Hout].
    + left. split; [rewrite Hv; eauto | exact Hin].
    + right. split; [exact Hout |].
      apply list_elem_of_fmap. exists (k, v). split; [reflexivity |].
      apply elem_of_map_to_list. exact Hv.
Qed.

(** An order of the keys without repetition is the order in which they
    are yielded. *)
Lemma rangeKeys_order {V : Type} (order : list string) (m : gmap string V) :
  NoDup order -> (forall k, k ∈ order <-> is_Some (m !! k)) ->
  Replay.rangeKeys order m = order.
Proof.
  intros Hnd Hkeys. unfold Replay.rangeKeys.
  assert (E0 : remove_dups order = order).
  { clear Hkeys. induction Hnd as [| k l Hk _ IH]; [reflexivity |].
    cbn. case_decide; [contradiction | f_equal; exact IH]. }
  assert (E1 : forall l : list string,
                 (forall k, k ∈ l -> is_Some (m !! k)) ->
                 filter (fun k => is_Some (m !! k)) l = l).
  { induction l as [| k l IH]; intros Hl; [reflexivity |].
    rewrite filter_cons_True by (apply Hl; left).
    f_equal. apply IH. intros k' Hk'. apply Hl. right. exact Hk'. }
  assert (E2 : filter (fun k => k ∉ order) (map_to_list m).*1 = []).
  { apply elem_of_nil_inv. intros k Hk.
    apply list_elem_of_filter in Hk as [Hout Hk]. apply Hout, Hkeys.
    apply list_elem_of_fmap in Hk as ([k' v] & -> & Hin).
    apply elem_of_map_to_list in Hin. cbn. rewrite Hin. eauto. }
  rewrite E0, E2, app_nil_r. apply E1. intros k. apply Hkeys.
Qed.

(** X20. [printSummary] prints nothing when no test was counted.  Otherwise
    it logs the verdict it was given and lists the test sets stored in
    [completeTestReport], each exactly once and with the counts stored for
    it, whatever the order in which [range] yielded them: the rows are the
    entries of the map in some order. *)
Theorem printSummary_rows
        (order : list string) (g : Replay.Globals) (testRunResult : bool) :
  (Replay.totalTests g <= 0 -> Replay.printSummary order g testRunResult = None) /\
  (0 < Replay.totalTests g ->
   exists rows,
     Replay.printSummary order g testRunResult = Some (rows, testRunResult) /\
     rows ≡ₚ map_to_list (Replay.completeTestReport g)).
Proof.
  unfold Replay.printSummary. split.
  - intros Hle. destruct (Z.ltb_spec 0 (Replay.totalTests g)); [lia | reflexivity].
  - intros Hlt. destruct (Z.ltb_spec 0 (Replay.totalTests g)); [| lia].
    eexists. split; [reflexivity |].
    apply NoDup_Permutation.
    + apply (NoDup_fmap_1 fst). rewrite <- list_fmap_compose.
      change (fst ∘ _) with (@id string). rewrite list_fmap_id.
      rewrite (SliceStable_perm Replay.testSuiteLess). apply rangeKeys_NoDup.
    + apply NoDup_map_to_list.
    + intros [n v]. rewrite elem_of_map_to_list.
      fold (fmap (M := list)
              (fun n => (n, default {| Replay.total := 0; Replay.passed := 0;
                                       Replay.failed := 0 |}
                              (Replay.completeTestReport g !! n)))).
      rewrite list_elem_of_fmap. split.
      * intros (n' & E & Hin). injection E as -> ->.
        unfold Replay.sortTestSuiteNames in Hin.
        rewrite (SliceStable_perm Replay.testSuiteLess) in Hin.
        apply rangeKeys_keys in Hin as [v Hv]. rewrite Hv. reflexivity.
      * intros Hv. exists n. rewrite Hv. split; [reflexivity |].
        unfold Replay.sortTestSuiteNames.
        rewrite (SliceStable_perm Replay.testSuiteLess).
        apply rangeKeys_keys. eauto.
Qed.

(** X21. [BootReplay] succeeds exactly when listing the test runs, setting
    up the instrumentation and starting the hooks succeed with the context
    not done; it then returns the id [NewId] makes of the listed runs and
    the app id of the setup.  An error of cancellation is handed on as it
    came, never wrapped. *)
Theorem BootReplay_result
        {Time Result : Type} `{Replay.Deps Time Result}
        (e : Replay.StartEnv Time Result) :
  (forall testRunId appId,
      Replay.BootReplay e = Replay.Ok (testRunId, appId) <->
      exists testRunIds,
        Replay.getAllTestRunIds e = Replay.Ok testRunIds /\
        testRunId = Replay.NewId testRunIds /\
        Replay.setup e = Replay.Ok appId /\
        Replay.ctxDoneAtHook e = false /\
        Replay.hook e = None) /\
  (forall err,
      Replay.BootReplay e = Replay.Fail err -> Replay.isCanceled err = true ->
      Replay.getAllTestRunIds e = Replay.Fail err \/
      Replay.setup e = Replay.Fail err \/
      (Replay.ctxDoneAtHook e = true /\ err = Replay.Canceled "context canceled") \/
      Replay.hook e = Some err).
Proof.
  unfold Replay.BootReplay. split.
  - intros testRunId appId.
    destruct (Replay.getAllTestRunIds e) as [ids | e1].
    2:{ split; [destruct (Replay.isCanceled e1); discriminate |].
        intros (ids & D & _). discriminate. }
    destruct (Replay.setup e) as [app | e2].
    2:{ split; [destruct (Replay.isCanceled e2); discriminate |].
        intros (ids' & _ & _ & D & _). discriminate. }
    destruct (Replay.ctxDoneAtHook e).
    { split; [discriminate | intros (ids' & _ & _ & _ & D & _); discriminate]. }
    destruct (Replay.hook e) as [e3 |].
    { split; [destruct (Replay.isCanceled e3); discriminate |].
      intros (ids' & _ & _ & _ & _ & D). discriminate. }
    split.
    + intros E. injection E as <- <-. exists ids. auto.
    + intros (ids' & E1 & -> & E2 & _). injection E1 as <-. injection E2 as <-.
      reflexivity.
  - intros err.
    destruct (Replay.getAllTestRunIds e) as [ids | e1].
    2:{ destruct (Replay.isCanceled e1) eqn:Hc1; intros E; injection E as <-;
          [auto | destruct e1; discriminate]. }
    destruct (Replay.setup e) as [app | e2].
    2:{ destruct (Replay.isCanceled e2) eqn:Hc2; intros E; injection E as <-;
          [auto | destruct e2; discriminate]. }
    destruct (Replay.ctxDoneAtHook e).
    { intros E. injection E as <-. auto. }
    destruct (Replay.hook e) as [e3 |]; [| discriminate].
    destruct (Replay.isCanceled e3) eqn:Hc3; intros E; injection E as <-;
      [auto | destruct e3; discriminate].
Qed.

(** X22. [ProvideMocks] returns an error exactly when fetching the mocks,
    booting or setting the mocks fails.  It stops keploy only then: when it
    returns nil the stop function is not called; when it returns an error
    with the context not done, a logger and a cancel function set, the
    cancel function is invoked once. *)
Theorem ProvideMocks_stops_on_error
        {Time Result : Type} `{Replay.Deps Time Result}
        (e : Replay.StartEnv Time Result)
        (getFiltered getUnFiltered setMocksErr : option Replay.error)
        (c : Ctx.State) :
  let r := Replay.ProvideMocks e getFiltered getUnFiltered setMocksErr c in
  (r.1 = None <->
   getFiltered = None /\ getUnFiltered = None /\
   (exists boot, Replay.BootReplay e = Replay.Ok boot) /\ setMocksErr = None) /\
  (r.1 = None -> r.2 = c) /\
  (is_Some r.1 -> Replay.ctxDoneAtExit e = false ->
   Replay.logger e = Ctx.SomeLogger ->
   forall f, Ctx.cancel c = Some f -> Ctx.cancelCalls r.2 = f :: Ctx.cancelCalls c).
Proof.
  cbv zeta. unfold Replay.ProvideMocks.
  assert (Hstop : forall reason, reason <> ""%string ->
            Replay.ctxDoneAtExit e = false -> Replay.logger e = Ctx.SomeLogger ->
            forall f, Ctx.cancel c = Some f ->
                      Ctx.cancelCalls (Replay.deferredStop e reason c)
                      = f :: Ctx.cancelCalls c).
  { intros reason Hr Hd Hl f Hc. now apply deferredStop_reason. }
  destruct getFiltered as [e1 |].
  { cbn. split; [split; [discriminate | intros (D & _); discriminate] |].
    split; [discriminate | intros _; now apply Hstop]. }
  destruct getUnFiltered as [e2 |].
  { cbn. split; [split; [discriminate | intros (_ & D & _); discriminate] |].
    split; [discriminate | intros _; now apply Hstop]. }
  destruct (Replay.BootReplay e) as [[testRunId appId] | e3].
  2:{ cbn. split; [split; [discriminate | intros (_ & _ & (b & D) & _); discriminate] |].
      split; [discriminate | intros _; now apply Hstop]. }
  destruct setMocksErr as [e4 |].
  { cbn. split; [split; [discriminate | intros (_ & _ & _ & D); discriminate] |].
    split; [discriminate | intros _; now apply Hstop]. }
  cbn. split; [split; [intros _; eauto 6 | reflexivity] |].
  split; [reflexivity | intros [x D]; discriminate].
Qed.

(** ** package replay: the sort of the summary is stable *)

Section SortStable.
Import SummaryOrder.

Lemma insertLeft_same_number n x l :
  numbered x -> Forall numbered l ->
  List.filter (fun a => idOf a =? n) (rev (Replay.insertLeft Replay.testSuiteLess x l))
  = List.filter (fun a => idOf a =? n) (rev l ++ [x]).
Proof.
  intros Hx. induction l as [| y r IH]; intros Hl; cbn [Replay.insertLeft];
    [reflexivity |].
  apply Forall_cons_1 in Hl as [Hy Hr].
  rewrite testSuiteLess_numbered by assumption.
  destruct (Z.ltb_spec (idOf x) (idOf y)) as [Hlt | Hge]; [| reflexivity].
  cbn [rev]. rewrite !List.filter_app, IH by assumption.
  rewrite List.filter_app, <- !app_assoc. f_equal.
  cbn [List.filter].
  destruct (Z.eqb_spec (idOf x) n), (Z.eqb_spec (idOf y) n); try reflexivity; lia.
Qed.

End SortStable.

(** X23. The sort of the summary is stable: among names with three
    dash-separated parts and a numeric third part, those of the same number
    stand in the sorted list in the order they had before. *)
Theorem sortTestSuiteNames_stable (names : list string) (n : Z) :
  Forall SummaryOrder.numbered names ->
  List.filter (fun a => SummaryOrder.idOf a =? n) (Replay.sortTestSuiteNames names)
  = List.filter (fun a => SummaryOrder.idOf a =? n) names.
Proof.
  intros Hn. unfold Replay.sortTestSuiteNames, Replay.SliceStable.
  assert (G : forall acc,
             Forall SummaryOrder.numbered acc ->
             List.filter (fun a => SummaryOrder.idOf a =? n)
               (rev (fold_left
                       (fun sortedRev x =>
                          Replay.insertLeft Replay.testSuiteLess x sortedRev)
                       names acc))
             = List.filter (fun a => SummaryOrder.idOf a =? n) (rev acc ++ names)).
  { induction names as [| x names IH]; intros acc Hacc; cbn [fold_left].
    - now rewrite app_nil_r.
    - apply Forall_cons_1 in Hn as [Hx Hn].
      rewrite IH by (try assumption; now apply insertLeft_numbered).
      rewrite List.filter_app, insertLeft_same_number by assumption.
      rewrite <- List.filter_app, <- app_assoc. reflexivity. }
  apply (G [] (Forall_nil_2 _)).
Qed.

Lemma sortTestSuiteNames_stable_witness :
  List.filter (fun a => SummaryOrder.idOf a =? 1)
    (Replay.sortTestSuiteNames ["b-set-1"; "test-set-2"; "a-set-1"]%string)
  = List.filter (fun a => SummaryOrder.idOf a =? 1)
      ["b-set-1"; "test-set-2"; "a-set-1"]%string.
Proof.
  apply (sortTestSuiteNames_stable ["b-set-1"; "test-set-2"; "a-set-1"]%string 1).
  repeat constructor; vm_compute; eauto.
Defined.

(** ** package test: Contains, MatchesAnyRegex, CompareHeaders *)

(** X24. [Contains] tells whether the string is one of the elements. *)
Theorem Contains_elem_of (elems : list string) (v : string) :
  Compare.Contains elems v = true <-> v ∈ elems.
Proof.
  induction elems as [| s rest IH]; cbn [Compare.Contains].
  - split; [discriminate | intros Hin; now apply elem_of_nil in Hin].
  - rewrite elem_of_cons. destruct (String.eqb_spec v s) as [-> | Hne].
    + split; auto.
    + rewrite IH. split; [auto | intros [D | Hin]; [contradiction | exact Hin]].
Qed.

(** X25. With patterns that all compile, [MatchesAnyRegex] returns whether
    one of them matches the string.  It stops at the first pattern that
    matches: patterns after it are not compiled, so a bad pattern there
    does not make it panic. *)
Theorem MatchesAnyRegex_exists `{Compare.Regexp} (str : string) (regexArray : list string) :
  ((forall pattern, pattern ∈ regexArray -> is_Some (Compare.MatchString pattern str)) ->
   exists b, Compare.MatchesAnyRegex str regexArray = Some b /\
             (b = true <->
              exists pattern, pattern ∈ regexArray /\
                              Compare.MatchString pattern str = Some true)) /\
  (forall before pattern after,
      regexArray = before ++ pattern :: after ->
      (forall p, p ∈ before -> Compare.MatchString p str = Some false) ->
      Compare.MatchString pattern str = Some true ->
      Compare.MatchesAnyRegex str regexArray = Some true).
Proof.
  split.
  - induction regexArray as [| p rest IH]; intros Hall; cbn [Compare.MatchesAnyRegex].
    + exists false. split; [reflexivity |].
      split; [discriminate | intros (q & Hin & _); now apply elem_of_nil in Hin].
    + destruct (Hall p) as [[|] Hp]; [left | |]; rewrite Hp.
      * exists true. split; [reflexivity |]. split; [| reflexivity].
        intros _. exists p. split; [left | exact Hp].
      * destruct IH as (b & Hrun & Hb); [intros q Hq; apply Hall; now right |].
        exists b. split; [exact Hrun |]. rewrite Hb. split.
        -- intros (q & Hq & Hm). exists q. split; [now right | exact Hm].
        -- intros (q & Hq & Hm). apply elem_of_cons in Hq as [-> | Hq];
             [congruence | eauto].
  - intros before. revert regexArray.
    induction before as [| q before IH]; intros regexArray pattern after -> Hbefore Hm;
      cbn [app Compare.MatchesAnyRegex].
    + now rewrite Hm.
    + rewrite (Hbefore q) by left.
      apply (IH _ pattern after eq_refl); [| exact Hm].
      intros p Hp. apply Hbefore. now right.
Qed.

Section CompareHeadersFacts.
Context `{Compare.Regexp}.

Implicit Types (res : list Compare.HeaderResult) (h : Compare.HttpHeader)
         (st : list Compare.HeaderResult * bool).

Lemma checkKey_keys res k :
  Compare.checkKey res k = true <-> k ∉ Compare.keys res.
Proof.
  induction res as [| r res IH]; cbn [Compare.checkKey Compare.keys map].
  - split; [intros _ Hin; now apply elem_of_nil in Hin | reflexivity].
  - rewrite not_elem_of_cons.
    destruct (String.eqb_spec k (Compare.Key (Compare.Expected r))) as [E | NE].
    + split; [discriminate | intros [D _]; contradiction].
    + rewrite IH. unfold Compare.keys. tauto.
Qed.

Lemma grows_refl k res : Compare.grows k res res.
Proof.
  split; [exists []; now rewrite app_nil_r |]. split; [auto | auto].
Qed.

Lemma grows_trans k res1 res2 res3 :
  Compare.grows k res1 res2 -> Compare.grows k res2 res3 -> Compare.grows k res1 res3.
Proof.
  intros ([m1 ->] & Hn1 & Hk1) ([m2 ->] & Hn2 & Hk2).
  split; [exists (m1 ++ m2); now rewrite app_assoc |].
  split; [auto |].
  intros k' Hin. destruct (Hk2 k' Hin) as [Hin' | ->]; auto.
Qed.

Lemma record_grows res k r :
  Compare.Key (Compare.Expected r) = k ->
  Compare.grows k res (Compare.record res k r) /\ k ∈ Compare.keys (Compare.record res k r).
Proof.
  intros Hk. unfold Compare.record.
  destruct (Compare.checkKey res k) eqn:Hck.
  - apply checkKey_keys in Hck. split; [split; [eauto | split] |].
    + intros Hnd. unfold Compare.keys. rewrite map_app. cbn [map]. rewrite Hk.
      apply NoDup_app. split; [exact Hnd |]. split.
      * intros x Hx Hx'. apply list_elem_of_singleton in Hx' as ->. contradiction.
      * apply NoDup_singleton.
    + intros k'. unfold Compare.keys. rewrite map_app, elem_of_app. cbn [map].
      rewrite Hk, list_elem_of_singleton. auto.
    + unfold Compare.keys. rewrite map_app, elem_of_app. cbn [map]. rewrite Hk.
      right. left.
  - split; [apply grows_refl |].
    destruct (decide (k ∈ Compare.keys res)) as [Hin | Hnin]; [exact Hin |].
    apply checkKey_keys in Hnin. congruence.
Qed.

Lemma elements_grows k v val : forall vs vals st,
  Compare.grows k (fst st) (fst (Compare.elements k v val vs vals st)).
Proof.
  induction vs as [| e vs IH]; intros vals st; cbn [Compare.elements];
    [apply grows_refl |].
  destruct vals as [| e' vals]; [apply grows_refl |].
  destruct (negb (String.eqb e' e)); [| apply IH].
  eapply grows_trans; [| apply IH]. cbn [fst].
  now apply record_grows.
Qed.

(** The comparison of the elements leaves the flag up exactly when it was
    up and the two values are equal. *)
Lemma elements_match k v val : forall vs vals st,
  length vs = length vals ->
  (snd (Compare.elements k v val vs vals st) = true <-> snd st = true /\ vs = vals).
Proof.
  induction vs as [| e vs IH]; intros [| e' vals] st Hlen; cbn [Compare.elements];
    try discriminate; [tauto |].
  cbn [length] in Hlen. rewrite IH by lia.
  destruct (String.eqb_spec e' e) as [-> | Hne]; cbn [negb snd].
  - split; [intros [Hs ->]; auto | intros [Hs E]; injection E as ->; auto].
  - split; [intros [D _]; discriminate | intros [_ E]; injection E as -> _; contradiction].
Qed.

Lemma expected_grows h2 noise hn k v st st' :
  Compare.expected h2 noise hn k v st = Some st' ->
  Compare.grows k (fst st) (fst st') /\ k ∈ Compare.keys (fst st').
Proof.
  unfold Compare.expected.
  destruct (Compare.noisy noise hn k v) as [isNoisy |]; [| discriminate].
  destruct (negb isNoisy).
  - destruct (negb (bool_decide (is_Some (h2 !! k)))).
    { intros E. injection E as <-. cbn [fst]. now apply record_grows. }
    destruct (negb (_ =? _)).
    { intros E. injection E as <-. cbn [fst]. now apply record_grows. }
    intros E. injection E as <-. cbn [fst].
    match goal with
    | |- context [Compare.record ?r k ?x] =>
        destruct (record_grows r k x eq_refl) as [Hg Hin]
    end.
    split; [| exact Hin]. eapply grows_trans; [apply elements_grows | exact Hg].
  - intros E. injection E as <-. cbn [fst]. now apply record_grows.
Qed.

Lemma actual_grows h1 noise hn k v st st' :
  Compare.actual h1 noise hn k v st = Some st' ->
  Compare.grows k (fst st) (fst st').
Proof.
  unfold Compare.actual.
  destruct (Compare.noisy noise hn k v) as [isNoisy |]; [| discriminate].
  destruct (isNoisy && Compare.checkKey (fst st) k) eqn:Hc.
  - intros E. injection E as <-. cbn [fst].
    apply andb_true_iff in Hc as [_ Hck].
    match goal with
    | |- Compare.grows k ?r (?r ++ [?x]) =>
        pose proof (record_grows r k x eq_refl) as [Hg _]
    end.
    unfold Compare.record in Hg. now rewrite Hck in Hg.
  - destruct (negb (bool_decide (is_Some (h1 !! k)))).
    + intros E. injection E as <-. cbn [fst]. now apply record_grows.
    + intros E. injection E as <-. apply grows_refl.
Qed.

(** A loop over a header whose body only appends records for its key:
    the slice grows by records for keys of the header in [order]. *)
Lemma rangeHeader_grows body h order :
  (forall k v st st', body k v st = Some st' -> Compare.grows k (fst st) (fst st')) ->
  forall st st',
    Compare.rangeHeader body h order st = Some st' ->
    (exists more, fst st' = fst st ++ more) /\
    (NoDup (Compare.keys (fst st)) -> NoDup (Compare.keys (fst st'))) /\
    (forall k', k' ∈ Compare.keys (fst st') ->
                k' ∈ Compare.keys (fst st) \/ (k' ∈ order /\ is_Some (h !! k'))).
Proof.
  intros Hbody. induction order as [| k rest IH]; intros st st';
    cbn [Compare.rangeHeader].
  - intros E. injection E as <-. split; [exists []; now rewrite app_nil_r |]. auto.
  - destruct (h !! k) as [v |] eqn:Hk.
    + destruct (body k v st) as [st1 |] eqn:Hb; [| discriminate].
      intros Hrest. destruct (Hbody _ _ _ _ Hb) as ([m1 Hm1] & Hn1 & Hk1).
      destruct (IH _ _ Hrest) as ([m2 Hm2] & Hn2 & Hk2).
      split; [exists (m1 ++ m2); now rewrite Hm2, Hm1, app_assoc |].
      split; [auto |].
      intros k' Hin. destruct (Hk2 k' Hin) as [Hin1 | [Hin1 Hs]].
      * destruct (Hk1 k' Hin1) as [Hin0 | ->]; [now left |].
        right. split; [left | rewrite Hk; eauto].
      * right. split; [now right | exact Hs].
    + intros Hrest. destruct (IH _ _ Hrest) as (Hm & Hn & Hk2).
      split; [exact Hm |]. split; [exact Hn |].
      intros k' Hin. destruct (Hk2 k' Hin) as [Hin1 | [Hin1 Hs]]; [now left |].
      right. split; [now right | exact Hs].
Qed.

(** After the loop over [h1], each of its keys in [order] has a record. *)
Lemma rangeHeader_expected_covers h2 noise hn h1 order : forall st st',
  Compare.rangeHeader (Compare.expected h2 noise hn) h1 order st = Some st' ->
  forall k, (k ∈ Compare.keys (fst st) \/ (k ∈ order /\ is_Some (h1 !! k))) ->
            k ∈ Compare.keys (fst st').
Proof.
  induction order as [| k0 rest IH]; intros st st'; cbn [Compare.rangeHeader].
  - intros E. injection E as <-. intros k [Hin | [Hin _]]; [exact Hin |].
    now apply elem_of_nil in Hin.
  - destruct (h1 !! k0) as [v |] eqn:Hk0.
    + destruct (Compare.expected h2 noise hn k0 v st) as [st1 |] eqn:Hb; [| discriminate].
      intros Hrest k Hk. apply (IH _ _ Hrest).
      destruct (expected_grows _ _ _ _ _ _ _ Hb) as (([m Hm] & _ & _) & Hin0).
      destruct Hk as [Hin | [Hin Hs]].
      * left. rewrite Hm. unfold Compare.keys. rewrite map_app, elem_of_app. now left.
      * apply elem_of_cons in Hin as [-> | Hin]; [now left | right; auto].
    + intros Hrest k Hk. apply (IH _ _ Hrest).
      destruct Hk as [Hin | [Hin Hs]]; [now left |].
      apply elem_of_cons in Hin as [-> | Hin]; [| right; auto].
      rewrite Hk0 in Hs. destruct Hs. discriminate.
Qed.

End CompareHeadersFacts.

(** X26. The records of [CompareHeaders].  With a nil [res] it returns
    false at once.  Otherwise, whenever it returns, the slice behind [res]
    has only grown at its end; if no two records stood for the same key
    before, none do afterwards; every header of [h1] has a record; and
    every new record stands for a header of [h1] or of [h2]. *)
Theorem CompareHeaders_records `{Compare.Regexp}
        (order1 order2 : list string) (h1 h2 : Compare.HttpHeader)
        (res : list Compare.HeaderResult) (noise : Compare.HttpHeader)
        (b : bool) (out : option (list Compare.HeaderResult)) :
  Compare.CompareHeaders order1 order2 h1 h2 None noise = Some (false, None) /\
  (Compare.CompareHeaders order1 order2 h1 h2 (Some res) noise = Some (b, out) ->
   exists res',
     out = Some res' /\
     (exists more, res' = res ++ more) /\
     (NoDup (Compare.keys res) -> NoDup (Compare.keys res')) /\
     (forall k, k ∈ order1 -> is_Some (h1 !! k) -> k ∈ Compare.keys res') /\
     (forall k, k ∈ Compare.keys res' ->
                k ∈ Compare.keys res \/ is_Some (h1 !! k) \/ is_Some (h2 !! k))).
Proof.
  split; [reflexivity |].
  unfold Compare.CompareHeaders.
  destruct (Compare.rangeHeader (Compare.expected _ _ _) h1 order1 (res, true))
    as [st1 |] eqn:H1; [| discriminate].
  destruct (Compare.rangeHeader (Compare.actual _ _ _) h2 order2 st1)
    as [[res' m] |] eqn:H2; [| discriminate].
  intros E. injection E as <- <-. exists res'. split; [reflexivity |].
  destruct (rangeHeader_grows _ h1 order1
              (fun k v st st' Hb => proj1 (expected_grows _ _ _ _ _ _ _ Hb)) _ _ H1)
    as ([m1 Hm1] & Hn1 & Hk1).
  destruct (rangeHeader_grows _ h2 order2
              (fun k v st st' Hb => actual_grows _ _ _ _ _ _ _ Hb) _ _ H2)
    as ([m2 Hm2] & Hn2 & Hk2).
  cbn [fst] in *.
  split; [exists (m1 ++ m2); now rewrite Hm2, Hm1, app_assoc |].
  split; [auto |]. split.
  - intros k Hk Hs.
    pose proof (rangeHeader_expected_covers _ _ _ _ _ _ _ H1 k (or_intror (conj Hk Hs)))
      as Hin.
    rewrite Hm2. unfold Compare.keys. rewrite map_app, elem_of_app. now left.
  - intros k Hin. destruct (Hk2 k Hin) as [Hin1 | [_ Hs]]; [| auto].
    destruct (Hk1 k Hin1) as [Hin0 | [_ Hs]]; auto.
Qed.

Section CompareHeadersNoNoise.
Context `{Compare.Regexp}.

Implicit Types (h : Compare.HttpHeader) (st : list Compare.HeaderResult * bool).

Lemma noisy_empty k v : Compare.noisy ∅ false k v = Some false.
Proof. unfold Compare.noisy. now rewrite lookup_empty. Qed.

(** Without noise the body for a header of [h1] leaves the flag up exactly
    when it was up and [h2] has the header with the same value. *)
Lemma expected_no_noise h2 k v st :
  exists st', Compare.expected h2 ∅ false k v st = Some st' /\
              (snd st' = true <-> snd st = true /\ h2 !! k = Some v).
Proof.
  unfold Compare.expected. rewrite noisy_empty. cbn [negb].
  destruct (h2 !! k) as [val |] eqn:Hk.
  - rewrite bool_decide_eq_true_2 by eauto. cbn [negb default from_option id].
    destruct (Z.eqb_spec (Z.of_nat (length v)) (Z.of_nat (length val))) as [Hlen | Hlen];
      cbn [negb].
    + eexists. split; [reflexivity |]. cbn [snd].
      rewrite elements_match by lia. split; [intros [Hs ->]; auto |].
      intros [Hs E]. injection E as ->. auto.
    + eexists. split; [reflexivity |]. cbn [snd].
      split; [discriminate | intros [_ E]; injection E as ->; contradiction].
  - rewrite bool_decide_eq_false_2 by (intros [x D]; discriminate). cbn [negb].
    eexists. split; [reflexivity |]. cbn [snd].
    split; [discriminate | intros [_ D]; discriminate].
Qed.

Lemma actual_no_noise h1 k v st :
  exists st', Compare.actual h1 ∅ false k v st = Some st' /\
              (snd st' = true <-> snd st = true /\ is_Some (h1 !! k)).
Proof.
  unfold Compare.actual. rewrite noisy_empty. cbn [andb].
  destruct (h1 !! k) as [val |] eqn:Hk.
  - rewrite bool_decide_eq_true_2 by eauto. cbn [negb].
    eexists. split; [reflexivity |]. split; [eauto | tauto].
  - rewrite bool_decide_eq_false_2 by (intros [x D]; discriminate). cbn [negb].
    eexists. split; [reflexivity |]. cbn [snd].
    split; [discriminate | intros [_ [x D]]; discriminate].
Qed.

(** A loop whose body leaves the flag up exactly under a condition on the
    header at hand leaves it up exactly when the condition holds for all
    headers visited. *)
Lemma rangeHeader_flag body h (P : string -> list string -> Prop) order :
  (forall k v st, exists st', body k v st = Some st' /\
                              (snd st' = true <-> snd st = true /\ P k v)) ->
  forall st,
    exists st', Compare.rangeHeader body h order st = Some st' /\
                (snd st' = true <->
                 snd st = true /\ forall k v, k ∈ order -> h !! k = Some v -> P k v).
Proof.
  intros Hbody. induction order as [| k rest IH]; intros st; cbn [Compare.rangeHeader].
  - exists st. split; [reflexivity |]. split; [| tauto].
    intros Hs. split; [exact Hs |]. intros k v Hin. now apply elem_of_nil in Hin.
  - destruct (h !! k) as [v |] eqn:Hk.
    + destruct (Hbody k v st) as (st1 & Hb & Hf1). rewrite Hb.
      destruct (IH st1) as (st' & Hrun & Hf). exists st'. split; [exact Hrun |].
      rewrite Hf, Hf1. split.
      * intros [[Hs Hp] Hall]. split; [exact Hs |].
        intros k' v' Hin Hk'. apply elem_of_cons in Hin as [-> | Hin]; [| eauto].
        rewrite Hk in Hk'. now injection Hk' as <-.
      * intros [Hs Hall]. split; [split; [exact Hs | apply Hall; [left | exact Hk]] |].
        intros k' v' Hin. apply Hall. now right.
    + destruct (IH st) as (st' & Hrun & Hf). exists st'. split; [exact Hrun |].
      rewrite Hf. split.
      * intros [Hs Hall]. split; [exact Hs |].
        intros k' v' Hin Hk'. apply elem_of_cons in Hin as [-> | Hin]; [congruence | eauto].
      * intros [Hs Hall]. split; [exact Hs |].
        intros k' v' Hin. apply Hall. now right.
Qed.

End CompareHeadersNoNoise.

(** X27. Without noise [CompareHeaders] decides equality of the two headers:
    whatever records [res] holds and in whatever order the headers are
    ranged over, it returns, and it returns true exactly when [h1] and [h2]
    have the same keys with the same lists of values. *)
Theorem CompareHeaders_no_noise `{Compare.Regexp}
        (order1 order2 : list string) (h1 h2 : Compare.HttpHeader)
        (res : list Compare.HeaderResult) :
  Compare.iterates order1 h1 -> Compare.iterates order2 h2 ->
  exists b res',
    Compare.CompareHeaders order1 order2 h1 h2 (Some res) ∅ = Some (b, Some res') /\
    (b = true <-> h1 = h2).
Proof.
  intros [_ Hk1] [_ Hk2]. unfold Compare.CompareHeaders.
  rewrite bool_decide_eq_false_2
    by (rewrite lookup_empty; intros [x D]; discriminate).
  destruct (rangeHeader_flag (Compare.expected h2 ∅ false) h1
              (fun k v => h2 !! k = Some v) order1
              (fun k v st => expected_no_noise h2 k v st) (res, true))
    as (st1 & Hrun1 & Hf1).
  destruct (rangeHeader_flag (Compare.actual h1 ∅ false) h2
              (fun k v => is_Some (h1 !! k)) order2
              (fun k v st => actual_no_noise h1 k v st) st1)
    as ([res' b] & Hrun2 & Hf2).
  rewrite Hrun1, Hrun2. exists b, res'. split; [reflexivity |].
  cbn [snd] in Hf1, Hf2. rewrite Hf2, Hf1. split.
  - intros [[_ Hsub] Hdom]. apply map_eq. intros k.
    destruct (h1 !! k) as [v |] eqn:E1.
    + symmetry. apply (Hsub k v); [apply Hk1; rewrite E1; eauto | exact E1].
    + destruct (h2 !! k) as [v |] eqn:E2; [| reflexivity].
      destruct (Hdom k v) as [x Hx]; [apply Hk2; rewrite E2; eauto | exact E2 |].
      congruence.
  - intros ->. repeat split; eauto.
Qed.

Lemma CompareHeaders_no_noise_witness :
  exists b res',
    Compare.CompareHeaders (H := {| Compare.MatchString := fun _ _ => Some false |})
      ["Content-Type"; "Date"]%string ["Date"; "Content-Type"]%string
      (<["Content-Type"%string := ["text/plain"%string]]>
         (<["Date"%string := ["today"%string]]> ∅))
      (<["Date"%string := ["today"%string]]>
         (<["Content-Type"%string := ["text/plain"%string]]> ∅))
      (Some []) ∅ = Some (b, Some res') /\
    (b = true <->
     <["Content-Type"%string := ["text/plain"%string]]>
       (<["Date"%string := ["today"%string]]> (∅ : Compare.HttpHeader))
     = <["Date"%string := ["today"%string]]>
         (<["Content-Type"%string := ["text/plain"%string]]> ∅)).
Proof.
  apply (CompareHeaders_no_noise (H := {| Compare.MatchString := fun _ _ => Some false |})).
  - split.
    + repeat constructor; rewrite ?elem_of_cons, ?elem_of_nil;
        intros D; repeat destruct D as [D | D]; try discriminate; exact D.
    + intros k. rewrite !elem_of_cons, elem_of_nil, !lookup_insert, lookup_empty.
      repeat case_decide; subst; split; intros Hk; eauto;
        try (destruct Hk as [x D]; discriminate);
        repeat destruct Hk as [Hk | Hk]; try congruence; contradiction.
  - split.
    + repeat constructor; rewrite ?elem_of_cons, ?elem_of_nil;
        intros D; repeat destruct D as [D | D]; try discriminate; exact D.
    + intros k. rewrite !elem_of_cons, elem_of_nil, !lookup_insert, lookup_empty.
      repeat case_decide; subst; split; intros Hk; eauto;
        try (destruct Hk as [x D]; discriminate);
        repeat destruct Hk as [Hk | Hk]; try congruence; contradiction.
Defined.

Section CompareHeadersHeaderNoise.
Context `{Compare.Regexp}.

Implicit Types (h : Compare.HttpHeader) (st : list Compare.HeaderResult * bool).

Lemma noisy_header noise k v b :
  Compare.noisy noise true k v = Some b -> b = true.
Proof.
  unfold Compare.noisy. destruct (noise !! k) as [patterns |].
  - destruct (negb _).
    + destruct v as [| v0 v]; [discriminate |].
      destruct (Compare.MatchesAnyRegex v0 patterns); [| discriminate].
      intros E. injection E as <-. apply orb_true_r.
    + intros E. now injection E as <-.
  - intros E. now injection E as <-.
Qed.

Lemma expected_header_noise h2 noise k v st st' :
  Compare.expected h2 noise true k v st = Some st' -> snd st' = snd st.
Proof.
  unfold Compare.expected.
  destruct (Compare.noisy noise true k v) as [b |] eqn:Hn; [| discriminate].
  apply noisy_header in Hn as ->. cbn [negb].
  intros E. now injection E as <-.
Qed.

Lemma actual_header_noise h1 noise k v st st' :
  Compare.actual h1 noise true k v st = Some st' ->
  (k ∈ Compare.keys (fst st) -> is_Some (h1 !! k)) ->
  snd st' = snd st.
Proof.
  unfold Compare.actual.
  destruct (Compare.noisy noise true k v) as [b |] eqn:Hn; [| discriminate].
  apply noisy_header in Hn as ->. cbn [andb].
  destruct (Compare.checkKey (fst st) k) eqn:Hck.
  - intros E _. now injection E as <-.
  - intros E Hin.
    rewrite bool_decide_eq_true_2 in E.
    + cbn [negb] in E. now injection E as <-.
    + apply Hin. destruct (decide (k ∈ Compare.keys (fst st))) as [Hk | Hk]; [exact Hk |].
      apply checkKey_keys in Hk. congruence.
Qed.

Lemma rangeHeader_expected_flag h2 noise h1 order : forall st st',
  Compare.rangeHeader (Compare.expected h2 noise true) h1 order st = Some st' ->
  snd st' = snd st.
Proof.
  induction order as [| k rest IH]; intros st st'; cbn [Compare.rangeHeader].
  - intros E. now injection E as <-.
  - destruct (h1 !! k) as [v |]; [| apply IH].
    destruct (Compare.expected h2 noise true k v st) as [st1 |] eqn:Hb; [| discriminate].
    intros Hrest. rewrite (IH _ _ Hrest). now apply expected_header_noise in Hb.
Qed.

Lemma rangeHeader_actual_flag h1 noise h2 order : forall st st',
  NoDup order ->
  (forall k, k ∈ Compare.keys (fst st) -> is_Some (h1 !! k) \/ k ∉ order) ->
  Compare.rangeHeader (Compare.actual h1 noise true) h2 order st = Some st' ->
  snd st' = snd st.
Proof.
  induction order as [| k rest IH]; intros st st' Hnd Hinv; cbn [Compare.rangeHeader].
  - intros E. now injection E as <-.
  - apply NoDup_cons in Hnd as [Hk Hnd].
    destruct (h2 !! k) as [v |].
    + destruct (Compare.actual h1 noise true k v st) as [st1 |] eqn:Hb; [| discriminate].
      intros Hrest.
      rewrite (IH st1 st' Hnd); [| | exact Hrest].
      * apply (actual_header_noise _ _ _ _ _ _ Hb).
        intros Hin. destruct (Hinv k Hin) as [Hs | Hn]; [exact Hs |].
        exfalso. apply Hn. left.
      * destruct (actual_grows _ _ _ _ _ _ _ Hb) as (_ & _ & Hkeys).
        intros k' Hin. destruct (Hkeys k' Hin) as [Hold | ->]; [| now right].
        destruct (Hinv k' Hold) as [Hs | Hn]; [now left |].
        right. intros Hr. apply Hn. now right.
    + apply IH; [exact Hnd |].
      intros k' Hin. destruct (Hinv k' Hin) as [Hs | Hn]; [now left |].
      right. intros Hr. apply Hn. now right.
Qed.

End CompareHeadersHeaderNoise.

(** X28. When the noise has the key "header", every header is noisy: called
    with an empty slice of records, [CompareHeaders] returns true whenever
    it returns, whatever the two headers hold. *)
Theorem CompareHeaders_header_noise `{Compare.Regexp}
        (order1 order2 : list string) (h1 h2 : Compare.HttpHeader)
        (noise : Compare.HttpHeader)
        (b : bool) (out : option (list Compare.HeaderResult)) :
  is_Some (noise !! "header"%string) ->
  NoDup order2 ->
  Compare.CompareHeaders order1 order2 h1 h2 (Some []) noise = Some (b, out) ->
  b = true.
Proof.
  intros Hn Hnd. unfold Compare.CompareHeaders.
  rewrite bool_decide_eq_true_2 by exact Hn.
  destruct (Compare.rangeHeader (Compare.expected _ _ _) h1 order1 ([], true))
    as [st1 |] eqn:H1; [| discriminate].
  destruct (Compare.rangeHeader (Compare.actual _ _ _) h2 order2 st1)
    as [[res' m] |] eqn:H2; [| discriminate].
  intros E. injection E as <- _.
  pose proof (rangeHeader_expected_flag _ _ _ _ _ _ H1) as Hf1.
  destruct (rangeHeader_grows _ h1 order1
              (fun k v st st' Hb => proj1 (expected_grows _ _ _ _ _ _ _ Hb)) _ _ H1)
    as (_ & _ & Hk1).
  assert (Hinv : forall k, k ∈ Compare.keys (fst st1) ->
                           is_Some (h1 !! k) \/ k ∉ order2).
  { intros k Hin. destruct (Hk1 k Hin) as [Hnil | [_ Hs]]; [| now left].
    now apply elem_of_nil in Hnil. }
  pose proof (rangeHeader_actual_flag _ _ _ _ _ _ Hnd Hinv H2) as Hf2.
  cbn [snd] in Hf1, Hf2. congruence.
Qed.

Lemma CompareHeaders_header_noise_witness :
  exists out,
    Compare.CompareHeaders (H := {| Compare.MatchString := fun _ _ => Some false |})
      ["Date"%string] ["Server"%string]
      {[ "Date"%string := ["today"%string] ]}
      {[ "Server"%string := ["nginx"%string] ]}
      (Some []) {[ "header"%string := [] ]} = Some (true, out).
Proof.
  destruct (Compare.CompareHeaders (H := {| Compare.MatchString := fun _ _ => Some false |})
              ["Date"%string] ["Server"%string]
              {[ "Date"%string := ["today"%string] ]}
              {[ "Server"%string := ["nginx"%string] ]}
              (Some []) {[ "header"%string := [] ]}) as [[b out] |] eqn:Hrun;
    [| vm_compute in Hrun; discriminate].
  exists out. f_equal. f_equal.
  apply (CompareHeaders_header_noise
           (H := {| Compare.MatchString := fun _ _ => Some false |})
           ["Date"%string] ["Server"%string]
           {[ "Date"%string := ["today"%string] ]}
           {[ "Server"%string := ["nginx"%string] ]}
           {[ "header"%string := [] ]} b out);
    [rewrite lookup_singleton_eq; eauto | repeat constructor; apply not_elem_of_nil
    | exact Hrun].
Defined.

(* ===================================================================== *)
(** ** package test: Flatten, AddHttpBodyToMap, FlattenHttpResponse *)
(* ===================================================================== *)

(** *** The keys the loops write to *)

Lemma append_inj_r (k a b : string) : k +:+ a = k +:+ b -> a = b.
Proof.
  induction k as [| c k IH]; simpl; [auto |].
  intros E. injection E as E. auto.
Qed.

Lemma append_ne_self (k : string) (c : ascii) (s : string) :
  k <> k +:+ String c s.
Proof.
  induction k as [| c' k IH]; simpl; [discriminate |].
  intros E. injection E as E. auto.
Qed.

Lemma joined_empty (k : string) : Flat.joined k "" = k.
Proof. reflexivity. Qed.

Lemma joined_nonempty (k nk : string) :
  nk <> ""%string -> Flat.joined k nk = k +:+ String "." nk.
Proof.
  intros Hnk. unfold Flat.joined.
  destruct (String.eqb_spec nk ""); [contradiction | reflexivity].
Qed.

Lemma joined_cases (k nk : string) :
  (nk = ""%string /\ Flat.joined k nk = k) \/
  (nk <> ""%string /\ Flat.joined k nk = k +:+ String "." nk).
Proof.
  destruct (String.eqb_spec nk "") as [-> | Hnk].
  - left. split; reflexivity.
  - right. split; [exact Hnk | apply joined_nonempty; exact Hnk].
Qed.

#[global] Instance joined_inj (k : string) : Inj (=) (=) (Flat.joined k).
Proof.
  intros a b E.
  destruct (joined_cases k a) as [[-> Ea] | [Ha Ea]],
           (joined_cases k b) as [[-> Eb] | [Hb Eb]];
    rewrite ?Ea, ?Eb in E.
  - reflexivity.
  - exfalso. exact (append_ne_self _ _ _ E).
  - exfalso. symmetry in E. exact (append_ne_self _ _ _ E).
  - apply append_inj_r in E. injection E as E. exact E.
Qed.

#[global] Instance header_key_inj : Inj (=) (=) (String.append "header.").
Proof. intros a b E. exact (append_inj_r _ _ _ E). Qed.

Lemma dotless_cons (c : ascii) (k : string) :
  Flat.dotless (String c k) = true -> c <> "."%char /\ Flat.dotless k = true.
Proof.
  simpl. intros Hk. apply andb_prop in Hk as [Hc Hk]. split; [| exact Hk].
  intros ->. rewrite Ascii.eqb_refl in Hc. discriminate.
Qed.

Lemma dotless_split (k k' a b : string) :
  Flat.dotless k = true -> Flat.dotless k' = true ->
  k +:+ String "." a = k' +:+ String "." b -> k = k' /\ a = b.
Proof.
  revert k'. induction k as [| c k IH]; intros [| c' k'] Hk Hk' E; simpl in E.
  - injection E as E. auto.
  - injection E as Ec E. apply dotless_cons in Hk' as [Hc _]. congruence.
  - injection E as Ec E. apply dotless_cons in Hk as [Hc _]. congruence.
  - injection E as Ec E. apply dotless_cons in Hk as [_ Hk].
    apply dotless_cons in Hk' as [_ Hk'].
    destruct (IH k' Hk Hk' E) as [-> ->]. subst c'. auto.
Qed.

Lemma dotless_no_dot (k k' s : string) :
  Flat.dotless k = true -> k <> k' +:+ String "." s.
Proof.
  revert k'. induction k as [| c k IH]; intros [| c' k'] Hk E; simpl in E;
    try discriminate.
  - injection E as Ec E. apply dotless_cons in Hk as [Hc _]. congruence.
  - injection E as Ec E. apply dotless_cons in Hk as [_ Hk].
    exact (IH k' Hk E).
Qed.

(** Two keys of an object without dots never give the same flattened key. *)
Lemma joined_dotless (k k' a b : string) :
  Flat.dotless k = true -> Flat.dotless k' = true ->
  Flat.joined k a = Flat.joined k' b -> k = k' /\ a = b.
Proof.
  intros Hk Hk' E.
  destruct (joined_cases k a) as [[-> Ea] | [Ha Ea]],
           (joined_cases k' b) as [[-> Eb] | [Hb Eb]];
    rewrite ?Ea, ?Eb in E.
  - auto.
  - exfalso. exact (dotless_no_dot _ _ _ Hk E).
  - exfalso. symmetry in E. exact (dotless_no_dot _ _ _ Hk' E).
  - exact (dotless_split _ _ _ _ Hk Hk' E).
Qed.

Lemma body_key_not_header (k k' : string) :
  Flat.joined "body" k <> "header." +:+ k'.
Proof.
  destruct (joined_cases "body" k) as [[_ ->] | [_ ->]]; simpl; discriminate.
Qed.

(** *** Loops that write one key per entry *)

Section KeyedRange.
Context (g : string -> string) `{!Inj (=) (=) g}.
Context (f : list string -> list string).

Lemma foldl_keyed (l : list (string * list string)) (o : Flat.Flattened) :
  NoDup l.*1 ->
  foldl (fun o kv => <[g kv.1 := f kv.2]> o) o l =
  kmap (M2 := gmap string) g (f <$> (list_to_map l : Flat.Flattened)) ∪ o.
Proof.
  revert o. induction l as [| [k v] l IH]; intros o Hnd; simpl.
  - rewrite fmap_empty, kmap_empty, (left_id_L ∅ (∪)). reflexivity.
  - apply NoDup_cons in Hnd as [Hk Hl]. rewrite (IH _ Hl).
    rewrite fmap_insert, (kmap_insert g).
    rewrite <- insert_union_l. symmetry. apply insert_union_r.
    rewrite (lookup_kmap g), lookup_fmap.
    rewrite (not_elem_of_list_to_map_1 _ _ Hk). reflexivity.
Qed.

Lemma range_keyed (nm o : Flat.Flattened) :
  Flat.range (fun o k v => <[g k := f v]> o) nm o =
  kmap (M2 := gmap string) g (f <$> nm) ∪ o.
Proof.
  unfold Flat.range. rewrite foldl_keyed by apply NoDup_fst_map_to_list.
  rewrite list_to_map_to_list. reflexivity.
Qed.

(** Whatever the order in which [range] visits the entries of [nm], the
    loop leaves the same map. *)
Lemma range_keyed_any_order (l : list (string * list string))
      (nm o : Flat.Flattened) :
  l ≡ₚ map_to_list nm ->
  foldl (fun o kv => <[g kv.1 := f kv.2]> o) o l =
  Flat.range (fun o k v => <[g k := f v]> o) nm o.
Proof.
  intros Hl.
  assert (Hnd : NoDup l.*1).
  { rewrite Hl. apply NoDup_fst_map_to_list. }
  rewrite (foldl_keyed _ _ Hnd), range_keyed.
  rewrite (list_to_map_proper _ _ Hnd Hl), list_to_map_to_list. reflexivity.
Qed.

End KeyedRange.

Lemma range_mapStep (k : string) (nm o : Flat.Flattened) :
  Flat.range (Flat.mapStep k) nm o = kmap (M2 := gmap string) (Flat.joined k) nm ∪ o.
Proof.
  change (Flat.mapStep k) with (fun (o : Flat.Flattened) nk (nv : list string) => <[Flat.joined k nk := id nv]> o).
  rewrite (range_keyed (Flat.joined k) id), map_fmap_id. reflexivity.
Qed.

Lemma range_bodyStep (nm o : Flat.Flattened) :
  Flat.range Flat.bodyStep nm o = kmap (M2 := gmap string) (Flat.joined "body") nm ∪ o.
Proof. exact (range_mapStep "body" nm o). Qed.

Lemma range_headerStep (h o : Flat.Flattened) :
  Flat.range Flat.headerStep h o =
  kmap (M2 := gmap string) (String.append "header.")
       ((fun v => [String.concat "" v]) <$> h) ∪ o.
Proof.
  exact (range_keyed (String.append "header.") (fun v => [String.concat "" v]) h o).
Qed.

(** The loop of the [reflect.Slice] case appends entry by entry. *)
Lemma sliceStep_union_with (o : Flat.Flattened) (nk : string) (nv : list string) :
  Flat.sliceStep o nk nv =
  union_with (fun ov nv => Some (ov ++ nv)) o {[ nk := nv ]}.
Proof.
  apply map_eq. intros i. rewrite lookup_union_with. unfold Flat.sliceStep.
  destruct (decide (i = nk)) as [-> | Hi].
  - rewrite lookup_singleton_eq.
    destruct (o !! nk) as [ov |] eqn:Ho; rewrite lookup_insert_eq; reflexivity.
  - rewrite lookup_singleton_ne by congruence.
    destruct (o !! nk) as [ov |] eqn:Ho; rewrite lookup_insert_ne by congruence;
      destruct (o !! i); reflexivity.
Qed.

Lemma foldl_sliceStep (l : list (string * list string)) (o : Flat.Flattened) :
  NoDup l.*1 ->
  foldl (fun o kv => Flat.sliceStep o kv.1 kv.2) o l =
  union_with (fun ov nv => Some (ov ++ nv)) o (list_to_map l).
Proof.
  revert o. induction l as [| [k v] l IH]; intros o Hnd; simpl.
  - apply map_eq. intros i. rewrite lookup_union_with, lookup_empty.
    destruct (o !! i); reflexivity.
  - apply NoDup_cons in Hnd as [Hk Hl]. rewrite (IH _ Hl), sliceStep_union_with.
    apply map_eq. intros i. rewrite !lookup_union_with.
    destruct (decide (i = k)) as [-> | Hi].
    + rewrite lookup_singleton_eq, lookup_insert_eq.
      rewrite (not_elem_of_list_to_map_1 _ _ Hk).
      destruct (o !! k); reflexivity.
    + rewrite lookup_singleton_ne, lookup_insert_ne by congruence.
      destruct (o !! i), (list_to_map l !! i); reflexivity.
Qed.

Lemma range_sliceStep_any_order (l : list (string * list string))
      (nm o : Flat.Flattened) :
  l ≡ₚ map_to_list nm ->
  foldl (fun o kv => Flat.sliceStep o kv.1 kv.2) o l =
  Flat.range Flat.sliceStep nm o.
Proof.
  intros Hl.
  assert (Hnd : NoDup l.*1).
  { rewrite Hl. apply NoDup_fst_map_to_list. }
  unfold Flat.range.
  rewrite (foldl_sliceStep _ _ Hnd),
          (foldl_sliceStep _ _ (NoDup_fst_map_to_list nm)).
  rewrite (list_to_map_proper _ _ Hnd Hl). reflexivity.
Qed.

(** *** Flatten on an object *)

Section FlattenFacts.
Context {float64 : Type} `{Flat.Strconv float64}.

Local Abbreviation objectStep :=
  (fun (acc : Flat.Flattened * list (Flat.Value float64))
       (kv : string * Flat.Value float64) =>
     let nm := Flat.Flatten kv.2 in
     (Flat.range (Flat.mapStep kv.1) nm.1 acc.1, acc.2 ++ nm.2)).

Lemma objectLoop_other (m : list (string * Flat.Value float64))
      (acc : Flat.Flattened * list (Flat.Value float64)) (key : string) :
  (forall k v nk, (k, v) ∈ m -> is_Some ((Flat.Flatten v).1 !! nk) ->
                  Flat.joined k nk <> key) ->
  (foldl objectStep acc m).1 !! key = acc.1 !! key.
Proof.
  revert acc. induction m as [| [k v] m IH]; intros acc Hne; simpl; [reflexivity |].
  rewrite IH.
  - simpl. rewrite range_mapStep. apply lookup_union_r.
    apply (lookup_kmap_None (Flat.joined k)). intros nk ->.
    destruct ((Flat.Flatten v).1 !! nk) as [x |] eqn:E; [| reflexivity].
    exfalso. apply (Hne k v nk); [left | rewrite E; eauto | reflexivity].
  - intros k' v' nk Hin. apply Hne. right. exact Hin.
Qed.

Lemma objectLoop_lookup (m : list (string * Flat.Value float64))
      (acc : Flat.Flattened * list (Flat.Value float64))
      (k : string) (v : Flat.Value float64) (nk : string) :
  NoDup m.*1 -> Forall (fun k => Flat.dotless k = true) m.*1 -> (k, v) ∈ m ->
  (foldl objectStep acc m).1 !! Flat.joined k nk =
  match (Flat.Flatten v).1 !! nk with
  | Some nv => Some nv
  | None => acc.1 !! Flat.joined k nk
  end.
Proof.
  revert acc. induction m as [| [k' v'] m IH]; intros acc Hnd Hdl Hin.
  - apply elem_of_nil in Hin. contradiction.
  - rewrite fmap_cons in Hnd, Hdl. simpl in Hnd, Hdl.
    apply NoDup_cons in Hnd as [Hk' Hnd].
    apply Forall_cons in Hdl as [Hd' Hdl].
    assert (Hd : forall k0 v0, (k0, v0) ∈ m -> Flat.dotless k0 = true).
    { intros k0 v0 H0. rewrite Forall_forall in Hdl. apply Hdl.
      apply (list_elem_of_fmap_2 fst _ _ H0). }
    apply elem_of_cons in Hin as [E | Hin].
    + injection E as -> ->. simpl. rewrite objectLoop_other.
      * simpl. rewrite range_mapStep, lookup_union, (lookup_kmap (Flat.joined k')).
        destruct ((Flat.Flatten v').1 !! nk), (acc.1 !! Flat.joined k' nk);
          reflexivity.
      * intros k0 v0 nk0 H0 _ E.
        apply joined_dotless in E as [-> _]; [| eauto | assumption].
        apply Hk'. apply (list_elem_of_fmap_2 fst _ _ H0).
    + simpl. rewrite (IH _ Hnd Hdl Hin). simpl. rewrite range_mapStep.
      rewrite (lookup_union_r (kmap (Flat.joined k') _)); [reflexivity |].
      apply (lookup_kmap_None (Flat.joined k')). intros nk' E.
      apply joined_dotless in E as [-> _]; [| eauto | assumption].
      exfalso. apply Hk'. apply (list_elem_of_fmap_2 fst _ _ Hin).
Qed.

Lemma objectLoop_keys (m : list (string * Flat.Value float64))
      (acc : Flat.Flattened * list (Flat.Value float64))
      (key : string) (nv : list string) :
  (foldl objectStep acc m).1 !! key = Some nv ->
  acc.1 !! key = Some nv \/
  exists k v nk, (k, v) ∈ m /\ key = Flat.joined k nk /\
                 (Flat.Flatten v).1 !! nk = Some nv.
Proof.
  revert acc. induction m as [| [k v] m IH]; intros acc Hkey; simpl in Hkey.
  - left. exact Hkey.
  - apply IH in Hkey as [Hkey | (k0 & v0 & nk & Hin & -> & Hnk)].
    + simpl in Hkey. rewrite range_mapStep in Hkey.
      apply lookup_union_Some_raw in Hkey as [Hkey | [_ Hkey]].
      * apply (lookup_kmap_Some (Flat.joined k)) in Hkey as (nk & -> & Hnk).
        right. exists k, v, nk. split; [left | auto].
      * left. exact Hkey.
    + right. exists k0, v0, nk. split; [right; exact Hin | auto].
Qed.

(** X29. [Flatten] on a JSON object whose keys are distinct and hold no dot
    replaces nesting by dot-delimited keys and nothing else: the entry [nk]
    of the flattened value of the key [k] is found under [k] when [nk] is
    empty and under [k.nk] otherwise, whatever the order in which [range]
    visited the object, and every entry of the result is one of these. *)
Theorem Flatten_object (m : list (string * Flat.Value float64)) :
  NoDup m.*1 -> Forall (fun k => Flat.dotless k = true) m.*1 ->
  (forall k v nk, (k, v) ∈ m ->
     (Flat.Flatten (Flat.Map m)).1 !! Flat.joined k nk = (Flat.Flatten v).1 !! nk) /\
  (forall key nv, (Flat.Flatten (Flat.Map m)).1 !! key = Some nv ->
     exists k v nk, (k, v) ∈ m /\ key = Flat.joined k nk /\
                    (Flat.Flatten v).1 !! nk = Some nv).
Proof.
  intros Hnd Hdl.
  change (Flat.Flatten (Flat.Map m)) with (foldl objectStep (∅, []) m).
  split.
  - intros k v nk Hin. rewrite (objectLoop_lookup _ _ _ _ nk Hnd Hdl Hin).
    simpl. rewrite lookup_empty.
    destruct ((Flat.Flatten v).1 !! nk); reflexivity.
  - intros key nv Hkey. apply objectLoop_keys in Hkey as [Hkey | Hkey].
    + simpl in Hkey. rewrite lookup_empty in Hkey. discriminate.
    + exact Hkey.
Qed.

End FlattenFacts.

Lemma Flatten_object_witness :
  (Flat.Flatten (Flat.Map Flat.profile)).1 !! "address.city"%string =
  Some ["Pune"%string].
Proof.
  transitivity ((Flat.Flatten Flat.address).1 !! "city"%string);
    [| vm_compute; reflexivity].
  refine (proj1 (Flatten_object Flat.profile _ _)
                "address"%string Flat.address "city"%string _).
  - repeat constructor; vm_compute; intros Hin;
      repeat (apply elem_of_cons in Hin as [Hin | Hin]; [discriminate |]);
      apply elem_of_nil in Hin; exact Hin.
  - repeat constructor.
  - right. right. left.
Defined.

(** *** FlattenHttpResponse *)

Section FlattenHttpResponseFacts.
Context {float64 : Type} `{Flat.Strconv float64} `{Flat.Json float64}.

Lemma headers_lookup (h : gmap string (list string)) (k : string) :
  Flat.range Flat.headerStep h ∅ !! ("header." +:+ k) =
  (fun v => [String.concat "" v]) <$> h !! k.
Proof.
  rewrite range_headerStep, lookup_union_l by apply lookup_empty.
  rewrite (lookup_kmap (String.append "header.")), lookup_fmap. reflexivity.
Qed.

Lemma headers_keys (h : gmap string (list string)) (key : string) :
  is_Some (Flat.range Flat.headerStep h ∅ !! key) ->
  exists k, is_Some (h !! k) /\ key = "header." +:+ k.
Proof.
  rewrite range_headerStep, lookup_union_l by apply lookup_empty.
  intros [x Hx].
  apply (lookup_kmap_Some (String.append "header.")) in Hx as (k & -> & Hk).
  rewrite lookup_fmap in Hk. exists k. split; [| reflexivity].
  destruct (h !! k); [eauto | discriminate].
Qed.

Lemma headers_no_body (h : gmap string (list string)) (k : string) :
  Flat.range Flat.headerStep h ∅ !! Flat.joined "body" k = None.
Proof.
  destruct (Flat.range Flat.headerStep h ∅ !! Flat.joined "body" k) eqn:E;
    [| reflexivity].
  destruct (headers_keys h (Flat.joined "body" k)) as (k' & _ & Hk');
    [rewrite E; eauto |].
  exfalso. exact (body_key_not_header _ _ Hk').
Qed.

(** X30. [FlattenHttpResponse] keeps headers and body apart.  Every header
    [k] of [h] is found under ["header." + k] with its values joined,
    whatever the body holds; every key of the result is such a header key,
    ["body"], or ["body." + k].  A body that is not valid JSON is stored raw
    under ["body"]; a valid one contributes the entries of [Flatten] of its
    parsed value, the entry [k] under ["body"] for an empty [k] and under
    ["body." + k] otherwise; and when [json.Unmarshal] fails its error is
    returned and no body entry is written. *)
Theorem FlattenHttpResponse_entries (h : gmap string (list string))
        (body : string) :
  let r := Flat.FlattenHttpResponse h body in
  (forall k v, h !! k = Some v ->
     r.1.1 !! ("header." +:+ k) = Some [String.concat "" v]) /\
  (forall key, is_Some (r.1.1 !! key) ->
     (exists k, is_Some (h !! k) /\ key = "header." +:+ k) \/
     (exists k, key = Flat.joined "body" k)) /\
  (Flat.Valid body = false ->
     r.1.1 !! "body"%string = Some [body] /\ r.1.2 = [] /\ r.2 = None) /\
  (forall result, Flat.Valid body = true -> Flat.Unmarshal body = inr result ->
     r.2 = None /\ r.1.2 = (Flat.Flatten result).2 /\
     forall k, r.1.1 !! Flat.joined "body" k = (Flat.Flatten result).1 !! k) /\
  (forall err, Flat.Valid body = true -> Flat.Unmarshal body = inl err ->
     r.2 = Some err /\ r.1.2 = [] /\
     forall k, r.1.1 !! Flat.joined "body" k = None).
Proof.
  unfold Flat.FlattenHttpResponse, Flat.AddHttpBodyToMap.
  destruct (Flat.Valid body) eqn:Hvalid;
    [destruct (Flat.Unmarshal body) as [err | result] eqn:Hjson |];
    cbn zeta; simpl.
  - (* the body does not parse *)
    split; [| split; [| split; [| split]]].
    + intros k v Hk. rewrite headers_lookup, Hk. reflexivity.
    + intros key Hkey. left. exact (headers_keys h key Hkey).
    + discriminate.
    + discriminate.
    + intros err' _ E. injection E as <-.
      split; [reflexivity | split; [reflexivity |]].
      intros k. apply headers_no_body.
  - (* the body is flattened *)
    rewrite range_bodyStep.
    split; [| split; [| split; [| split]]].
    + intros k v Hk. rewrite lookup_union_r.
      * rewrite headers_lookup, Hk. reflexivity.
      * apply (lookup_kmap_None (Flat.joined "body")). intros k' E.
        exfalso. symmetry in E. exact (body_key_not_header _ _ E).
    + intros key [x Hkey].
      apply lookup_union_Some_raw in Hkey as [Hkey | [_ Hkey]].
      * apply (lookup_kmap_Some (Flat.joined "body")) in Hkey as (k & -> & _).
        right. eauto.
      * left. apply headers_keys. rewrite Hkey. eauto.
    + discriminate.
    + intros result' _ E. injection E as <-.
      split; [reflexivity | split; [reflexivity |]].
      intros k. rewrite lookup_union, (lookup_kmap (Flat.joined "body")).
      rewrite headers_no_body.
      destruct ((Flat.Flatten result).1 !! k); reflexivity.
    + discriminate.
  - (* the body is kept as raw text *)
    split; [| split; [| split; [| split]]].
    + intros k v Hk. rewrite lookup_insert_ne by (simpl; discriminate).
      rewrite headers_lookup, Hk. reflexivity.
    + intros key Hkey. destruct (decide (key = "body"%string)) as [-> | Hne].
      * right. exists ""%string. reflexivity.
      * rewrite lookup_insert_ne in Hkey by congruence.
        left. exact (headers_keys h key Hkey).
    + intros _. rewrite lookup_insert_eq. auto.
    + discriminate.
    + discriminate.
Qed.

End FlattenHttpResponseFacts.
